(** * domus-aici: the demo calculator and ledger of [src/js/app.js]

    A shallow embedding of the page script: JavaScript numbers are IEEE-754
    binary64 values ([spec_float] at precision 53, maximal exponent 1024),
    strings are sequences of UTF-16 code units, and the document is an
    explicit record threaded through the handlers. *)

From Stdlib Require Import ZArith NArith List String Ascii Bool Lia.
From Stdlib Require Import QArith Qround.
From Stdlib Require Import Floats.SpecFloat.
Import ListNotations.

Local Open Scope Z_scope.

(** ** JavaScript numbers *)

Module Num.

Definition prec : Z := 53.
Definition emax : Z := 1024.

Definition number := spec_float.

Definition NaN : number := S754_nan.
Definition Infinity : number := S754_infinity false.
Definition zero : number := S754_zero false.

(** The Number value of a mathematical integer (round to nearest, ties to
    even). *)
Definition of_Z (n : Z) : number := binary_normalize prec emax n 0 false.

Definition mul : number -> number -> number := SFmul prec emax.
Definition div : number -> number -> number := SFdiv prec emax.
Definition add : number -> number -> number := SFadd prec emax.
Definition sub : number -> number -> number := SFsub prec emax.
Definition abs : number -> number := SFabs.

(** [x <= y], [x < y], [x == y] on numbers: false as soon as one side is
    NaN. *)
Definition leb : number -> number -> bool := SFleb.
Definition ltb : number -> number -> bool := SFltb.
Definition eqb : number -> number -> bool := SFeqb.

(** The global [isNaN] on a number. *)
Definition isNaN (x : number) : bool :=
  match x with S754_nan => true | _ => false end.

(** ToBoolean on a number: +0, -0 and NaN are falsy. *)
Definition truthy (x : number) : bool :=
  match x with
  | S754_zero _ | S754_nan => false
  | _ => true
  end.

(** The literals of the script. *)
Definition half : number := Eval cbv in div (of_Z 1) (of_Z 2).   (* 0.5 *)
Definition hundred : number := Eval cbv in of_Z 100.             (* 100 *)

(** The mathematical value of a finite number [(-1)^s * m * 2^e]. *)
Definition signed (s : bool) (m : positive) : Z :=
  if s then Z.neg m else Z.pos m.

Definition to_Q (x : number) : option Q :=
  match x with
  | S754_zero _ => Some 0%Q
  | S754_finite s m e =>
      Some (if 0 <=? e then inject_Z (signed s m * 2 ^ e)
            else Qmake (signed s m) (Z.to_pos (2 ^ (- e))))
  | _ => None
  end.

(** [Math.round]: the integer closest to [x], the one towards +Infinity on a
    tie; zeros, infinities and NaN are returned unchanged, and a result of
    zero keeps the sign of [x].  [round_half_up s m e] is that integer,
    floor(x + 1/2), for x = (-1)^s * m * 2^e. *)
Definition round_half_up (s : bool) (m : positive) (e : Z) : Z :=
  if 0 <=? e then signed s m * 2 ^ e
  else (2 * signed s m + 2 ^ (- e)) / 2 ^ (- e + 1).

Definition Math_round (x : number) : number :=
  match x with
  | S754_finite s m e =>
      let n := round_half_up s m e in
      if n =? 0 then S754_zero s else of_Z n
  | _ => x
  end.

End Num.

(** ** JavaScript strings *)

Module Str.

(** A string is its sequence of UTF-16 code units. *)
Definition jsstring := list N.

(** An ASCII literal of the script. *)
Definition js (s : string) : jsstring :=
  map N_of_ascii (list_ascii_of_string s).

(** The code units of the script's literals that lie outside ASCII. *)
Definition e_acute : N := 233%N.    (* U+00E9 *)
Definition a_grave : N := 224%N.    (* U+00E0 *)
Definition rsquo : N := 8217%N.     (* U+2019 *)

(** ToBoolean on a string: only the empty string is falsy. *)
Definition truthy (s : jsstring) : bool :=
  match s with [] => false | _ => true end.

(** [a || b] on strings. *)
Definition or_else (a b : jsstring) : jsstring :=
  if truthy a then a else b.

Fixpoint eqb (a b : jsstring) : bool :=
  match a, b with
  | [], [] => true
  | x :: a', y :: b' => (x =? y)%N && eqb a' b'
  | _, _ => false
  end.

(** WhiteSpace and LineTerminator code points of ECMAScript: TAB, LF, VT,
    FF, CR, SP, NBSP, the Unicode space separators, LS, PS and ZWNBSP. *)
Definition is_whitespace (c : N) : bool :=
  ((9 <=? c) && (c <=? 13) || (c =? 32) || (c =? 160) || (c =? 5760)
   || (8192 <=? c) && (c <=? 8202) || (c =? 8232) || (c =? 8233)
   || (c =? 8239) || (c =? 8287) || (c =? 12288) || (c =? 65279))%N.

Fixpoint trimStart (s : jsstring) : jsstring :=
  match s with
  | c :: r => if is_whitespace c then trimStart r else s
  | [] => []
  end.

Definition trimEnd (s : jsstring) : jsstring := rev (trimStart (rev s)).

(** [String.prototype.trim] *)
Definition trim (s : jsstring) : jsstring := trimEnd (trimStart s).

(** [s.slice(0, n)] for a non-negative [n]. *)
Definition slice0 (n : nat) (s : jsstring) : jsstring := firstn n s.

Fixpoint starts_with (p s : jsstring) : bool :=
  match p, s with
  | [], _ => true
  | x :: p', y :: s' => (x =? y)%N && starts_with p' s'
  | _ :: _, [] => false
  end.

Definition is_digit (c : N) : bool := ((48 <=? c) && (c <=? 57))%N.

(** The longest run of decimal digits at the front, and what follows. *)
Fixpoint span_digits (s : jsstring) : jsstring * jsstring :=
  match s with
  | c :: r =>
      if is_digit c then let '(ds, rest) := span_digits r in (c :: ds, rest)
      else ([], s)
  | [] => ([], [])
  end.

(** The mathematical value of a run of decimal digits. *)
Definition digits_value (ds : jsstring) : Z :=
  fold_left (fun acc c => 10 * acc + (Z.of_N c - 48)) ds 0.

End Str.

(** ** parseFloat *)

Module Parse.
Import Str.

(** The Number value of [(-1)^neg * m * 10^e]: the exact quotient of two
    integers, rounded once to nearest-even. *)
Definition decimal_value (neg : bool) (m e : Z) : Num.number :=
  match m * 10 ^ Z.max e 0 with
  | Z.pos p =>
      Num.div (S754_finite neg p 0)
              (S754_finite false (Z.to_pos (10 ^ Z.max (- e) 0)) 0)
  | _ => S754_zero neg
  end.

(** ExponentPart: [e] or [E], an optional sign, at least one digit.
    Anything else is not part of the literal and counts for 0. *)
Definition exponent_part (s : jsstring) : Z :=
  match s with
  | c :: r =>
      if ((c =? 101) || (c =? 69))%N then
        let '(neg, r') :=
          match r with
          | d :: r1 =>
              if (d =? 45)%N then (true, r1)
              else if (d =? 43)%N then (false, r1) else (false, r)
          | [] => (false, r)
          end in
        match fst (span_digits r') with
        | [] => 0
        | ds => if neg then - digits_value ds else digits_value ds
        end
      else 0
  | [] => 0
  end.

(** [parseFloat(input)]: leading white space is skipped, then the longest
    prefix that is a StrDecimalLiteral is converted; NaN when there is no
    such prefix. *)
Definition parseFloat (input : jsstring) : Num.number :=
  let t := trimStart input in
  let '(neg, t1) :=
    match t with
    | c :: r =>
        if (c =? 45)%N then (true, r)
        else if (c =? 43)%N then (false, r) else (false, t)
    | [] => (false, t)
    end in
  if starts_with (js "Infinity") t1 then S754_infinity neg
  else
    let '(ip, t2) := span_digits t1 in
    let '(fp, t3) :=
      match t2 with
      | c :: r => if (c =? 46)%N then span_digits r else ([], t2)
      | [] => ([], t2)
      end in
    match ip ++ fp with
    | [] => Num.NaN
    | ds =>
        decimal_value neg (digits_value ds)
                      (exponent_part t3 - Z.of_nat (List.length fp))
    end.

End Parse.

(** ** Date: the part of it that [today()] uses *)

Module Clock.
Import Str.

Definition msPerDay : Z := 86400000.

(** Year, month (1..12) and day of the month of a day number counted from
    1970-01-01, in the proleptic Gregorian calendar. *)
Definition civil_from_days (days : Z) : Z * Z * Z :=
  let z := days + 719468 in
  let era := z / 146097 in
  let doe := z - era * 146097 in
  let yoe := (doe - doe / 1460 + doe / 36524 - doe / 146096) / 365 in
  let doy := doe - (365 * yoe + yoe / 4 - yoe / 100) in
  let mp := (5 * doy + 2) / 153 in
  let d := doy - (153 * mp + 2) / 5 + 1 in
  let m := if mp <? 10 then mp + 3 else mp - 9 in
  let y := yoe + era * 400 + (if m <=? 2 then 1 else 0) in
  (y, m, d).

(** The last [w] decimal digits of [n]. *)
Fixpoint pad (w : nat) (n : Z) : jsstring :=
  match w with
  | O => []
  | S w' => pad w' (n / 10) ++ [Z.to_N (48 + n mod 10)]
  end.

Definition iso_year (y : Z) : jsstring :=
  if (0 <=? y) && (y <=? 9999) then pad 4 y
  else (if y <? 0 then js "-" else js "+") ++ pad 6 (Z.abs y).

Definition iso_date (t : Z) : jsstring :=
  let '(y, m, d) := civil_from_days (t / msPerDay) in
  iso_year y ++ js "-" ++ pad 2 m ++ js "-" ++ pad 2 d.

(** [Date.prototype.toISOString] of the time value [t] (milliseconds since
    the epoch): always in UTC. *)
Definition toISOString (t : Z) : jsstring :=
  let r := t mod msPerDay in
  iso_date t ++ js "T" ++ pad 2 (r / 3600000) ++ js ":"
    ++ pad 2 (r / 60000 mod 60) ++ js ":" ++ pad 2 (r / 1000 mod 60)
    ++ js "." ++ pad 3 (r mod 1000) ++ js "Z".

(** The calendar date of the instant [t] in ISO form as a zone [offset]
    minutes east of UTC reads it: the local date the specification names. *)
Definition local_iso_date (offset t : Z) : jsstring :=
  iso_date (t + offset * 60000).

End Clock.

(** ** The page and the script *)

Module App.
Import Str.

(** The state of the document the script reads and writes. *)
Record Page := mkPage {
  client : jsstring;               (* #client.value *)
  prestation : jsstring;           (* #prestation.value *)
  datePrest : jsstring;            (* #datePrest.value *)
  montant : jsstring;              (* #montant.value *)
  calcZone_hidden : bool;          (* 'hidden' in #calcZone.classList *)
  calcZone_innerHTML : jsstring;   (* markup last assigned to #calcZone *)
  tbody : list jsstring;           (* markup of the rows of #historyTable, top first *)
  alerts : list jsstring;          (* messages shown by alert(), latest first *)
  prints : nat                     (* calls of window.print() *)
}.

(** The object [compute] returns. *)
Record Calc := mkCalc {
  calc_montant : Num.number;
  aici : Num.number;
  reste : Num.number
}.

Inductive error := TypeError.

Inductive completion := Returned | Threw (err : error).

(** What dispatching a submit event leaves behind. *)
Record Dispatch := mkDispatch {
  completion_of : completion;
  defaultPrevented : bool;
  page_of : Page
}.

Definition classList_add_hidden (pg : Page) : Page :=
  mkPage (client pg) (prestation pg) (datePrest pg) (montant pg)
         true (calcZone_innerHTML pg) (tbody pg) (alerts pg) (prints pg).

Definition classList_remove_hidden (pg : Page) : Page :=
  mkPage (client pg) (prestation pg) (datePrest pg) (montant pg)
         false (calcZone_innerHTML pg) (tbody pg) (alerts pg) (prints pg).

Definition set_calcZone_innerHTML (html : jsstring) (pg : Page) : Page :=
  mkPage (client pg) (prestation pg) (datePrest pg) (montant pg)
         (calcZone_hidden pg) html (tbody pg) (alerts pg) (prints pg).

Definition tbody_prepend (tr : jsstring) (pg : Page) : Page :=
  mkPage (client pg) (prestation pg) (datePrest pg) (montant pg)
         (calcZone_hidden pg) (calcZone_innerHTML pg) (tr :: tbody pg)
         (alerts pg) (prints pg).

Definition tbody_appendChild (tr : jsstring) (pg : Page) : Page :=
  mkPage (client pg) (prestation pg) (datePrest pg) (montant pg)
         (calcZone_hidden pg) (calcZone_innerHTML pg) (tbody pg ++ [tr])
         (alerts pg) (prints pg).

Definition alert (msg : jsstring) (pg : Page) : Page :=
  mkPage (client pg) (prestation pg) (datePrest pg) (montant pg)
         (calcZone_hidden pg) (calcZone_innerHTML pg) (tbody pg)
         (msg :: alerts pg) (prints pg).

Definition window_print (pg : Page) : Page :=
  mkPage (client pg) (prestation pg) (datePrest pg) (montant pg)
         (calcZone_hidden pg) (calcZone_innerHTML pg) (tbody pg)
         (alerts pg) (S (prints pg)).

(** Modelled from the spec: the markup of the page is not among the
    sources; its four form controls carry no default value, so that
    [form.reset()] leaves each of them empty. *)
Definition form_reset (pg : Page) : Page :=
  mkPage [] [] [] []
         (calcZone_hidden pg) (calcZone_innerHTML pg) (tbody pg)
         (alerts pg) (prints pg).

(** [today()]: the first ten code units of the ISO form of the clock
    reading [now]. *)
Definition today (now : Z) : jsstring :=
  slice0 10 (Clock.toISOString now).

Definition td (cell : jsstring) : jsstring :=
  js "<td>" ++ cell ++ js "</td>".

Definition nl (indent : nat) : jsstring := 10%N :: repeat 32%N indent.

Definition msg_incomplete : jsstring :=
  js "Merci de compl" ++ [e_acute] ++ js "ter le formulaire.".

Definition msg_transmis : jsstring :=
  js "Dossier transmis (d" ++ [e_acute] ++ js "mo). Aucun envoi r"
  ++ [e_acute] ++ js "el " ++ [a_grave] ++ js " l" ++ [rsquo]
  ++ js "URSSAF n" ++ [rsquo] ++ js "est effectu" ++ [e_acute] ++ js ".".

Definition label_transmis : jsstring :=
  js "Transmis (d" ++ [e_acute] ++ js "mo)".

Definition label_regle : jsstring :=
  js "R" ++ [e_acute] ++ js "gl" ++ [e_acute] ++ js " (d" ++ [e_acute]
  ++ js "mo)".

(** The demonstration rows. *)
Record SeedRow := mkSeed {
  seed_d : jsstring; seed_c : jsstring; seed_p : jsstring;
  seed_m : Num.number
}.

Definition seed : list SeedRow :=
  [ mkSeed (js "2025-10-12") (js "Mme Dupont") (js "Entretien jardin")
           (Num.of_Z 80);
    mkSeed (js "2025-10-05") (js "M. Martin")
           (js "Bricolage l" ++ [e_acute] ++ js "ger") (Num.of_Z 120) ].

(** The two amounts [compute] derives from a positive [montant]:
    [Math.round(montant*0.5*100)/100] and
    [Math.round((montant - aici)*100)/100]. *)
Definition amounts (montant : Num.number) : Calc :=
  let aici :=
    Num.div (Num.Math_round (Num.mul (Num.mul montant Num.half) Num.hundred))
            Num.hundred in
  let reste :=
    Num.div (Num.Math_round (Num.mul (Num.sub montant aici) Num.hundred))
            Num.hundred in
  mkCalc montant aici reste.

Section Script.

(** [EURO.format]: the French currency formatter of the host. *)
Variable EURO_format : Num.number -> jsstring.

(** [format(n)] is [EURO.format(Number(n||0))]. *)
Definition format (n : Num.number) : jsstring :=
  EURO_format (if Num.truthy n then n else Num.zero).

Definition calcZone_markup (c : Calc) : jsstring :=
  nl 6 ++ js "<div><strong>Total TTC :</strong> " ++ format (calc_montant c)
    ++ js "</div>"
  ++ nl 6 ++ js "<div><strong>Avance imm" ++ [e_acute]
    ++ js "diate (50%) :</strong> " ++ format (aici c) ++ js "</div>"
  ++ nl 6 ++ js "<div><strong>Reste " ++ [a_grave]
    ++ js " charge client :</strong> " ++ format (reste c) ++ js "</div>"
  ++ nl 6 ++ js "<small>Note : calcul d" ++ [e_acute] ++ js "mo simplifi"
    ++ [e_acute] ++ js ", sans plafonds ni cas particuliers.</small>"
  ++ nl 4.

(** [compute()]: [None] stands for the [undefined] of the bare return. *)
Definition compute (pg : Page) : option Calc * Page :=
  let montant := Parse.parseFloat (or_else (montant pg) (js "0")) in
  if Num.isNaN montant || Num.leb montant Num.zero then
    (None, classList_add_hidden pg)
  else
    let c := amounts montant in
    (Some c,
     classList_remove_hidden (set_calcZone_innerHTML (calcZone_markup c) pg)).

(** The click handler of #calcBtn. *)
Definition on_calc (pg : Page) : Page := snd (compute pg).

(** The submit handler of the form; [now] is what the clock reads. *)
Definition on_submit (now : Z) (pg : Page) : Dispatch :=
  let c := trim (client pg) in
  let p := trim (prestation pg) in
  let d := if truthy (datePrest pg) then datePrest pg else today now in
  let m := Parse.parseFloat (or_else (montant pg) (js "0")) in
  if negb (truthy c) || negb (truthy p) || negb (Num.truthy m) then
    mkDispatch Returned true (alert msg_incomplete pg)
  else
    let '(calc, pg1) := compute pg in
    match calc with
    | None => mkDispatch (Threw TypeError) true pg1
    | Some k =>
        let tr := td d ++ td c ++ td p ++ td (format m) ++ td (format (aici k))
                  ++ td label_transmis in
        mkDispatch Returned true
          (alert msg_transmis
             (classList_add_hidden (form_reset (tbody_prepend tr pg1))))
    end.

(** The body of [seed.forEach]. *)
Definition seed_row (x : SeedRow) : jsstring :=
  let aici := Num.mul (seed_m x) Num.half in
  td (seed_d x) ++ td (seed_c x) ++ td (seed_p x) ++ td (format (seed_m x))
  ++ td (format aici) ++ td label_regle.

(** What the script does when it is loaded. *)
Definition load (pg : Page) : Page :=
  fold_left (fun pg x => tbody_appendChild (seed_row x) pg) seed pg.

(** The click handler of #printBtn. *)
Definition on_print (pg : Page) : Page := window_print pg.

(** What happens to the page after the script is loaded. *)
Inductive action :=
| Input (client prestation datePrest montant : jsstring)
| ClickCalc
| Submit (now : Z)
| ClickPrint.

Definition set_fields (c p d m : jsstring) (pg : Page) : Page :=
  mkPage c p d m (calcZone_hidden pg) (calcZone_innerHTML pg) (tbody pg)
         (alerts pg) (prints pg).

Definition step (pg : Page) (a : action) : Page :=
  match a with
  | Input c p d m => set_fields c p d m pg
  | ClickCalc => on_calc pg
  | Submit now => page_of (on_submit now pg)
  | ClickPrint => on_print pg
  end.

Definition run (acts : list action) (pg : Page) : Page :=
  fold_left step acts pg.

End Script.

End App.

(** ** The vocabulary of the specification *)

Module Spec.
Import Str.

(** [round(x, 2dp)] evaluated in the arithmetic of the script, with the
    expression of its lines 16 and 17: [Math.round(x * 100) / 100] on
    Numbers.  This is what a test of the identity of advance, remainder and
    amount computes for its right-hand side.  It is not the rounding of the
    exact value of [x], which is [round_half_up_2dp] below: the product by
    100 is rounded to a Number before [Math.round] sees it. *)
Definition round_2dp_binary64 (x : Num.number) : Num.number :=
  Num.div (Num.Math_round (Num.mul x Num.hundred)) Num.hundred.

(** The tolerance 1e-9 of the tests. *)
Definition tolerance : Num.number :=
  Eval vm_compute in Parse.parseFloat (js "1e-9").

(** [Math.abs(x - y) <= 1e-9] *)
Definition within_tolerance (x y : Num.number) : bool :=
  Num.leb (Num.abs (Num.sub x y)) tolerance.

(** The amount of [n] cents: the Number closest to n/100. *)
Definition cents (n : Z) : Num.number := Num.div (Num.of_Z n) Num.hundred.

(** advance + remainder against the gross amount rounded that way. *)
Definition sum_matches (A : Num.number) : bool :=
  within_tolerance (Num.add (App.aici (App.amounts A)) (App.reste (App.amounts A)))
                   (round_2dp_binary64 A).

(** A predicate holds at [lo], [lo + 1], ..., [lo + k - 1]. *)
Fixpoint all_from (f : Z -> bool) (k : nat) (lo : Z) : bool :=
  match k with
  | O => true
  | S k' => f lo && all_from f k' (lo + 1)
  end.

(** The amount of a text [x] is zero or not a number. *)
Definition zero_or_NaN (x : Num.number) : bool :=
  Num.eqb x Num.zero || Num.isNaN x.

(** A form control that holds something else than white space. *)
Definition filled (s : jsstring) : bool := truthy (trim s).

(** A page whose four controls hold the given texts, with the preview
    hidden and nothing yet in the table. *)
Definition filled_form (c p d m : jsstring) : App.Page :=
  App.mkPage c p d m true [] [] [] 0.

(** The decimal digits of a natural number, most significant first. *)
Fixpoint digits_of (fuel : nat) (n : Z) : jsstring :=
  match fuel with
  | O => []
  | S fuel' =>
      (if n <? 10 then [] else digits_of fuel' (n / 10))
      ++ [Z.to_N (48 + n mod 10)]
  end.

(** Groups of three digits counted from the right, separated by [sep]. *)
Fixpoint group3 (sep : N) (rev_digits : jsstring) : jsstring :=
  match rev_digits with
  | a :: b :: c :: ((_ :: _) as more) => a :: b :: c :: sep :: group3 sep more
  | _ => rev_digits
  end.

(** A formatter in the style of the French currency format (groups of
    three digits, decimal comma, two decimals, the euro sign), to
    instantiate the general statements with. *)
Definition french_format (x : Num.number) : jsstring :=
  let k :=
    match x with
    | S754_finite _ m e =>
        if 0 <=? e then Z.pos m * 2 ^ e * 100
        else (200 * Z.pos m + 2 ^ (- e)) / 2 ^ (- e + 1)
    | _ => 0
    end in
  let whole := k / 100 in
  rev (group3 8239%N (rev (digits_of (S (Z.to_nat (Z.log2 whole))) whole)))
  ++ js "," ++ Clock.pad 2 (k mod 100) ++ [160%N; 8364%N].

(** The first character after a run of digits that ends the literal
    there: anything but a digit, a dot or an exponent mark. *)
Definition ends_literal (rest : jsstring) : bool :=
  match rest with
  | [] => true
  | c :: _ => negb (is_digit c || (c =? 46) || (c =? 101) || (c =? 69))%N
  end.

(** The submissions and the print clicks among a sequence of actions. *)
Definition count_submits (acts : list App.action) : nat :=
  List.length
    (filter (fun a => match a with App.Submit _ => true | _ => false end) acts).

Definition count_prints (acts : list App.action) : nat :=
  List.length
    (filter (fun a => match a with App.ClickPrint => true | _ => false end)
            acts).

(** The markup of the row a submission records for the texts [c], [p],
    [d] and [m] of the four controls at the clock reading [now]. *)
Definition recorded_row (fmt : Num.number -> jsstring) (now : Z)
           (c p d m : jsstring) : jsstring :=
  App.td (if truthy d then d else App.today now)
  ++ App.td (trim c) ++ App.td (trim p)
  ++ App.td (App.format fmt (Parse.parseFloat m))
  ++ App.td (App.format fmt (App.aici (App.amounts (Parse.parseFloat m))))
  ++ App.td App.label_transmis.

(** A number that is +0, positive and finite, or +Infinity. *)
Definition nonneg (x : Num.number) : bool :=
  match x with
  | S754_zero false | S754_finite false _ _ | S754_infinity false => true
  | _ => false
  end.

(** Rounding half up at two decimals, in the specification's words: the
    number of cents closest to the exact amount [q], the upper one on a
    tie. *)
Definition half_up_cents (q : Q) : Z := Qfloor (q * 100 + (1 # 2)).

(** [round(x, 2dp)] by that rule, on the exact value of the Number [x]:
    the Number closest to the cents it gives. *)
Definition round_half_up_2dp (x : Num.number) : option Num.number :=
  match Num.to_Q x with
  | Some q => Some (cents (half_up_cents q))
  | None => None
  end.

(** [y] is [x] rounded to an integer, half up: infinities, zeros and NaN
    are kept; a finite [x] gives the integer [k] with k - 1/2 <= x < k + 1/2,
    and a zero of the sign of [x] when [k] is 0. *)
Definition rounds_half_up (x y : Num.number) : Prop :=
  match x with
  | S754_finite s _ _ =>
      exists (k : Z) (q : Q),
        Num.to_Q x = Some q
        /\ (inject_Z k - (1 # 2) <= q)%Q /\ (q < inject_Z k + (1 # 2))%Q
        /\ y = (if k =? 0 then S754_zero s else Num.of_Z k)
  | _ => y = x
  end.

(** Text that the HTML parser takes as it stands inside a table cell: no
    [<], no [&], no NUL and no CR. *)
Definition plain_char (c : N) : bool :=
  negb ((c =? 60) || (c =? 38) || (c =? 0) || (c =? 13))%N.

Definition plain_text (t : jsstring) : bool := forallb plain_char t.

(** The cells of a row whose markup is a sequence of [<td>text</td>]: the
    texts, in order.  [skip] counts the code units of a tag still to pass,
    [cur] is the text of the cell that is open, latest code unit first.
    Markup of any other shape has no reading here. *)
Fixpoint scan_cells (s : jsstring) (skip : nat) (cur : option jsstring)
  : option (list jsstring) :=
  match s with
  | [] => match cur with None => Some [] | Some _ => None end
  | c :: r =>
      match skip with
      | S k => scan_cells r k cur
      | O =>
          match cur with
          | None =>
              if starts_with (js "<td>") s then scan_cells r 3 (Some [])
              else None
          | Some t =>
              if starts_with (js "</td>") s then
                option_map (cons (rev t)) (scan_cells r 4 None)
              else if plain_char c then scan_cells r 0 (Some (c :: t))
              else None
          end
      end
  end.

Definition cells (markup : jsstring) : option (list jsstring) :=
  scan_cells markup 0 None.

(** The status of a row: the text of its last cell. *)
Definition status (row : jsstring) : option jsstring :=
  option_map (fun cs => last cs []) (cells row).

(** What is left of a text once a leading sign is taken off. *)
Definition after_sign (t : jsstring) : jsstring :=
  match t with
  | c :: r => if ((c =? 45) || (c =? 43))%N then r else t
  | [] => []
  end.

(** A text with a leading numeric prefix: after white space and an
    optional sign comes [Infinity], a digit, or a dot and a digit. *)
Definition has_numeric_prefix (t : jsstring) : bool :=
  let t1 := after_sign (trimStart t) in
  starts_with (js "Infinity") t1
  || match t1 with
     | c :: r =>
         is_digit c
         || ((c =? 46)%N && match r with d :: _ => is_digit d | [] => false end)
     | [] => false
     end.

(** The sign a sign prefix stands for: none, [+] or [-]. *)
Definition sign_of (sg : jsstring) : option bool :=
  match sg with
  | [] => Some false
  | [c] => if (c =? 43)%N then Some false
           else if (c =? 45)%N then Some true else None
  | _ => None
  end.

(** A text that starts with an exponent part: [e] or [E], an optional
    sign, a digit. *)
Definition starts_exponent (rest : jsstring) : bool :=
  match rest with
  | c :: r =>
      ((c =? 101) || (c =? 69))%N
      && match r with
         | d :: r' =>
             is_digit d
             || (((d =? 45) || (d =? 43))%N
                 && match r' with d2 :: _ => is_digit d2 | [] => false end)
         | [] => false
         end
  | [] => false
  end.

(** A text that does not continue a decimal literal that stops in front of
    it: it starts with no digit, with no dot unless the literal has one
    ([dot]), and with no exponent part. *)
Definition ends_number (dot : bool) (rest : jsstring) : bool :=
  match rest with
  | [] => true
  | c :: _ => negb (is_digit c) && (dot || negb (c =? 46)%N)
              && negb (starts_exponent rest)
  end.

End Spec.

(** ** The vocabulary of the rounding proofs *)

Module Rounding.

(** The round and sticky bits [rb], [sb] say where the remainder [rem] of a
    division by [U] lies: at 0, below the half of [U], at the half, above
    it. *)
Definition loc_ok (rb sb : bool) (rem U : Z) : Prop :=
  match rb, sb with
  | false, false => rem = 0
  | false, true => 0 < 2 * rem < U
  | true, false => 2 * rem = U
  | true, true => U < 2 * rem
  end.

(** The shift record [r] stands for the quotient [Nn / U]: its mantissa is
    the integer part, its two bits locate the remainder. *)
Definition Inv (Nn U : Z) (r : shr_record) : Prop :=
  0 <= shr_m r
  /\ 0 <= Nn - U * shr_m r < U
  /\ loc_ok (shr_r r) (shr_s r) (Nn - U * shr_m r) U.

(** The value [m * 2^e] scaled by 2^400, an integer for every exponent the
    amounts of the script reach. *)
Definition Sc (m : positive) (e : Z) : Z := Z.pos m * 2 ^ (e + 400).

(** A mantissa of exactly 53 bits. *)
Definition full (m : positive) : Prop := 2 ^ 52 <= Z.pos m < 2 ^ 53.

End Rounding.

(** ** Tactics *)

(** Replace the power [2 ^ k] by its numeral. *)
Ltac pow_num k :=
  let v := eval vm_compute in (2 ^ k) in
  change (2 ^ k) with v in *.

(** Find the advance of [n] cents among the two halves of [n]. *)
Ltac try_half n :=
  let c := eval vm_compute in (n / 2) in
  let c' := eval vm_compute in (n / 2 + 1) in
  first [ exists c; split; [lia |]; vm_compute; repeat split; fail
        | exists c'; split; [lia |]; vm_compute; repeat split; fail ].

(** * Properties *)

Import Str.

(** ** Numbers *)

(** [Math.round] rounds half up: the integer it picks for a finite [x] lies
    within one half of [x], the upper bound excluded. *)
Lemma round_half_up_bounds (s : bool) (m : positive) (e : Z) :
  exists q, Num.to_Q (S754_finite s m e) = Some q /\
    (inject_Z (Num.round_half_up s m e) - (1 # 2) <= q)%Q /\
    (q < inject_Z (Num.round_half_up s m e) + (1 # 2))%Q.
Proof.
  unfold Num.to_Q, Num.round_half_up.
  destruct (Z.leb_spec 0 e) as [He | He]; eexists; (split; [reflexivity |]).
  - unfold Qle, Qlt, Qminus, Qplus, Qopp, inject_Z; simpl; split; lia.
  - set (sm := Num.signed s m).
    assert (HD : 0 < 2 ^ (- e)) by (apply Z.pow_pos_nonneg; lia).
    rewrite (Z.pow_add_r 2 (- e) 1) by lia. change (2 ^ 1) with 2.
    set (D := 2 ^ (- e)) in *.
    assert (Hdiv := Z.div_mod (2 * sm + D) (D * 2) ltac:(lia)).
    assert (Hmod := Z.mod_pos_bound (2 * sm + D) (D * 2) ltac:(lia)).
    set (n := (2 * sm + D) / (D * 2)) in *.
    unfold Qle, Qlt, Qminus, Qplus, Qopp, inject_Z; simpl.
    rewrite Z2Pos.id by exact HD.
    split; nia.
Qed.

(** [Math.round] on halves, on a negative fraction and just below one
    half. *)
Example Math_round_samples :
  Num.Math_round (Parse.parseFloat (js "2.5")) = Num.of_Z 3
  /\ Num.Math_round (Parse.parseFloat (js "-2.5")) = Num.of_Z (-2)
  /\ Num.Math_round (Parse.parseFloat (js "-0.2")) = S754_zero true
  /\ Num.Math_round (Parse.parseFloat (js "0.49999999999999994")) = Num.zero.
Proof. vm_compute. repeat split. Qed.

(** ** Reading the amount *)

(** 0.1 and 99.99 as binary64 values, an overflow and an underflow. *)
Example parseFloat_samples :
  Parse.parseFloat (js "0.1") = S754_finite false 7205759403792794 (-56)
  /\ Parse.parseFloat (js "99.99") = S754_finite false 7036170730324623 (-46)
  /\ Parse.parseFloat (js "1e309") = Num.Infinity
  /\ Parse.parseFloat (js "-1e-400") = S754_zero true
  /\ Parse.parseFloat (js "  .5e1x") = Num.of_Z 5
  /\ Parse.parseFloat (js ".") = Num.NaN.
Proof. vm_compute. repeat split. Qed.

Example trim_sample :
  trim (js "  Mme Dupont " ++ [160%N]) = js "Mme Dupont".
Proof. reflexivity. Qed.

Lemma parseFloat_empty : Parse.parseFloat [] = Num.NaN.
Proof. reflexivity. Qed.

Lemma parseFloat_default_zero : Parse.parseFloat (js "0") = Num.zero.
Proof. reflexivity. Qed.

(** A positive number is neither NaN nor at most zero, and is truthy. *)
Lemma positive_passes (x : Num.number) :
  Num.ltb Num.zero x = true ->
  Num.isNaN x || Num.leb x Num.zero = false /\ Num.truthy x = true.
Proof.
  destruct x as [s | s | | s m e]; try destruct s; cbn; try discriminate;
    intros _; split; reflexivity.
Qed.

(** A negative number is truthy, and at most zero. *)
Lemma negative_truthy (x : Num.number) :
  Num.ltb x Num.zero = true ->
  Num.truthy x = true /\ Num.leb x Num.zero = true.
Proof.
  destruct x as [s | s | | s m e]; try destruct s; cbn; try discriminate;
    intros _; split; reflexivity.
Qed.

(** Zero and NaN are the falsy numbers. *)
Lemma zero_or_NaN_falsy (x : Num.number) :
  Spec.zero_or_NaN x = negb (Num.truthy x).
Proof. destruct x as [s | s | | s m e]; try destruct s; reflexivity. Qed.

(** The text read with the default ['0'] for an empty control. *)
Lemma amount_read (t : jsstring) :
  Parse.parseFloat (or_else t (js "0")) =
  match t with [] => Num.zero | _ => Parse.parseFloat t end.
Proof. destruct t; reflexivity. Qed.

Lemma amount_read_positive (t : jsstring) :
  Num.ltb Num.zero (Parse.parseFloat t) = true ->
  Parse.parseFloat (or_else t (js "0")) = Parse.parseFloat t.
Proof. destruct t; [discriminate | reflexivity]. Qed.

Lemma amount_read_negative (t : jsstring) :
  Num.ltb (Parse.parseFloat t) Num.zero = true ->
  Parse.parseFloat (or_else t (js "0")) = Parse.parseFloat t.
Proof. destruct t; [discriminate | reflexivity]. Qed.

Lemma all_from_sound (f : Z -> bool) (k : nat) :
  forall lo, Spec.all_from f k lo = true ->
  forall n, lo <= n < lo + Z.of_nat k -> f n = true.
Proof.
  induction k as [| k IH]; intros lo H n Hn.
  - simpl in Hn. lia.
  - simpl in H. apply andb_prop in H. destruct H as [H0 H1].
    destruct (Z.eq_dec n lo) as [-> | Hne]; [exact H0 |].
    apply (IH (lo + 1) H1). lia.
Qed.

(** ** The handlers *)

Section Handlers.

Variable EURO_format : Num.number -> jsstring.


Lemma compute_shown (pg : App.Page) :
  Num.ltb Num.zero (Parse.parseFloat (App.montant pg)) = true ->
  App.compute EURO_format pg =
    (Some (App.amounts (Parse.parseFloat (App.montant pg))),
     App.classList_remove_hidden
       (App.set_calcZone_innerHTML
          (App.calcZone_markup EURO_format (App.amounts (Parse.parseFloat (App.montant pg))))
          pg)).
Proof.
  intros H. unfold App.compute.
  rewrite (amount_read_positive _ H).
  destruct (positive_passes _ H) as [-> _]. reflexivity.
Qed.

Lemma compute_hidden (pg : App.Page) :
  Num.isNaN (Parse.parseFloat (App.montant pg)) = true \/
  Num.leb (Parse.parseFloat (App.montant pg)) Num.zero = true ->
  App.compute EURO_format pg = (None, App.classList_add_hidden pg).
Proof.
  intros H. unfold App.compute. rewrite amount_read.
  destruct (App.montant pg) as [| c r] eqn:Em; [reflexivity |].
  destruct H as [-> | ->]; [reflexivity | rewrite orb_true_r; reflexivity].
Qed.

(** C5: when the amount text does not parse, or parses to a value at most
    0, the preview is hidden, [compute] returns nothing, and no notification
    is shown. *)
Theorem compute_invalid_amount_hides (pg : App.Page) :
  Num.isNaN (Parse.parseFloat (App.montant pg)) = true \/
  Num.leb (Parse.parseFloat (App.montant pg)) Num.zero = true ->
  App.compute EURO_format pg = (None, App.classList_add_hidden pg)
  /\ App.calcZone_hidden (App.on_calc EURO_format pg) = true
  /\ App.alerts (App.on_calc EURO_format pg) = App.alerts pg
  /\ App.tbody (App.on_calc EURO_format pg) = App.tbody pg.
Proof.
  intros H. unfold App.on_calc. rewrite (compute_hidden pg H).
  repeat split.
Qed.

(** C4: a submission whose client name or service description is blank, or
    whose amount parses to 0 or NaN, only raises the notification asking to
    complete the form: no row is added and the controls keep their text. *)
Theorem submit_incomplete_rejected (now : Z) (pg : App.Page) :
  Spec.filled (App.client pg) = false \/
  Spec.filled (App.prestation pg) = false \/
  Spec.zero_or_NaN (Parse.parseFloat (App.montant pg)) = true ->
  App.on_submit EURO_format now pg
    = App.mkDispatch App.Returned true (App.alert App.msg_incomplete pg)
  /\ App.tbody (App.page_of (App.on_submit EURO_format now pg)) = App.tbody pg
  /\ App.client (App.page_of (App.on_submit EURO_format now pg)) = App.client pg
  /\ App.prestation (App.page_of (App.on_submit EURO_format now pg)) = App.prestation pg
  /\ App.datePrest (App.page_of (App.on_submit EURO_format now pg)) = App.datePrest pg
  /\ App.montant (App.page_of (App.on_submit EURO_format now pg)) = App.montant pg.
Proof.
  intros H.
  assert (E : App.on_submit EURO_format now pg
    = App.mkDispatch App.Returned true (App.alert App.msg_incomplete pg)).
  { unfold App.on_submit, Spec.filled in *.
    destruct H as [-> | [-> | H]]; [reflexivity | |].
    - rewrite orb_true_r. reflexivity.
    - rewrite amount_read.
      destruct (App.montant pg) as [| c r] eqn:Em.
      + rewrite !orb_true_r. reflexivity.
      + rewrite zero_or_NaN_falsy in H. rewrite H, !orb_true_r. reflexivity. }
  rewrite E. repeat split.
Qed.

(** With a client and a service filled in, a negative amount gets past the
    check and makes the handler throw. *)
Lemma submit_negative_outcome (now : Z) (pg : App.Page) :
  Spec.filled (App.client pg) = true ->
  Spec.filled (App.prestation pg) = true ->
  Num.ltb (Parse.parseFloat (App.montant pg)) Num.zero = true ->
  App.on_submit EURO_format now pg
  = App.mkDispatch (App.Threw App.TypeError) true (App.classList_add_hidden pg).
Proof.
  intros Hc Hp Hm. unfold Spec.filled in *.
  destruct (negative_truthy _ Hm) as [Ht Hle].
  unfold App.on_submit. rewrite (amount_read_negative _ Hm), Hc, Hp, Ht.
  cbn [negb orb]. rewrite (compute_hidden pg (or_intror Hle)). reflexivity.
Qed.

(** C6: the check of the submit handler does not look at the sign: with a
    client and a service filled in, an amount text that parses to a negative
    number passes it, and no notification asking to complete the form is
    shown. *)
Theorem submit_negative_passes_check (now : Z) (pg : App.Page) :
  Spec.filled (App.client pg) = true ->
  Spec.filled (App.prestation pg) = true ->
  Num.ltb (Parse.parseFloat (App.montant pg)) Num.zero = true ->
  negb (truthy (trim (App.client pg)))
    || negb (truthy (trim (App.prestation pg)))
    || negb (Num.truthy (Parse.parseFloat (or_else (App.montant pg) (js "0"))))
    = false
  /\ App.on_submit EURO_format now pg
      <> App.mkDispatch App.Returned true (App.alert App.msg_incomplete pg)
  /\ App.alerts (App.page_of (App.on_submit EURO_format now pg)) = App.alerts pg.
Proof.
  intros Hc Hp Hm.
  rewrite (submit_negative_outcome now pg Hc Hp Hm).
  unfold Spec.filled in *.
  destruct (negative_truthy _ Hm) as [Ht _].
  rewrite (amount_read_negative _ Hm), Hc, Hp, Ht.
  repeat split. discriminate.
Qed.

End Handlers.

(** ** The date of [today()] *)

Lemma pad_length (w : nat) : forall n, List.length (Clock.pad w n) = w.
Proof.
  induction w as [| w IH]; intros n; simpl; [reflexivity |].
  rewrite length_app, IH. simpl. lia.
Qed.

Lemma iso_date_length (t : Z) :
  0 <= fst (fst (Clock.civil_from_days (t / Clock.msPerDay))) <= 9999 ->
  List.length (Clock.iso_date t) = 10%nat.
Proof.
  unfold Clock.iso_date.
  destruct (Clock.civil_from_days (t / Clock.msPerDay)) as [[y m] d].
  simpl fst. intros Hy. unfold Clock.iso_year.
  replace ((0 <=? y) && (y <=? 9999)) with true
    by (symmetry; apply andb_true_intro; split; apply Z.leb_le; lia).
  rewrite !length_app, !pad_length. reflexivity.
Qed.

(** For the years 0000 to 9999, [today()] is the date of the clock reading
    in UTC. *)
Lemma today_is_utc_date (now : Z) :
  0 <= fst (fst (Clock.civil_from_days (now / Clock.msPerDay))) <= 9999 ->
  App.today now = Clock.iso_date now.
Proof.
  intros Hy. unfold App.today, slice0, Clock.toISOString.
  rewrite firstn_app, (iso_date_length now Hy), Nat.sub_diag.
  rewrite firstn_O, app_nil_r.
  apply firstn_all2. rewrite (iso_date_length now Hy). lia.
Qed.

Lemma local_offset_zero (t : Z) : Clock.local_iso_date 0 t = Clock.iso_date t.
Proof. unfold Clock.local_iso_date. rewrite Z.mul_0_l, Z.add_0_r. reflexivity. Qed.

(** ** Submissions and the history table *)

Section Ledger.

Variable EURO_format : Num.number -> jsstring.

Lemma compute_keeps_tbody (pg : App.Page) :
  App.tbody (snd (App.compute EURO_format pg)) = App.tbody pg.
Proof.
  unfold App.compute.
  destruct (Num.isNaN _ || Num.leb _ _); reflexivity.
Qed.

(** What a submission that passes the check and gets a result does. *)
Lemma submit_accepted (now : Z) (pg : App.Page) :
  Spec.filled (App.client pg) = true ->
  Spec.filled (App.prestation pg) = true ->
  Num.ltb Num.zero (Parse.parseFloat (App.montant pg)) = true ->
  let A := Parse.parseFloat (App.montant pg) in
  let d := if truthy (App.datePrest pg) then App.datePrest pg
           else App.today now in
  App.on_submit EURO_format now pg =
    App.mkDispatch App.Returned true
      (App.mkPage [] [] [] [] true
         (App.calcZone_markup EURO_format (App.amounts A))
         ((App.td d ++ App.td (trim (App.client pg))
             ++ App.td (trim (App.prestation pg))
             ++ App.td (App.format EURO_format A)
             ++ App.td (App.format EURO_format (App.aici (App.amounts A)))
             ++ App.td App.label_transmis) :: App.tbody pg)
         (App.msg_transmis :: App.alerts pg) (App.prints pg)).
Proof.
  intros Hc Hp Hm A d. unfold Spec.filled in *.
  destruct (positive_passes _ Hm) as [_ Ht].
  unfold App.on_submit.
  rewrite (amount_read_positive _ Hm), Hc, Hp, Ht, (compute_shown _ pg Hm).
  reflexivity.
Qed.

(** C7, as the script has it: when the date control is empty, the date of
    the new row is the first ten characters of the ISO form of the clock
    reading, which for the years 0000 to 9999 is the current date in UTC
    (the local date of a zone at offset 0). *)
Theorem submit_default_date_utc (now : Z) (pg : App.Page) :
  Spec.filled (App.client pg) = true ->
  Spec.filled (App.prestation pg) = true ->
  Num.ltb Num.zero (Parse.parseFloat (App.montant pg)) = true ->
  App.datePrest pg = [] ->
  0 <= fst (fst (Clock.civil_from_days (now / Clock.msPerDay))) <= 9999 ->
  let A := Parse.parseFloat (App.montant pg) in
  App.tbody (App.page_of (App.on_submit EURO_format now pg))
    = (App.td (Clock.local_iso_date 0 now) ++ App.td (trim (App.client pg))
         ++ App.td (trim (App.prestation pg))
         ++ App.td (App.format EURO_format A)
         ++ App.td (App.format EURO_format (App.aici (App.amounts A)))
         ++ App.td App.label_transmis) :: App.tbody pg
  /\ Clock.local_iso_date 0 now = slice0 10 (Clock.toISOString now).
Proof.
  intros Hc Hp Hm Hd Hy A.
  rewrite (submit_accepted now pg Hc Hp Hm), Hd, local_offset_zero.
  cbn [truthy App.page_of App.tbody].
  rewrite <- (today_is_utc_date now Hy). split; reflexivity.
Qed.

(** C2, at the failing input: with a client and a service filled in and the
    amount text "-5", the submit handler does not return: reading [aici]
    from the [undefined] that [compute] returned throws a TypeError. *)
Theorem submit_negative_amount_throws (now : Z) :
  App.on_submit EURO_format now
    (Spec.filled_form (js "Mme Dupont") (js "Jardinage") (js "2025-10-12")
                      (js "-5"))
  = App.mkDispatch (App.Threw App.TypeError) true
      (Spec.filled_form (js "Mme Dupont") (js "Jardinage") (js "2025-10-12")
                        (js "-5")).
Proof. vm_compute. reflexivity. Qed.

Lemma step_grows_tbody (a : App.action) (pg : App.Page) :
  exists newer,
    App.tbody (App.step EURO_format pg a) = newer ++ App.tbody pg.
Proof.
  destruct a as [c p d m | | now |]; simpl.
  - exists []. reflexivity.
  - exists []. unfold App.on_calc. rewrite compute_keeps_tbody. reflexivity.
  - unfold App.on_submit.
    destruct (negb _ || negb _ || negb _); [exists []; reflexivity |].
    assert (Hk := compute_keeps_tbody pg).
    destruct (App.compute EURO_format pg) as [[k |] pg1]; simpl in *.
    + eexists [_]. rewrite Hk. reflexivity.
    + exists []. exact Hk.
  - exists []. reflexivity.
Qed.

Lemma run_grows_tbody (acts : list App.action) :
  forall pg, exists newer,
    App.tbody (App.run EURO_format acts pg) = newer ++ App.tbody pg.
Proof.
  unfold App.run. induction acts as [| a acts IH]; intros pg; simpl.
  - exists []. reflexivity.
  - destruct (IH (App.step EURO_format pg a)) as [n1 H1].
    destruct (step_grows_tbody a pg) as [n2 H2].
    exists (n1 ++ n2). rewrite H1, H2, app_assoc. reflexivity.
Qed.

End Ledger.

(** ** Texts that start with digits *)

Lemma digit_cases (c : N) :
  is_digit c = true ->
  In c [48; 49; 50; 51; 52; 53; 54; 55; 56; 57]%N.
Proof.
  unfold is_digit. intros H. apply andb_prop in H. destruct H as [H1 H2].
  apply N.leb_le in H1. apply N.leb_le in H2. simpl.
  assert (c = 48 \/ c = 49 \/ c = 50 \/ c = 51 \/ c = 52 \/ c = 53 \/ c = 54
          \/ c = 55 \/ c = 56 \/ c = 57)%N as Hc by lia.
  intuition auto.
Qed.

(** A digit is no white space, no sign and not the first letter of
    [Infinity]. *)
Lemma digit_is_plain (c : N) :
  is_digit c = true ->
  is_whitespace c = false /\ (c =? 45)%N = false /\ (c =? 43)%N = false
  /\ (73 =? c)%N = false.
Proof.
  intros H. apply digit_cases in H. simpl in H.
  repeat (destruct H as [<- | H]; [repeat split |]); contradiction.
Qed.

Lemma span_digits_app (ds rest : jsstring) :
  forallb is_digit ds = true ->
  match rest with [] => true | c :: _ => negb (is_digit c) end = true ->
  span_digits (ds ++ rest) = (ds, rest).
Proof.
  intros Hds Hrest. induction ds as [| c ds IH]; simpl.
  - destruct rest as [| c r]; [reflexivity |].
    simpl. apply negb_true_iff in Hrest. rewrite Hrest. reflexivity.
  - simpl in Hds. apply andb_prop in Hds. destruct Hds as [Hc Hds].
    rewrite Hc, (IH Hds). reflexivity.
Qed.

(** [parseFloat] reads a leading run of digits and ignores what follows
    it, as long as that does not continue the number. *)
Lemma parseFloat_digits_prefix (ds rest : jsstring) :
  ds <> [] ->
  forallb is_digit ds = true ->
  Spec.ends_literal rest = true ->
  Parse.parseFloat (ds ++ rest)
    = Parse.decimal_value false (digits_value ds) 0.
Proof.
  intros Hne Hds Hrest.
  destruct ds as [| c ds]; [contradiction |].
  assert (Hc : is_digit c = true)
    by (simpl in Hds; apply andb_prop in Hds; tauto).
  destruct (digit_is_plain c Hc) as (Hws & Hminus & Hplus & HI).
  assert (Hspan : span_digits ((c :: ds) ++ rest) = (c :: ds, rest)).
  { apply span_digits_app; [exact Hds |].
    destruct rest as [| r rs]; [reflexivity |].
    unfold Spec.ends_literal in Hrest. apply negb_true_iff in Hrest.
    apply orb_false_elim in Hrest. destruct Hrest as [Hrest _].
    apply orb_false_elim in Hrest. destruct Hrest as [Hrest _].
    apply orb_false_elim in Hrest. destruct Hrest as [Hrest _].
    rewrite Hrest. reflexivity. }
  unfold Parse.parseFloat.
  change (trimStart ((c :: ds) ++ rest))
    with (if is_whitespace c then trimStart (ds ++ rest) else c :: ds ++ rest).
  rewrite Hws, Hminus, Hplus.
  change (starts_with (js "Infinity") (c :: ds ++ rest))
    with ((73 =? c)%N && starts_with (js "nfinity") (ds ++ rest)).
  rewrite HI. cbn [andb].
  change (c :: ds ++ rest) with ((c :: ds) ++ rest). rewrite Hspan.
  destruct rest as [| r rs].
  - rewrite app_nil_r. reflexivity.
  - unfold Spec.ends_literal in Hrest. apply negb_true_iff in Hrest.
    apply orb_false_elim in Hrest. destruct Hrest as [Hrest H69].
    apply orb_false_elim in Hrest. destruct Hrest as [Hrest H101].
    apply orb_false_elim in Hrest. destruct Hrest as [_ H46].
    rewrite H46. unfold Parse.exponent_part. rewrite H101, H69.
    rewrite app_nil_r. reflexivity.
Qed.

(** ** Advance plus remainder *)

(** The five amounts the specification lists are whole numbers of cents. *)
Lemma listed_amounts_in_cents :
  Parse.parseFloat (js "80") = Spec.cents 8000
  /\ Parse.parseFloat (js "120") = Spec.cents 12000
  /\ Parse.parseFloat (js "0.01") = Spec.cents 1
  /\ Parse.parseFloat (js "99.99") = Spec.cents 9999
  /\ Parse.parseFloat (js "1000000") = Spec.cents 100000000.
Proof. vm_compute. repeat split. Defined.

(** C1 fails for the amount 0.015: the advance is 0.01 and the remainder is
    0, while the amount rounded to two decimals is 0.02, one cent more than
    their sum. *)
Lemma advance_plus_remainder_off_by_a_cent :
  Num.ltb Num.zero (Parse.parseFloat (js "0.015")) = true
  /\ App.aici (App.amounts (Parse.parseFloat (js "0.015"))) = Spec.cents 1
  /\ App.reste (App.amounts (Parse.parseFloat (js "0.015"))) = Num.zero
  /\ Spec.round_2dp_binary64 (Parse.parseFloat (js "0.015")) = Spec.cents 2
  /\ Spec.sum_matches (Parse.parseFloat (js "0.015")) = false
  /\ ~ (forall A, Num.ltb Num.zero A = true -> Spec.sum_matches A = true).
Proof.
  assert (Hpos : Num.ltb Num.zero (Parse.parseFloat (js "0.015")) = true)
    by (vm_compute; reflexivity).
  assert (Hsum : Spec.sum_matches (Parse.parseFloat (js "0.015")) = false)
    by (vm_compute; reflexivity).
  split; [exact Hpos |]. split; [vm_compute; reflexivity |].
  split; [vm_compute; reflexivity |]. split; [vm_compute; reflexivity |].
  split; [exact Hsum |].
  intros H. rewrite (H _ Hpos) in Hsum. discriminate.
Qed.

(** ** The statements at concrete pages *)

Lemma compute_invalid_amount_hides_witness :
  (fst (App.compute Spec.french_format
          (App.mkPage [] [] [] (js "0") false [] [] [] 0)) = None
   /\ App.calcZone_hidden
        (App.on_calc Spec.french_format
           (App.mkPage [] [] [] (js "0") false [] [] [] 0)) = true)
  /\ (fst (App.compute Spec.french_format
             (App.mkPage [] [] [] (js "-5") false [] [] [] 0)) = None
      /\ App.calcZone_hidden
           (App.on_calc Spec.french_format
              (App.mkPage [] [] [] (js "-5") false [] [] [] 0)) = true)
  /\ (fst (App.compute Spec.french_format
             (App.mkPage [] [] [] (js "abc") false [] [] [] 0)) = None
      /\ App.calcZone_hidden
           (App.on_calc Spec.french_format
              (App.mkPage [] [] [] (js "abc") false [] [] [] 0)) = true).
Proof.
  split; [| split].
  - destruct (compute_invalid_amount_hides Spec.french_format
                (App.mkPage [] [] [] (js "0") false [] [] [] 0))
      as (E & Hh & _).
    + right. vm_compute. reflexivity.
    + rewrite E. split; [reflexivity | exact Hh].
  - destruct (compute_invalid_amount_hides Spec.french_format
                (App.mkPage [] [] [] (js "-5") false [] [] [] 0))
      as (E & Hh & _).
    + right. vm_compute. reflexivity.
    + rewrite E. split; [reflexivity | exact Hh].
  - destruct (compute_invalid_amount_hides Spec.french_format
                (App.mkPage [] [] [] (js "abc") false [] [] [] 0))
      as (E & Hh & _).
    + left. vm_compute. reflexivity.
    + rewrite E. split; [reflexivity | exact Hh].
Defined.

Lemma submit_incomplete_rejected_witness :
  App.on_submit Spec.french_format 1760308200000
    (Spec.filled_form (js "  ") (js "Jardinage") (js "2025-10-12") (js "80"))
  = App.mkDispatch App.Returned true
      (App.alert App.msg_incomplete
         (Spec.filled_form (js "  ") (js "Jardinage") (js "2025-10-12")
                           (js "80")))
  /\ App.on_submit Spec.french_format 1760308200000
       (Spec.filled_form (js "Mme Dupont") (js "Jardinage") (js "2025-10-12")
                         (js "0"))
     = App.mkDispatch App.Returned true
         (App.alert App.msg_incomplete
            (Spec.filled_form (js "Mme Dupont") (js "Jardinage")
                              (js "2025-10-12") (js "0"))).
Proof.
  split.
  - apply (submit_incomplete_rejected Spec.french_format 1760308200000
             (Spec.filled_form (js "  ") (js "Jardinage") (js "2025-10-12")
                               (js "80"))).
    left. vm_compute. reflexivity.
  - apply (submit_incomplete_rejected Spec.french_format 1760308200000
             (Spec.filled_form (js "Mme Dupont") (js "Jardinage")
                               (js "2025-10-12") (js "0"))).
    right. right. vm_compute. reflexivity.
Defined.

Lemma submit_negative_passes_check_witness :
  App.alerts
    (App.page_of
       (App.on_submit Spec.french_format 1760308200000
          (Spec.filled_form (js "Mme Dupont") (js "Jardinage")
                            (js "2025-10-12") (js "-5"))))
  = [].
Proof.
  apply (submit_negative_passes_check Spec.french_format 1760308200000
           (Spec.filled_form (js "Mme Dupont") (js "Jardinage")
                             (js "2025-10-12") (js "-5")));
    vm_compute; reflexivity.
Defined.

Lemma submit_default_date_utc_witness :
  App.tbody
    (App.page_of
       (App.on_submit Spec.french_format 1760308200000
          (Spec.filled_form (js "Mme Dupont") (js "Jardinage") []
                            (js "80"))))
  = [ App.td (js "2025-10-12") ++ App.td (js "Mme Dupont")
      ++ App.td (js "Jardinage")
      ++ App.td (js "80,00" ++ [160; 8364]%N)
      ++ App.td (js "40,00" ++ [160; 8364]%N)
      ++ App.td App.label_transmis ].
Proof.
  destruct (submit_default_date_utc Spec.french_format 1760308200000
              (Spec.filled_form (js "Mme Dupont") (js "Jardinage") []
                                (js "80"))
              ltac:(vm_compute; reflexivity) ltac:(vm_compute; reflexivity)
              ltac:(vm_compute; reflexivity) ltac:(reflexivity)
              ltac:(vm_compute; split; discriminate))
    as (E & _).
  rewrite E. vm_compute. reflexivity.
Defined.

(** C7 fails at 2025-10-12 22:30 UTC read in a zone two hours east of UTC:
    the local date is 2025-10-13, the row is dated 2025-10-12. *)
Lemma submit_default_date_not_local :
  App.datePrest (Spec.filled_form (js "Mme Dupont") (js "Jardinage") []
                                  (js "80")) = []
  /\ Clock.toISOString 1760308200000 = js "2025-10-12T22:30:00.000Z"
  /\ Clock.local_iso_date 120 1760308200000 = js "2025-10-13"
  /\ App.tbody
       (App.page_of
          (App.on_submit Spec.french_format 1760308200000
             (Spec.filled_form (js "Mme Dupont") (js "Jardinage") []
                               (js "80"))))
     = [ App.td (js "2025-10-12") ++ App.td (js "Mme Dupont")
         ++ App.td (js "Jardinage")
         ++ App.td (js "80,00" ++ [160; 8364]%N)
         ++ App.td (js "40,00" ++ [160; 8364]%N)
         ++ App.td App.label_transmis ]
  /\ App.tbody
       (App.page_of
          (App.on_submit Spec.french_format 1760308200000
             (Spec.filled_form (js "Mme Dupont") (js "Jardinage") []
                               (js "80"))))
     <> [ App.td (Clock.local_iso_date 120 1760308200000)
          ++ App.td (js "Mme Dupont") ++ App.td (js "Jardinage")
          ++ App.td (js "80,00" ++ [160; 8364]%N)
          ++ App.td (js "40,00" ++ [160; 8364]%N)
          ++ App.td App.label_transmis ].
Proof.
  split; [reflexivity |]. split; [vm_compute; reflexivity |].
  split; [vm_compute; reflexivity |]. split; [vm_compute; reflexivity |].
  vm_compute. discriminate.
Defined.

(** * Further properties of the script *)

(** ** The sign of the advance *)

Lemma iter_pos_invariant {A : Type} (P : A -> Prop) (f : A -> A) :
  (forall x, P x -> P (f x)) ->
  forall p x, P x -> P (iter_pos f p x).
Proof.
  intros Hf. induction p as [p IH | p IH |]; intros x Hx; simpl; auto.
Qed.

Lemma shr_1_nonneg (r : shr_record) : 0 <= shr_m r -> 0 <= shr_m (shr_1 r).
Proof.
  destruct r as [m rb sb]. simpl.
  destruct m as [| [p | p |] | p]; simpl; intros H; lia.
Qed.

Lemma shr_fexp_nonneg (m e : Z) (l : location) :
  0 <= m -> 0 <= shr_m (fst (shr_fexp Num.prec Num.emax m e l)).
Proof.
  intros Hm. unfold shr_fexp, shr.
  assert (H0 : 0 <= shr_m (shr_record_of_loc m l))
    by (destruct l as [| []]; exact Hm).
  destruct (fexp Num.prec Num.emax (Zdigits2 m + e) - e) as [| p | p];
    simpl; try exact H0.
  apply (iter_pos_invariant (fun r => 0 <= shr_m r) shr_1 shr_1_nonneg).
  exact H0.
Qed.

Lemma round_nearest_even_nonneg (m : Z) (l : location) :
  0 <= m -> 0 <= round_nearest_even m l.
Proof.
  intros Hm. unfold round_nearest_even.
  destruct l as [| []]; try destruct (Z.even m); lia.
Qed.

(** Rounding a non-negative mantissa under a positive sign gives +0, a
    positive number or +Infinity. *)
Lemma binary_round_aux_nonneg (m e : Z) (l : location) :
  0 <= m ->
  Spec.nonneg (binary_round_aux Num.prec Num.emax false m e l) = true.
Proof.
  intros Hm. unfold binary_round_aux.
  assert (H1 := shr_fexp_nonneg m e l Hm).
  destruct (shr_fexp Num.prec Num.emax m e l) as [r1 e1]. simpl in H1.
  assert (H2 := shr_fexp_nonneg
                  (round_nearest_even (shr_m r1) (loc_of_shr_record r1)) e1
                  loc_Exact (round_nearest_even_nonneg _ _ H1)).
  destruct (shr_fexp Num.prec Num.emax _ e1 loc_Exact) as [r2 e2].
  simpl in H2.
  destruct (shr_m r2) as [| p | p]; [reflexivity | | lia].
  destruct (e2 <=? Num.emax - Num.prec); reflexivity.
Qed.

Lemma mul_nonneg (x : Num.number) (m : positive) (e : Z) :
  Spec.nonneg x = true ->
  Spec.nonneg (Num.mul x (S754_finite false m e)) = true.
Proof.
  destruct x as [[] | [] | | [] mx ex]; try discriminate; intros _;
    try reflexivity.
  apply binary_round_aux_nonneg. lia.
Qed.

Lemma div_nonneg (x : Num.number) (m : positive) (e : Z) :
  Spec.nonneg x = true ->
  Spec.nonneg (Num.div x (S754_finite false m e)) = true.
Proof.
  destruct x as [[] | [] | | [] mx ex]; try discriminate; intros _;
    try reflexivity.
  unfold Num.div, SFdiv, SFdiv_core_binary.
  set (a := match _ - _ - _ with Z0 => Z.pos mx | Z.pos _ => _ | Z.neg _ => 0 end).
  assert (Ha : 0 <= a).
  { subst a. destruct (_ - _ - _) as [| p | p]; try lia.
    apply Z.shiftl_nonneg. lia. }
  assert (Hq : 0 <= fst (Z.div_eucl a (Z.pos m))).
  { change (fst (Z.div_eucl a (Z.pos m))) with (a / Z.pos m).
    apply Z.div_pos; lia. }
  destruct (Z.div_eucl a (Z.pos m)) as [q r]. simpl in Hq.
  apply binary_round_aux_nonneg. exact Hq.
Qed.

Lemma round_half_up_nonneg (m : positive) (e : Z) :
  0 <= Num.round_half_up false m e.
Proof.
  unfold Num.round_half_up, Num.signed.
  destruct (0 <=? e) eqn:He.
  - apply Z.leb_le in He. apply Z.mul_nonneg_nonneg; [lia |].
    apply Z.pow_nonneg. lia.
  - apply Z.leb_gt in He.
    assert (0 < 2 ^ (- e)) by (apply Z.pow_pos_nonneg; lia).
    assert (0 < 2 ^ (- e + 1)) by (apply Z.pow_pos_nonneg; lia).
    apply Z.div_pos; lia.
Qed.

Lemma Math_round_nonneg (x : Num.number) :
  Spec.nonneg x = true -> Spec.nonneg (Num.Math_round x) = true.
Proof.
  destruct x as [[] | [] | | [] m e]; try discriminate; intros _;
    try reflexivity.
  unfold Num.Math_round.
  assert (Hn := round_half_up_nonneg m e).
  destruct (Num.round_half_up false m e) as [| p | p]; [reflexivity | | lia].
  change (Z.pos p =? 0) with false. cbv iota.
  unfold Num.of_Z, binary_normalize, binary_round.
  destruct (shl_align p 0 _) as [mz ez].
  apply binary_round_aux_nonneg. lia.
Qed.

Lemma positive_nonneg (x : Num.number) :
  Num.ltb Num.zero x = true -> Spec.nonneg x = true.
Proof.
  destruct x as [[] | [] | | [] m e]; cbn; try discriminate; reflexivity.
Qed.

Lemma nonneg_above_zero (x : Num.number) :
  Spec.nonneg x = true -> Num.leb Num.zero x = true /\ Num.isNaN x = false.
Proof.
  destruct x as [[] | [] | | [] m e]; try discriminate; intros _;
    split; reflexivity.
Qed.

(** X1: for every positive amount, finite or not, the advance that
    [compute] derives is a number and is not negative. *)
Theorem advance_never_negative (A : Num.number) :
  Num.ltb Num.zero A = true ->
  Num.leb Num.zero (App.aici (App.amounts A)) = true
  /\ Num.isNaN (App.aici (App.amounts A)) = false.
Proof.
  intros HA. apply nonneg_above_zero.
  unfold App.amounts, App.aici, Num.half, Num.hundred.
  apply div_nonneg, Math_round_nonneg, mul_nonneg, mul_nonneg.
  apply positive_nonneg. exact HA.
Qed.

(** ** Outcomes of the handlers *)

Lemma not_both_signs (x : Num.number) :
  Num.ltb Num.zero x = true -> Num.ltb x Num.zero = true -> False.
Proof.
  destruct x as [[] | [] | | [] m e]; cbn; discriminate.
Qed.

Lemma cons_not_self {A : Type} (x : A) (l : list A) : x :: l <> l.
Proof.
  intros H. apply (f_equal (@List.length A)) in H. simpl in H. lia.
Qed.

Section Outcomes.

Variable EURO_format : Num.number -> jsstring.

(** What a submission with an incomplete form does. *)
Lemma submit_rejected_outcome (now : Z) (pg : App.Page) :
  Spec.filled (App.client pg) = false \/
  Spec.filled (App.prestation pg) = false \/
  Spec.zero_or_NaN (Parse.parseFloat (App.montant pg)) = true ->
  App.on_submit EURO_format now pg
  = App.mkDispatch App.Returned true (App.alert App.msg_incomplete pg).
Proof.
  intros H. unfold App.on_submit, Spec.filled in *.
  destruct H as [-> | [-> | H]]; [reflexivity | |].
  - rewrite orb_true_r. reflexivity.
  - rewrite amount_read.
    destruct (App.montant pg) as [| c r] eqn:Em.
    + rewrite !orb_true_r. reflexivity.
    + rewrite zero_or_NaN_falsy in H. rewrite H, !orb_true_r. reflexivity.
Qed.

(** The three ways a submission can end. *)
Lemma submit_cases (now : Z) (pg : App.Page) :
  (Spec.filled (App.client pg) = false
     \/ Spec.filled (App.prestation pg) = false
     \/ Spec.zero_or_NaN (Parse.parseFloat (App.montant pg)) = true)
  \/ (Spec.filled (App.client pg) = true
      /\ Spec.filled (App.prestation pg) = true
      /\ Num.ltb (Parse.parseFloat (App.montant pg)) Num.zero = true)
  \/ (Spec.filled (App.client pg) = true
      /\ Spec.filled (App.prestation pg) = true
      /\ Num.ltb Num.zero (Parse.parseFloat (App.montant pg)) = true).
Proof.
  destruct (Spec.filled (App.client pg)); [| left; left; reflexivity].
  destruct (Spec.filled (App.prestation pg));
    [| left; right; left; reflexivity].
  rewrite zero_or_NaN_falsy.
  destruct (Parse.parseFloat (App.montant pg)) as [[] | [] | | [] m e]; cbn;
    intuition auto.
Qed.

(** X2: the submit handler throws exactly when the client and the service
    are filled in and the amount text parses to a negative number; in every
    other case it returns. *)
Theorem submit_throws_iff (now : Z) (pg : App.Page) :
  App.completion_of (App.on_submit EURO_format now pg)
    = App.Threw App.TypeError
  <-> Spec.filled (App.client pg) = true
      /\ Spec.filled (App.prestation pg) = true
      /\ Num.ltb (Parse.parseFloat (App.montant pg)) Num.zero = true.
Proof.
  split.
  - intros H.
    destruct (submit_cases now pg) as [Hr | [Hn | (Hc & Hp & Hm)]].
    + rewrite (submit_rejected_outcome now pg Hr) in H. discriminate.
    + exact Hn.
    + rewrite (submit_accepted EURO_format now pg Hc Hp Hm) in H.
      discriminate.
  - intros (Hc & Hp & Hm).
    rewrite (submit_negative_outcome EURO_format now pg Hc Hp Hm).
    reflexivity.
Qed.

(** X3: a submission changes the history table exactly when the client and
    the service are filled in and the amount text parses to a positive
    number; it then adds one row on top. *)
Theorem submit_adds_row_iff (now : Z) (pg : App.Page) :
  (App.tbody (App.page_of (App.on_submit EURO_format now pg)) <> App.tbody pg
   <-> Spec.filled (App.client pg) = true
       /\ Spec.filled (App.prestation pg) = true
       /\ Num.ltb Num.zero (Parse.parseFloat (App.montant pg)) = true)
  /\ (App.tbody (App.page_of (App.on_submit EURO_format now pg)) = App.tbody pg
      \/ exists tr,
           App.tbody (App.page_of (App.on_submit EURO_format now pg))
           = tr :: App.tbody pg).
Proof.
  destruct (submit_cases now pg) as [Hr | [(Hc & Hp & Hm) | (Hc & Hp & Hm)]].
  - rewrite (submit_rejected_outcome now pg Hr). cbn [App.page_of App.alert App.tbody].
    split; [| left; reflexivity].
    split; [intros H; contradiction H; reflexivity |].
    intros (Hc & Hp & Hm). exfalso.
    destruct (positive_passes _ Hm) as [_ Ht].
    destruct Hr as [Hr | [Hr | Hr]]; try congruence.
    rewrite zero_or_NaN_falsy, Ht in Hr. discriminate.
  - rewrite (submit_negative_outcome EURO_format now pg Hc Hp Hm).
    cbn [App.page_of App.classList_add_hidden App.tbody].
    split; [| left; reflexivity].
    split; [intros H; contradiction H; reflexivity |].
    intros (_ & _ & Hpos). exfalso. exact (not_both_signs _ Hpos Hm).
  - rewrite (submit_accepted EURO_format now pg Hc Hp Hm).
    cbn [App.page_of App.tbody].
    split; [| right; eexists; reflexivity].
    split; [intros _; auto |]. intros _. apply cons_not_self.
Qed.

(** X4: whatever the controls hold, and also when the handler throws, the
    default action of the submit event has been prevented. *)
Theorem submit_prevents_default (now : Z) (pg : App.Page) :
  App.defaultPrevented (App.on_submit EURO_format now pg) = true.
Proof.
  destruct (submit_cases now pg) as [Hr | [(Hc & Hp & Hm) | (Hc & Hp & Hm)]].
  - rewrite (submit_rejected_outcome now pg Hr). reflexivity.
  - rewrite (submit_negative_outcome EURO_format now pg Hc Hp Hm).
    reflexivity.
  - rewrite (submit_accepted EURO_format now pg Hc Hp Hm). reflexivity.
Qed.

(** X5: a submission that returns has shown exactly one notification, the
    request to complete the form or the confirmation; one that throws has
    shown none. *)
Theorem submit_notifies_once (now : Z) (pg : App.Page) :
  match App.completion_of (App.on_submit EURO_format now pg) with
  | App.Returned =>
      App.alerts (App.page_of (App.on_submit EURO_format now pg))
        = App.msg_incomplete :: App.alerts pg
      \/ App.alerts (App.page_of (App.on_submit EURO_format now pg))
        = App.msg_transmis :: App.alerts pg
  | App.Threw _ =>
      App.alerts (App.page_of (App.on_submit EURO_format now pg))
        = App.alerts pg
  end.
Proof.
  destruct (submit_cases now pg) as [Hr | [(Hc & Hp & Hm) | (Hc & Hp & Hm)]].
  - rewrite (submit_rejected_outcome now pg Hr). left. reflexivity.
  - rewrite (submit_negative_outcome EURO_format now pg Hc Hp Hm).
    reflexivity.
  - rewrite (submit_accepted EURO_format now pg Hc Hp Hm). right.
    reflexivity.
Qed.

(** X6: a submission leaves the preview visible only when it was visible
    before and the submission was turned down for an incomplete form. *)
Theorem submit_hides_preview (now : Z) (pg : App.Page) :
  App.calcZone_hidden (App.page_of (App.on_submit EURO_format now pg)) = false ->
  App.calcZone_hidden pg = false
  /\ App.on_submit EURO_format now pg
     = App.mkDispatch App.Returned true (App.alert App.msg_incomplete pg).
Proof.
  destruct (submit_cases now pg) as [Hr | [(Hc & Hp & Hm) | (Hc & Hp & Hm)]].
  - rewrite (submit_rejected_outcome now pg Hr). cbn [App.page_of App.alert App.calcZone_hidden].
    intros H. split; [exact H | reflexivity].
  - rewrite (submit_negative_outcome EURO_format now pg Hc Hp Hm).
    cbn. discriminate.
  - rewrite (submit_accepted EURO_format now pg Hc Hp Hm). cbn. discriminate.
Qed.

End Outcomes.

(** ** The preview *)

Section Preview.

Variable EURO_format : Num.number -> jsstring.

(** X7: after [compute], the preview is visible exactly when a result was
    returned. *)
Theorem preview_visible_iff_result (pg : App.Page) :
  App.calcZone_hidden (snd (App.compute EURO_format pg))
  = match fst (App.compute EURO_format pg) with
    | Some _ => false
    | None => true
    end.
Proof.
  unfold App.compute. destruct (Num.isNaN _ || Num.leb _ _); reflexivity.
Qed.

(** X8: the click on the calculation button touches the preview only: the
    four controls, the history, the notifications and the print count are
    what they were. *)
Theorem calc_click_touches_preview_only (pg : App.Page) :
  let pg' := App.on_calc EURO_format pg in
  (App.client pg', App.prestation pg', App.datePrest pg', App.montant pg')
  = (App.client pg, App.prestation pg, App.datePrest pg, App.montant pg)
  /\ App.tbody pg' = App.tbody pg
  /\ App.alerts pg' = App.alerts pg
  /\ App.prints pg' = App.prints pg.
Proof.
  unfold App.on_calc, App.compute.
  destruct (Num.isNaN _ || Num.leb _ _); cbn; repeat split.
Qed.

(** X9: clicking the calculation button twice leaves the page as one click
    does. *)
Theorem calc_click_idempotent (pg : App.Page) :
  App.on_calc EURO_format (App.on_calc EURO_format pg)
  = App.on_calc EURO_format pg.
Proof.
  unfold App.on_calc, App.compute.
  destruct (Num.isNaN (Parse.parseFloat (or_else (App.montant pg) (js "0")))
            || Num.leb (Parse.parseFloat (or_else (App.montant pg) (js "0")))
                       Num.zero) eqn:E;
    cbn [snd App.classList_add_hidden App.classList_remove_hidden
         App.set_calcZone_innerHTML App.montant];
    rewrite E; reflexivity.
Qed.

(** X10: what a submission records does not depend on whether the preview
    was computed first: after a click on the calculation button the
    submission ends the same way, with the same history and the same
    notifications. *)
Theorem submit_after_calc_click (now : Z) (pg : App.Page) :
  let direct := App.on_submit EURO_format now pg in
  let after_click :=
    App.on_submit EURO_format now (App.on_calc EURO_format pg) in
  App.completion_of after_click = App.completion_of direct
  /\ App.tbody (App.page_of after_click) = App.tbody (App.page_of direct)
  /\ App.alerts (App.page_of after_click) = App.alerts (App.page_of direct).
Proof.
  unfold App.on_submit, App.on_calc, App.compute.
  destruct (Num.isNaN (Parse.parseFloat (or_else (App.montant pg) (js "0")))
            || Num.leb (Parse.parseFloat (or_else (App.montant pg) (js "0")))
                       Num.zero) eqn:E;
    cbn [snd App.classList_add_hidden App.classList_remove_hidden
         App.set_calcZone_innerHTML App.montant App.client App.prestation
         App.datePrest];
    rewrite E;
    destruct (negb (truthy (trim (App.client pg)))
              || negb (truthy (trim (App.prestation pg)))
              || negb (Num.truthy
                         (Parse.parseFloat (or_else (App.montant pg) (js "0")))));
    repeat split.
Qed.

(** X11: an amount text that parses to +Infinity is taken as a valid
    amount: the advance is +Infinity, the remainder is NaN, and the
    remainder is shown as the formatting of 0. *)
Theorem infinite_amount_previewed (pg : App.Page) :
  Parse.parseFloat (App.montant pg) = Num.Infinity ->
  fst (App.compute EURO_format pg)
    = Some (App.mkCalc Num.Infinity Num.Infinity Num.NaN)
  /\ App.calcZone_hidden (snd (App.compute EURO_format pg)) = false
  /\ App.format EURO_format Num.NaN = EURO_format Num.zero.
Proof.
  intros H.
  assert (Hpos : Num.ltb Num.zero (Parse.parseFloat (App.montant pg)) = true)
    by (rewrite H; reflexivity).
  rewrite (compute_shown EURO_format pg Hpos), H. repeat split.
Qed.

End Preview.

(** ** Two submissions in a row *)

Section Resubmit.

Variable EURO_format : Num.number -> jsstring.

(** X12: once a submission has been recorded the controls are empty, so
    submitting again at once only asks to complete the form: the row is not
    recorded twice. *)
Theorem resubmit_is_rejected (now later : Z) (pg : App.Page) :
  Spec.filled (App.client pg) = true ->
  Spec.filled (App.prestation pg) = true ->
  Num.ltb Num.zero (Parse.parseFloat (App.montant pg)) = true ->
  let pg1 := App.page_of (App.on_submit EURO_format now pg) in
  App.on_submit EURO_format later pg1
  = App.mkDispatch App.Returned true (App.alert App.msg_incomplete pg1)
  /\ List.length
       (App.tbody (App.page_of (App.on_submit EURO_format later pg1)))
     = S (List.length (App.tbody pg)).
Proof.
  intros Hc Hp Hm pg1. subst pg1.
  rewrite (submit_accepted EURO_format now pg Hc Hp Hm).
  split; reflexivity.
Qed.

End Resubmit.

(** ** The default date *)

Lemma iso_date_length_ge (t : Z) : (10 <= List.length (Clock.iso_date t))%nat.
Proof.
  unfold Clock.iso_date.
  destruct (Clock.civil_from_days (t / Clock.msPerDay)) as [[y m] d].
  unfold Clock.iso_year.
  destruct ((0 <=? y) && (y <=? 9999));
    rewrite !length_app, !pad_length; simpl; lia.
Qed.

Lemma today_from_date (now : Z) :
  App.today now = firstn 10 (Clock.iso_date now).
Proof.
  unfold App.today, slice0, Clock.toISOString.
  rewrite firstn_app.
  replace (10 - List.length (Clock.iso_date now))%nat with 0%nat
    by (pose proof (iso_date_length_ge now); lia).
  rewrite firstn_O, app_nil_r. reflexivity.
Qed.

(** X13: whatever the clock reads, [today()] is a text of exactly ten code
    units. *)
Theorem today_has_ten_code_units (now : Z) :
  List.length (App.today now) = 10%nat.
Proof.
  rewrite today_from_date, length_firstn.
  pose proof (iso_date_length_ge now). lia.
Qed.

Section SameDay.

Variable EURO_format : Num.number -> jsstring.

(** X14: the submit handler uses the clock for the UTC day only: at two
    instants of the same UTC day it does the same thing; and with a date in
    the date control it does not depend on the clock at all. *)
Theorem submit_depends_on_utc_day (now1 now2 : Z) (pg : App.Page) :
  now1 / Clock.msPerDay = now2 / Clock.msPerDay
  \/ truthy (App.datePrest pg) = true ->
  App.on_submit EURO_format now1 pg = App.on_submit EURO_format now2 pg.
Proof.
  intros [H | H].
  - assert (E : App.today now1 = App.today now2).
    { rewrite !today_from_date. unfold Clock.iso_date. rewrite H.
      reflexivity. }
    unfold App.on_submit. rewrite E. reflexivity.
  - unfold App.on_submit. rewrite H. reflexivity.
Qed.

End SameDay.

(** ** Sequences of actions *)

Section Sessions.

Variable EURO_format : Num.number -> jsstring.

Lemma compute_frame (pg : App.Page) :
  App.tbody (snd (App.compute EURO_format pg)) = App.tbody pg
  /\ App.alerts (snd (App.compute EURO_format pg)) = App.alerts pg
  /\ App.prints (snd (App.compute EURO_format pg)) = App.prints pg.
Proof.
  unfold App.compute. destruct (Num.isNaN _ || Num.leb _ _); repeat split.
Qed.

(** One action: the rows and the notifications it adds, the prints it
    asks for. *)
Lemma step_effect (a : App.action) (pg : App.Page) :
  let k := match a with App.Submit _ => 1%nat | _ => 0%nat end in
  (exists rows, App.tbody (App.step EURO_format pg a) = rows ++ App.tbody pg
                /\ (List.length rows <= k)%nat)
  /\ (exists msgs, App.alerts (App.step EURO_format pg a) = msgs ++ App.alerts pg
                   /\ (List.length msgs <= k)%nat)
  /\ App.prints (App.step EURO_format pg a)
     = (App.prints pg
        + match a with App.ClickPrint => 1 | _ => 0 end)%nat.
Proof.
  destruct (compute_frame pg) as (Ct & Ca & Cp).
  destruct a as [c p d m | | now |]; simpl.
  - split; [exists []; split; [reflexivity | simpl; lia] |].
    split; [exists []; split; [reflexivity | simpl; lia] |]. lia.
  - unfold App.on_calc. rewrite Ct, Ca, Cp.
    split; [exists []; split; [reflexivity | simpl; lia] |].
    split; [exists []; split; [reflexivity | simpl; lia] |]. lia.
  - unfold App.on_submit.
    destruct (negb _ || negb _ || negb _).
    + cbn. split; [exists []; split; [reflexivity | simpl; lia] |].
      split; [eexists [_]; split; [reflexivity | simpl; lia] |]. lia.
    + destruct (App.compute EURO_format pg) as [[k |] pg1]; cbn in *;
        rewrite ?Ct, ?Ca, ?Cp.
      * split; [eexists [_]; split; [reflexivity | simpl; lia] |].
        split; [eexists [_]; split; [reflexivity | simpl; lia] |]. lia.
      * split; [exists []; split; [reflexivity | simpl; lia] |].
        split; [exists []; split; [reflexivity | simpl; lia] |]. lia.
  - split; [exists []; split; [reflexivity | simpl; lia] |].
    split; [exists []; split; [reflexivity | simpl; lia] |]. lia.
Qed.

Lemma count_submits_cons (a : App.action) (acts : list App.action) :
  Spec.count_submits (a :: acts)
  = (match a with App.Submit _ => 1 | _ => 0 end
     + Spec.count_submits acts)%nat.
Proof. unfold Spec.count_submits. destruct a; reflexivity. Qed.

Lemma count_prints_cons (a : App.action) (acts : list App.action) :
  Spec.count_prints (a :: acts)
  = (match a with App.ClickPrint => 1 | _ => 0 end
     + Spec.count_prints acts)%nat.
Proof. unfold Spec.count_prints. destruct a; reflexivity. Qed.

(** X15: in any sequence of inputs, clicks and submissions the history
    keeps the rows it had, in order and at the bottom, and gains at most one
    row per submission. *)
Theorem history_grows_on_top (acts : list App.action) (pg : App.Page) :
  exists rows,
    App.tbody (App.run EURO_format acts pg) = rows ++ App.tbody pg
    /\ (List.length rows <= Spec.count_submits acts)%nat.
Proof.
  unfold App.run. revert pg.
  induction acts as [| a acts IH]; intros pg; simpl.
  - exists []. split; [reflexivity | simpl; lia].
  - destruct (IH (App.step EURO_format pg a)) as (r1 & E1 & L1).
    destruct (step_effect a pg) as ((r2 & E2 & L2) & _).
    exists (r1 ++ r2). rewrite E1, E2, app_assoc, length_app.
    rewrite count_submits_cons. split; [reflexivity | lia].
Qed.

(** X16: notifications come from submissions only: in any sequence of
    actions the earlier notifications are kept and at most one is added per
    submission. *)
Theorem notifications_from_submissions (acts : list App.action)
        (pg : App.Page) :
  exists msgs,
    App.alerts (App.run EURO_format acts pg) = msgs ++ App.alerts pg
    /\ (List.length msgs <= Spec.count_submits acts)%nat.
Proof.
  unfold App.run. revert pg.
  induction acts as [| a acts IH]; intros pg; simpl.
  - exists []. split; [reflexivity | simpl; lia].
  - destruct (IH (App.step EURO_format pg a)) as (r1 & E1 & L1).
    destruct (step_effect a pg) as (_ & (r2 & E2 & L2) & _).
    exists (r1 ++ r2). rewrite E1, E2, app_assoc, length_app.
    rewrite count_submits_cons. split; [reflexivity | lia].
Qed.

(** X17: the print dialog is opened once per click on the print button and
    by nothing else. *)
Theorem prints_count_print_clicks (acts : list App.action) (pg : App.Page) :
  App.prints (App.run EURO_format acts pg)
  = (App.prints pg + Spec.count_prints acts)%nat.
Proof.
  unfold App.run. revert pg.
  induction acts as [| a acts IH]; intros pg; simpl.
  - unfold Spec.count_prints. simpl. lia.
  - rewrite IH, count_prints_cons.
    destruct (step_effect a pg) as (_ & _ & E). rewrite E. lia.
Qed.

(** X18: for each demonstration row, the advance shown, amount x 0.5
    without rounding, is the advance [compute] derives for the same
    amount. *)
Theorem seed_advance_matches_compute (x : App.SeedRow) :
  In x App.seed ->
  Num.mul (App.seed_m x) Num.half = App.aici (App.amounts (App.seed_m x)).
Proof.
  intros [<- | [<- | []]]; vm_compute; reflexivity.
Qed.

End Sessions.

(** ** Filling in the form and submitting *)

Section Filling.

Variable EURO_format : Num.number -> jsstring.

Lemma fill_and_submit (now : Z) (c p d m : jsstring) (pg : App.Page) :
  Spec.filled c = true ->
  Spec.filled p = true ->
  Num.ltb Num.zero (Parse.parseFloat m) = true ->
  App.tbody (App.page_of
               (App.on_submit EURO_format now (App.set_fields c p d m pg)))
  = Spec.recorded_row EURO_format now c p d m :: App.tbody pg.
Proof.
  intros Hc Hp Hm.
  rewrite (submit_accepted EURO_format now (App.set_fields c p d m pg)
                           Hc Hp Hm).
  reflexivity.
Qed.

(** X19: the most recent submission comes first: after two forms are
    filled in and submitted one after the other, both valid, the row of the
    second is on top of the row of the first, above what the history
    held. *)
Theorem latest_submission_first (n1 n2 : Z) (c1 p1 d1 m1 c2 p2 d2 m2 : jsstring)
        (pg : App.Page) :
  Spec.filled c1 = true -> Spec.filled p1 = true ->
  Num.ltb Num.zero (Parse.parseFloat m1) = true ->
  Spec.filled c2 = true -> Spec.filled p2 = true ->
  Num.ltb Num.zero (Parse.parseFloat m2) = true ->
  App.tbody
    (App.run EURO_format
       [App.Input c1 p1 d1 m1; App.Submit n1;
        App.Input c2 p2 d2 m2; App.Submit n2] pg)
  = Spec.recorded_row EURO_format n2 c2 p2 d2 m2
    :: Spec.recorded_row EURO_format n1 c1 p1 d1 m1 :: App.tbody pg.
Proof.
  intros Hc1 Hp1 Hm1 Hc2 Hp2 Hm2.
  unfold App.run. cbn [fold_left App.step].
  rewrite (fill_and_submit n2 c2 p2 d2 m2 _ Hc2 Hp2 Hm2).
  rewrite (fill_and_submit n1 c1 p1 d1 m1 pg Hc1 Hp1 Hm1).
  reflexivity.
Qed.

(** X20: a decimal comma cuts the amount: when the amount text is a run of
    digits followed by a comma and anything else, [compute] returns what it
    returns for the digits alone. *)
Theorem decimal_comma_truncates (ds rest : jsstring) (pg1 pg2 : App.Page) :
  ds <> [] ->
  forallb is_digit ds = true ->
  App.montant pg1 = ds ++ js "," ++ rest ->
  App.montant pg2 = ds ->
  fst (App.compute EURO_format pg1) = fst (App.compute EURO_format pg2).
Proof.
  intros Hne Hds H1 H2.
  assert (E : Parse.parseFloat (or_else (App.montant pg1) (js "0"))
              = Parse.parseFloat (or_else (App.montant pg2) (js "0"))).
  { rewrite H1, H2. destruct ds as [| c ds]; [contradiction |].
    cbn [app or_else truthy].
    change (c :: ds ++ js "," ++ rest) with ((c :: ds) ++ js "," ++ rest).
    rewrite (parseFloat_digits_prefix (c :: ds) (js "," ++ rest) Hne Hds eq_refl).
    rewrite <- (app_nil_r (c :: ds)) at 2.
    rewrite (parseFloat_digits_prefix (c :: ds) [] Hne Hds eq_refl).
    reflexivity. }
  unfold App.compute. rewrite E.
  destruct (Num.isNaN _ || Num.leb _ _); reflexivity.
Qed.

End Filling.

(** ** The further properties at concrete pages *)

Lemma advance_never_negative_witness :
  Num.leb Num.zero (App.aici (App.amounts (Parse.parseFloat (js "99.99"))))
    = true
  /\ Num.isNaN (App.aici (App.amounts (Parse.parseFloat (js "99.99")))) = false.
Proof.
  exact (advance_never_negative (Parse.parseFloat (js "99.99"))
           ltac:(vm_compute; reflexivity)).
Defined.

Lemma submit_throws_iff_witness :
  App.completion_of
    (App.on_submit Spec.french_format 1760308200000
       (Spec.filled_form (js "Mme Dupont") (js "Jardinage") (js "2025-10-12")
                         (js "-5")))
  = App.Threw App.TypeError.
Proof.
  apply (proj2 (submit_throws_iff Spec.french_format 1760308200000
                  (Spec.filled_form (js "Mme Dupont") (js "Jardinage")
                                    (js "2025-10-12") (js "-5")))).
  split; [vm_compute; reflexivity |].
  split; vm_compute; reflexivity.
Defined.

Lemma submit_adds_row_iff_witness :
  App.tbody
    (App.page_of
       (App.on_submit Spec.french_format 1760308200000
          (Spec.filled_form (js "Mme Dupont") (js "Jardinage")
                            (js "2025-10-12") (js "80"))))
  <> App.tbody (Spec.filled_form (js "Mme Dupont") (js "Jardinage")
                                 (js "2025-10-12") (js "80")).
Proof.
  apply (proj2 (proj1 (submit_adds_row_iff Spec.french_format 1760308200000
                  (Spec.filled_form (js "Mme Dupont") (js "Jardinage")
                                    (js "2025-10-12") (js "80"))))).
  split; [vm_compute; reflexivity |].
  split; vm_compute; reflexivity.
Defined.

Lemma submit_hides_preview_witness :
  App.calcZone_hidden (App.mkPage [] [] [] (js "80") false [] [] [] 0) = false
  /\ App.on_submit Spec.french_format 1760308200000
       (App.mkPage [] [] [] (js "80") false [] [] [] 0)
     = App.mkDispatch App.Returned true
         (App.alert App.msg_incomplete
            (App.mkPage [] [] [] (js "80") false [] [] [] 0)).
Proof.
  exact (submit_hides_preview Spec.french_format 1760308200000
           (App.mkPage [] [] [] (js "80") false [] [] [] 0)
           ltac:(vm_compute; reflexivity)).
Defined.

Lemma infinite_amount_previewed_witness :
  fst (App.compute Spec.french_format
         (Spec.filled_form (js "Mme Dupont") (js "Jardinage")
                           (js "2025-10-12") (js "1e309")))
  = Some (App.mkCalc Num.Infinity Num.Infinity Num.NaN).
Proof.
  exact (proj1 (infinite_amount_previewed Spec.french_format
                  (Spec.filled_form (js "Mme Dupont") (js "Jardinage")
                                    (js "2025-10-12") (js "1e309"))
                  ltac:(vm_compute; reflexivity))).
Defined.

Lemma resubmit_is_rejected_witness :
  List.length
    (App.tbody
       (App.page_of
          (App.on_submit Spec.french_format 1760310000000
             (App.page_of
                (App.on_submit Spec.french_format 1760308200000
                   (Spec.filled_form (js "Mme Dupont") (js "Jardinage")
                                     (js "2025-10-12") (js "80")))))))
  = 1%nat.
Proof.
  exact (proj2 (resubmit_is_rejected Spec.french_format 1760308200000
                  1760310000000
                  (Spec.filled_form (js "Mme Dupont") (js "Jardinage")
                                    (js "2025-10-12") (js "80"))
                  ltac:(vm_compute; reflexivity)
                  ltac:(vm_compute; reflexivity)
                  ltac:(vm_compute; reflexivity))).
Defined.

Lemma submit_depends_on_utc_day_witness :
  App.on_submit Spec.french_format 1760308200000
    (Spec.filled_form (js "Mme Dupont") (js "Jardinage") [] (js "80"))
  = App.on_submit Spec.french_format 1760310000000
      (Spec.filled_form (js "Mme Dupont") (js "Jardinage") [] (js "80")).
Proof.
  apply (submit_depends_on_utc_day Spec.french_format 1760308200000
           1760310000000).
  left. vm_compute. reflexivity.
Defined.

Lemma seed_advance_matches_compute_witness :
  Num.mul (Num.of_Z 80) Num.half
  = App.aici (App.amounts (Num.of_Z 80)).
Proof.
  exact (seed_advance_matches_compute
           (App.mkSeed (js "2025-10-12") (js "Mme Dupont")
                       (js "Entretien jardin") (Num.of_Z 80))
           (or_introl eq_refl)).
Defined.

Lemma latest_submission_first_witness :
  App.tbody
    (App.run Spec.french_format
       [App.Input (js "Mme Dupont") (js "Jardinage") (js "2025-10-12")
                  (js "80"); App.Submit 1760308200000;
        App.Input (js "M. Martin") (js "Bricolage") [] (js "120");
        App.Submit 1760310000000]
       (Spec.filled_form [] [] [] []))
  = [ Spec.recorded_row Spec.french_format 1760310000000 (js "M. Martin")
        (js "Bricolage") [] (js "120");
      Spec.recorded_row Spec.french_format 1760308200000 (js "Mme Dupont")
        (js "Jardinage") (js "2025-10-12") (js "80") ].
Proof.
  exact (latest_submission_first Spec.french_format 1760308200000
           1760310000000 (js "Mme Dupont") (js "Jardinage") (js "2025-10-12")
           (js "80") (js "M. Martin") (js "Bricolage") [] (js "120")
           (Spec.filled_form [] [] [] [])
           ltac:(vm_compute; reflexivity) ltac:(vm_compute; reflexivity)
           ltac:(vm_compute; reflexivity) ltac:(vm_compute; reflexivity)
           ltac:(vm_compute; reflexivity) ltac:(vm_compute; reflexivity)).
Defined.

Lemma decimal_comma_truncates_witness :
  fst (App.compute Spec.french_format
         (Spec.filled_form [] [] [] (js "12,50")))
  = fst (App.compute Spec.french_format (Spec.filled_form [] [] [] (js "12"))).
Proof.
  apply (decimal_comma_truncates Spec.french_format (js "12") (js "50")).
  - discriminate.
  - reflexivity.
  - reflexivity.
  - reflexivity.
Defined.

(** * The arithmetic of the amounts *)

Import Rounding.

(** ** Rounding to 53 bits *)

Lemma digits2_bounds (p : positive) :
  2 ^ (Z.pos (digits2_pos p) - 1) <= Z.pos p < 2 ^ Z.pos (digits2_pos p).
Proof.
  induction p as [p IH | p IH |]; simpl digits2_pos.
  - rewrite Pos2Z.inj_succ, (Pos2Z.inj_xI p).
    replace (Z.succ (Z.pos (digits2_pos p)) - 1)
      with (Z.succ (Z.pos (digits2_pos p) - 1)) by lia.
    rewrite !Z.pow_succ_r by lia.
    set (a := 2 ^ (Z.pos (digits2_pos p) - 1)) in *.
    set (b := 2 ^ Z.pos (digits2_pos p)) in *. lia.
  - rewrite Pos2Z.inj_succ, (Pos2Z.inj_xO p).
    replace (Z.succ (Z.pos (digits2_pos p)) - 1)
      with (Z.succ (Z.pos (digits2_pos p) - 1)) by lia.
    rewrite !Z.pow_succ_r by lia.
    set (a := 2 ^ (Z.pos (digits2_pos p) - 1)) in *.
    set (b := 2 ^ Z.pos (digits2_pos p)) in *. lia.
  - simpl. lia.
Qed.

Lemma digits2_unique (p : positive) (d : Z) :
  2 ^ (d - 1) <= Z.pos p < 2 ^ d -> Z.pos (digits2_pos p) = d.
Proof.
  intros [Hlo Hhi]. pose proof (digits2_bounds p) as [Blo Bhi].
  set (c := Z.pos (digits2_pos p)) in *.
  assert (0 < c) by (subst c; lia).
  destruct (Z.lt_trichotomy c d) as [Hlt | [Heq | Hgt]]; [| exact Heq |].
  - exfalso. assert (2 ^ c <= 2 ^ (d - 1)) by (apply Z.pow_le_mono_r; lia). lia.
  - exfalso. assert (0 <= d).
    { destruct (Z.le_gt_cases 0 d); [lia |].
      rewrite (Z.pow_neg_r 2 d) in Hhi by lia. lia. }
    assert (2 ^ d <= 2 ^ (c - 1)) by (apply Z.pow_le_mono_r; lia). lia.
Qed.

Lemma shr_1_inv (Nn U : Z) (r : shr_record) :
  0 < U -> Inv Nn U r -> Inv Nn (2 * U) (shr_1 r).
Proof.
  intros HU. destruct r as [m rb sb]. unfold Inv, loc_ok.
  destruct m as [| [p | p |] | p]; cbn [shr_1 shr_m shr_r shr_s];
    rewrite ?(Pos2Z.inj_xO p), ?(Pos2Z.inj_xI p);
    try (set (X := U * Z.pos p));
    try replace (U * (2 * Z.pos p + 1)) with (2 * X + U) by (subst X; ring);
    try replace (U * (2 * Z.pos p)) with (2 * X) by (subst X; ring);
    try replace (2 * U * Z.pos p) with (2 * X) by (subst X; ring);
    rewrite ?Z.mul_0_r, ?Z.mul_1_r;
    destruct rb, sb; cbn [orb]; intros (H0 & H1 & H2);
    try lia; (split; [lia | split; lia]).
Qed.

Lemma iter_shr_inv (p : positive) :
  forall Nn U r, 0 < U -> Inv Nn U r ->
  Inv Nn (2 ^ Z.pos p * U) (iter_pos shr_1 p r).
Proof.
  induction p as [p IH | p IH |]; intros Nn U r HU H; cbn [iter_pos].
  - rewrite (Pos2Z.inj_xI p).
    replace (2 ^ (2 * Z.pos p + 1) * U)
      with (2 ^ Z.pos p * (2 ^ Z.pos p * (2 * U))).
    + apply IH; [pose proof (Z.pow_pos_nonneg 2 (Z.pos p)); nia |].
      apply IH; [lia |]. apply shr_1_inv; assumption.
    + replace (2 * Z.pos p + 1) with (Z.pos p + Z.pos p + 1) by lia.
      rewrite !Z.pow_add_r by lia. change (2 ^ 1) with 2. ring.
  - rewrite (Pos2Z.inj_xO p).
    replace (2 ^ (2 * Z.pos p) * U) with (2 ^ Z.pos p * (2 ^ Z.pos p * U)).
    + apply IH; [pose proof (Z.pow_pos_nonneg 2 (Z.pos p)); nia |].
      apply IH; assumption.
    + replace (2 * Z.pos p) with (Z.pos p + Z.pos p) by lia.
      rewrite Z.pow_add_r by lia. ring.
  - change (2 ^ 1) with 2. apply shr_1_inv; assumption.
Qed.

Lemma round_nearest_even_inv (Nn U : Z) (r : shr_record) :
  0 < U -> Inv Nn U r ->
  let z := round_nearest_even (shr_m r) (loc_of_shr_record r) in
  shr_m r <= z <= shr_m r + 1 /\ 2 * Z.abs (U * z - Nn) <= U.
Proof.
  intros HU. destruct r as [m rb sb]. unfold Inv, loc_ok.
  cbn [shr_m shr_r shr_s loc_of_shr_record].
  intros (H0 & H1 & H2). set (X := U * m) in *.
  assert (E : U * (m + 1) = X + U) by (subst X; ring).
  destruct rb, sb; cbn [round_nearest_even];
    try destruct (Z.even m); rewrite ?E; fold X; split; lia.
Qed.

Lemma shr_m_of_loc (m : Z) (l : location) : shr_m (shr_record_of_loc m l) = m.
Proof. destruct l as [| []]; reflexivity. Qed.

Lemma Zdigits2_bounds (m : Z) :
  0 < m -> 2 ^ (Zdigits2 m - 1) <= m < 2 ^ Zdigits2 m.
Proof. destruct m as [| p | p]; try lia. intros _. apply digits2_bounds. Qed.

Lemma Zdigits2_unique (m d : Z) :
  0 < m -> 2 ^ (d - 1) <= m < 2 ^ d -> Zdigits2 m = d.
Proof.
  destruct m as [| p | p]; try lia. intros _. apply digits2_unique.
Qed.

Lemma shr_fexp_spec (m e : Z) (l : location) (Nn U : Z) :
  0 < U -> 0 < m -> Inv Nn U (shr_record_of_loc m l) ->
  53 <= Zdigits2 m -> -1074 <= Zdigits2 m + e - 53 ->
  exists r1,
    shr_fexp 53 1024 m e l = (r1, e + (Zdigits2 m - 53))
    /\ Inv Nn (2 ^ (Zdigits2 m - 53) * U) r1
    /\ 2 ^ 52 <= shr_m r1 < 2 ^ 53.
Proof.
  intros HU Hm HI Hd Hn.
  pose proof (Zdigits2_bounds m Hm) as [Blo Bhi].
  set (d := Zdigits2 m) in *.
  unfold shr_fexp, fexp, emin. fold d.
  replace (Z.max (d + e - 53) (3 - 1024 - 53) - e) with (d - 53) by lia.
  assert (HI0 := HI). destruct HI0 as (_ & Hrem & _).
  rewrite shr_m_of_loc in Hrem.
  assert (HP : 0 < 2 ^ (d - 53)) by (apply Z.pow_pos_nonneg; lia).
  assert (E1 : 2 ^ (d - 1) = 2 ^ (d - 53) * 2 ^ 52).
  { rewrite <- Z.pow_add_r by lia. f_equal. lia. }
  assert (E2 : 2 ^ d = 2 ^ (d - 53) * 2 ^ 53).
  { rewrite <- Z.pow_add_r by lia. f_equal. lia. }
  assert (Hgen : forall r1, Inv Nn (2 ^ (d - 53) * U) r1 ->
                 2 ^ 52 <= shr_m r1 < 2 ^ 53).
  { intros r1 (Hq0 & Hq & _). set (q := shr_m r1) in *.
    set (P := 2 ^ (d - 53)) in *.
    assert (U * (P * q) < U * (m + 1)) by nia.
    assert (P * q < m + 1) by (apply (Z.mul_lt_mono_pos_l U); lia).
    assert (U * m < U * (P * (q + 1))) by nia.
    assert (m < P * (q + 1)) by (apply (Z.mul_lt_mono_pos_l U); lia).
    split; nia. }
  unfold shr. destruct (d - 53) as [| p | p] eqn:Ek; try lia.
  - exists (shr_record_of_loc m l). rewrite Z.add_0_r.
    change (2 ^ 0) with 1 in *. rewrite Z.mul_1_l in *.
    split; [reflexivity |]. split; [exact HI | apply Hgen; exact HI].
  - exists (iter_pos shr_1 p (shr_record_of_loc m l)).
    split; [reflexivity |].
    assert (HI1 := iter_shr_inv p Nn U _ HU HI).
    split; [exact HI1 | apply Hgen; exact HI1].
Qed.

(** Rounding a positive mantissa of at least 53 bits, in the normal range
    and without overflow. *)
Lemma bra_strong (sx : bool) (mx ex : Z) (lx : location) (Nn U : Z) :
  0 < U -> 0 < mx -> Inv Nn U (shr_record_of_loc mx lx) ->
  53 <= Zdigits2 mx -> -1074 <= Zdigits2 mx + ex - 53 ->
  Zdigits2 mx + ex - 53 + 1 <= 971 ->
  exists m' e',
    binary_round_aux 53 1024 sx mx ex lx = S754_finite sx m' e'
    /\ 2 ^ 52 <= Z.pos m' < 2 ^ 53
    /\ ex + (Zdigits2 mx - 53) <= e' <= ex + (Zdigits2 mx - 53) + 1
    /\ 2 * Z.abs (U * (2 ^ (e' - ex) * Z.pos m') - Nn)
       <= U * 2 ^ (Zdigits2 mx - 53).
Proof.
  intros HU Hm HI Hd Hn Ho.
  destruct (shr_fexp_spec mx ex lx Nn U HU Hm HI Hd Hn)
    as (r1 & E1 & HI1 & Hq1).
  set (k := Zdigits2 mx - 53) in *.
  assert (HP : 0 < 2 ^ k) by (apply Z.pow_pos_nonneg; lia).
  assert (HU1 : 0 < 2 ^ k * U) by nia.
  destruct (round_nearest_even_inv Nn (2 ^ k * U) r1 HU1 HI1) as [Hz Herr].
  set (z := round_nearest_even (shr_m r1) (loc_of_shr_record r1)) in *.
  assert (Hzpos : 0 < z) by lia.
  assert (HIz : Inv z 1 (shr_record_of_loc z loc_Exact)).
  { unfold Inv, loc_ok. cbn [shr_record_of_loc shr_m shr_r shr_s]. lia. }
  assert (Hdz : Zdigits2 z = 53 \/ (Zdigits2 z = 54 /\ z = 2 ^ 53)).
  { destruct (Z.eq_dec z (2 ^ 53)) as [-> | Hne]; [right; split; reflexivity |].
    left. apply Zdigits2_unique; [lia |]. change (53 - 1) with 52. lia. }
  assert (Hd2 : 53 <= Zdigits2 z) by lia.
  assert (Hn2 : -1074 <= Zdigits2 z + (ex + k) - 53) by lia.
  destruct (shr_fexp_spec z (ex + k) loc_Exact z 1 ltac:(lia) Hzpos HIz Hd2 Hn2)
    as (r2 & E2 & HI2 & Hq2).
  unfold binary_round_aux. rewrite E1. fold z. rewrite E2.
  destruct (shr_m r2) as [| m2 | m2] eqn:Em2; try lia.
  assert (Hex : 2 ^ (Zdigits2 z - 53) * Z.pos m2 = z).
  { destruct HI2 as (_ & Hr2 & _). rewrite Em2 in Hr2.
    destruct Hdz as [Hz53 | [Hz54 Hzeq]].
    - rewrite Hz53 in *. change (2 ^ (53 - 53)) with 1 in *. lia.
    - rewrite Hz54 in *. change (2 ^ (54 - 53)) with 2 in *. lia. }
  assert (Hle : (ex + k + (Zdigits2 z - 53) <=? 1024 - 53) = true)
    by (apply Z.leb_le; lia).
  rewrite Hle. exists m2, (ex + k + (Zdigits2 z - 53)).
  split; [reflexivity |]. split; [exact Hq2 |]. split; [lia |].
  replace (ex + k + (Zdigits2 z - 53) - ex) with (k + (Zdigits2 z - 53)) by lia.
  rewrite Z.pow_add_r by lia.
  set (P2 := 2 ^ (Zdigits2 z - 53)) in *.
  assert (1 <= P2) by (subst P2; apply (Z.pow_le_mono_r 2 0); lia).
  replace (U * (2 ^ k * P2 * Z.pos m2)) with (2 ^ k * U * z)
    by (rewrite <- Hex; ring).
  lia.
Qed.

Lemma bra_spec (sx : bool) (mx ex : Z) (lx : location) (Nn U : Z) :
  0 < U -> 0 < mx -> Inv Nn U (shr_record_of_loc mx lx) ->
  53 <= Zdigits2 mx -> -1074 <= Zdigits2 mx + ex - 53 ->
  Zdigits2 mx + ex - 53 + 1 <= 971 ->
  exists m' e',
    binary_round_aux 53 1024 sx mx ex lx = S754_finite sx m' e'
    /\ 2 ^ 52 <= Z.pos m' < 2 ^ 53
    /\ ex + (Zdigits2 mx - 53) <= e' <= ex + (Zdigits2 mx - 53) + 1
    /\ 2 * Z.abs (U * (2 ^ (e' - ex) * Z.pos m') - Nn) <= U * 2 ^ (e' - ex).
Proof.
  intros HU Hm HI Hd Hn Ho.
  destruct (bra_strong sx mx ex lx Nn U HU Hm HI Hd Hn Ho)
    as (m' & e' & E & Hm' & He' & Herr).
  exists m', e'. split; [exact E |]. split; [exact Hm' |]. split; [exact He' |].
  assert (2 ^ (Zdigits2 mx - 53) <= 2 ^ (e' - ex))
    by (apply Z.pow_le_mono_r; lia).
  nia.
Qed.

Lemma Inv_exact (m : Z) : 0 <= m -> Inv m 1 (shr_record_of_loc m loc_Exact).
Proof.
  intros H. unfold Inv, loc_ok. cbn [shr_record_of_loc shr_m shr_r shr_s]. lia.
Qed.

Lemma Zdigits2_range (m a : Z) :
  0 <= a -> 2 ^ a <= m < 2 ^ (a + 2) ->
  a + 1 <= Zdigits2 m <= a + 2.
Proof.
  intros Ha [Hlo Hhi].
  assert (0 < 2 ^ a) by (apply Z.pow_pos_nonneg; lia).
  assert (Hm : 0 < m) by lia.
  destruct (Z.lt_ge_cases m (2 ^ (a + 1))) as [Hlt | Hge].
  - rewrite (Zdigits2_unique m (a + 1) Hm); [lia |].
    replace (a + 1 - 1) with a by lia. lia.
  - rewrite (Zdigits2_unique m (a + 2) Hm); [lia |].
    replace (a + 2 - 1) with (a + 1) by lia. lia.
Qed.

(** The product of two positive numbers with full mantissas. *)
Lemma mul_raw (m1 m2 : positive) (e1 e2 : Z) :
  2 ^ 52 <= Z.pos m1 < 2 ^ 53 -> 2 ^ 52 <= Z.pos m2 < 2 ^ 53 ->
  -1074 <= e1 + e2 + 52 -> e1 + e2 + 54 <= 971 ->
  exists m' e',
    Num.mul (S754_finite false m1 e1) (S754_finite false m2 e2)
      = S754_finite false m' e'
    /\ 2 ^ 52 <= Z.pos m' < 2 ^ 53
    /\ e1 + e2 + 52 <= e' <= e1 + e2 + 54
    /\ 2 * Z.abs (2 ^ (e' - (e1 + e2)) * Z.pos m' - Z.pos m1 * Z.pos m2)
       <= 2 ^ (e' - (e1 + e2)).
Proof.
  intros H1 H2 Hn Ho.
  assert (Hd : 104 + 1 <= Zdigits2 (Z.pos (m1 * m2)) <= 104 + 2).
  { apply Zdigits2_range; [lia |]. rewrite Pos2Z.inj_mul.
    change (2 ^ 104) with (2 ^ 52 * 2 ^ 52).
    change (2 ^ (104 + 2)) with (2 ^ 53 * 2 ^ 53). nia. }
  destruct (bra_spec false (Z.pos (m1 * m2)) (e1 + e2) loc_Exact
              (Z.pos (m1 * m2)) 1)
    as (m' & e' & E & Hm' & He' & Herr);
    try lia; [apply Inv_exact; lia |].
  exists m', e'. split; [exact E |]. split; [exact Hm' |]. split; [lia |].
  rewrite Pos2Z.inj_mul in Herr. lia.
Qed.

Lemma new_location_inv (nb q k : Z) :
  0 < nb -> 0 <= q -> 0 <= k < nb ->
  Inv (nb * q + k) nb (shr_record_of_loc q (new_location nb k)).
Proof.
  intros Hnb Hq Hk. unfold Inv. rewrite shr_m_of_loc.
  replace (nb * q + k - nb * q) with k by ring.
  split; [exact Hq |]. split; [exact Hk |].
  unfold new_location, new_location_even, new_location_odd.
  destruct (Z.even nb) eqn:Hev.
  - destruct (Z.eqb_spec k 0) as [-> | Hk0]; [reflexivity |].
    destruct (Z.compare_spec (2 * k) nb); unfold loc_ok; cbn [shr_record_of_loc shr_r shr_s]; lia.
  - destruct (Z.eqb_spec k 0) as [-> | Hk0]; [reflexivity |].
    assert (Hodd : Z.odd nb = true) by (rewrite <- Z.negb_even, Hev; reflexivity).
    apply Z.odd_spec in Hodd. destruct Hodd as [c Hc].
    destruct (Z.compare_spec (2 * k + 1) nb); unfold loc_ok; cbn [shr_record_of_loc shr_r shr_s]; lia.
Qed.

(** The quotient of two positive numbers with full mantissas. *)
Lemma div_raw (m1 m2 : positive) (e1 e2 : Z) :
  2 ^ 52 <= Z.pos m1 < 2 ^ 53 -> 2 ^ 52 <= Z.pos m2 < 2 ^ 53 ->
  -1074 <= e1 - e2 - 53 -> e1 - e2 - 53 + 2 <= 971 ->
  exists m' e',
    Num.div (S754_finite false m1 e1) (S754_finite false m2 e2)
      = S754_finite false m' e'
    /\ 2 ^ 52 <= Z.pos m' < 2 ^ 53
    /\ e1 - e2 - 53 <= e' <= e1 - e2 - 51
    /\ 2 * Z.abs (Z.pos m2 * (2 ^ (e' - (e1 - e2 - 53)) * Z.pos m')
                  - Z.pos m1 * 2 ^ 53)
       <= Z.pos m2 * 2 ^ (e' - (e1 - e2 - 53)).
Proof.
  intros H1 H2 Hn Ho.
  unfold Num.div, SFdiv, SFdiv_core_binary.
  assert (D1 : Zdigits2 (Z.pos m1) = 53)
    by (apply Zdigits2_unique; [lia | exact H1]).
  assert (D2 : Zdigits2 (Z.pos m2) = 53)
    by (apply Zdigits2_unique; [lia | exact H2]).
  rewrite D1, D2. unfold fexp, emin.
  replace (Z.min (Z.max (53 + e1 - (53 + e2) - Num.prec) (3 - Num.emax - Num.prec))
                 (e1 - e2)) with (e1 - e2 - 53)
    by (unfold Num.prec, Num.emax; lia).
  replace (e1 - e2 - (e1 - e2 - 53)) with 53 by lia.
  rewrite Z.shiftl_mul_pow2 by lia.
  pose proof (Z.div_eucl_eq (Z.pos m1 * 2 ^ 53) (Z.pos m2) ltac:(lia)) as Heq.
  pose proof (Z.mod_pos_bound (Z.pos m1 * 2 ^ 53) (Z.pos m2) ltac:(lia)) as Hr.
  unfold Z.modulo in Hr.
  destruct (Z.div_eucl (Z.pos m1 * 2 ^ 53) (Z.pos m2)) as [q r].
  assert (Hq : 2 ^ 52 <= q < 2 ^ (52 + 2)).
  { change (2 ^ (52 + 2)) with (2 * 2 ^ 53). split; nia. }
  assert (Hd := Zdigits2_range q 52 ltac:(lia) Hq).
  destruct (bra_spec false q (e1 - e2 - 53) (new_location (Z.pos m2) r)
              (Z.pos m2 * q + r) (Z.pos m2))
    as (m' & e' & E & Hm' & He' & Herr); try lia.
  { apply new_location_inv; lia. }
  exists m', e'. change Num.prec with 53. change Num.emax with 1024.
  cbn [xorb]. rewrite E. split; [reflexivity |]. split; [exact Hm' |].
  split; [lia |]. rewrite Heq. exact Herr.
Qed.

Lemma pos_iter_xO (d m : positive) :
  Z.pos (Pos.iter xO m d) = Z.pos m * 2 ^ Z.pos d.
Proof.
  induction d as [| d IH] using Pos.peano_ind.
  - change (Pos.iter xO m 1) with (m~0)%positive.
    rewrite (Pos2Z.inj_xO m). change (2 ^ 1) with 2. ring.
  - rewrite Pos.iter_succ, (Pos2Z.inj_xO (Pos.iter xO m d)), IH.
    rewrite Pos2Z.inj_succ, Z.pow_succ_r by lia. ring.
Qed.

Lemma shr_fexp_exact53 (m e : Z) :
  2 ^ 52 <= m < 2 ^ 53 -> -1074 <= e ->
  shr_fexp 53 1024 m e loc_Exact = (Build_shr_record m false false, e).
Proof.
  intros Hm He. unfold shr_fexp, fexp, emin.
  rewrite (Zdigits2_unique m 53) by (try lia; exact Hm).
  replace (Z.max (53 + e - 53) (3 - 1024 - 53) - e) with 0 by lia.
  reflexivity.
Qed.

(** A full mantissa is left as it is. *)
Lemma bra_exact (sx : bool) (m : positive) (e : Z) :
  2 ^ 52 <= Z.pos m < 2 ^ 53 -> -1074 <= e <= 971 ->
  binary_round_aux 53 1024 sx (Z.pos m) e loc_Exact = S754_finite sx m e.
Proof.
  intros Hm He. unfold binary_round_aux.
  rewrite (shr_fexp_exact53 (Z.pos m) e Hm) by lia.
  cbn [shr_m loc_of_shr_record round_nearest_even].
  rewrite (shr_fexp_exact53 (Z.pos m) e Hm) by lia.
  cbn [shr_m].
  replace (e <=? 1024 - 53) with true by (symmetry; apply Z.leb_le; lia).
  reflexivity.
Qed.

Lemma pow2_split (a b : Z) : 0 <= a -> 0 <= b -> 2 ^ (a + b) = 2 ^ a * 2 ^ b.
Proof. intros. apply Z.pow_add_r; assumption. Qed.

(** [binary_round] of a positive integer mantissa [pM] at exponent [ez], in
    terms of values scaled by 2^400. *)
Lemma binary_round_spec (sx : bool) (pM : positive) (ez : Z) :
  -400 <= Z.pos (digits2_pos pM) + ez - 53 ->
  Z.pos (digits2_pos pM) + ez - 52 <= 971 ->
  -400 <= ez ->
  exists m' e',
    binary_round 53 1024 sx pM ez = S754_finite sx m' e'
    /\ 2 ^ 52 <= Z.pos m' < 2 ^ 53
    /\ Z.pos (digits2_pos pM) + ez - 53 <= e'
       <= Z.pos (digits2_pos pM) + ez - 52
    /\ 2 * Z.abs (Z.pos m' * 2 ^ (e' + 400) - Z.pos pM * 2 ^ (ez + 400))
       <= 2 ^ (e' + 400)
    /\ (Z.pos pM < 2 ^ 53 ->
        Z.pos m' * 2 ^ (e' + 400) = Z.pos pM * 2 ^ (ez + 400)).
Proof.
  intros Hlo Hhi Hez.
  pose proof (digits2_bounds pM) as [Blo Bhi].
  set (d := Z.pos (digits2_pos pM)) in *.
  assert (Hdpos : 0 < d) by (subst d; lia).
  unfold binary_round, shl_align, fexp, emin. fold d.
  replace (Z.max (d + ez - 53) (3 - 1024 - 53) - ez) with (d - 53) by lia.
  destruct (d - 53) as [| k | k] eqn:Ek.
  - (* exactly 53 bits *)
    assert (Hd : d = 53) by lia. rewrite Hd in *.
    change (53 - 1) with 52 in Blo.
    rewrite (bra_exact sx pM ez) by (try lia; split; assumption).
    exists pM, ez. split; [reflexivity |]. split; [split; assumption |].
    split; [lia |].
    assert (0 < 2 ^ (ez + 400)) by (apply Z.pow_pos_nonneg; lia).
    split; [| reflexivity].
    replace (Z.pos pM * 2 ^ (ez + 400) - Z.pos pM * 2 ^ (ez + 400)) with 0
      by ring. simpl. lia.
  - (* more than 53 bits: round *)
    destruct (bra_spec sx (Z.pos pM) ez loc_Exact (Z.pos pM) 1)
      as (m' & e' & E & Hm' & He' & Herr); try lia.
    { apply Inv_exact. lia. }
    { cbn [Zdigits2]. fold d. lia. }
    { cbn [Zdigits2]. fold d. lia. }
    { cbn [Zdigits2]. fold d. lia. }
    cbn [Zdigits2] in He'. fold d in He'.
    exists m', e'. split; [exact E |]. split; [exact Hm' |]. split; [lia |].
    assert (Hs : 2 ^ (e' + 400) = 2 ^ (e' - ez) * 2 ^ (ez + 400)).
    { rewrite <- pow2_split by lia. f_equal. lia. }
    assert (0 < 2 ^ (ez + 400)) by (apply Z.pow_pos_nonneg; lia).
    split.
    + rewrite Hs. rewrite !Z.mul_1_l in Herr.
      set (Q := 2 ^ (ez + 400)) in *. set (P := 2 ^ (e' - ez)) in *.
      replace (Z.pos m' * (P * Q) - Z.pos pM * Q)
        with ((P * Z.pos m' - Z.pos pM) * Q) by ring.
      rewrite Z.abs_mul, (Z.abs_eq Q) by lia. nia.
    + intros Hsmall. exfalso.
      assert (2 ^ 53 <= 2 ^ (d - 1)) by (apply Z.pow_le_mono_r; lia). lia.
  - (* fewer than 53 bits: shift left *)
    set (mz := Pos.iter xO pM k).
    assert (Hmz : Z.pos mz = Z.pos pM * 2 ^ Z.pos k) by apply pos_iter_xO.
    assert (Hk : Z.pos k = 53 - d) by lia.
    assert (Hmzb : 2 ^ 52 <= Z.pos mz < 2 ^ 53).
    { rewrite Hmz, Hk.
      assert (E52 : 2 ^ 52 = 2 ^ (d - 1) * 2 ^ (53 - d)).
      { rewrite <- pow2_split by lia. f_equal. lia. }
      assert (E53 : 2 ^ 53 = 2 ^ d * 2 ^ (53 - d)).
      { rewrite <- pow2_split by lia. f_equal. lia. }
      assert (0 < 2 ^ (53 - d)) by (apply Z.pow_pos_nonneg; lia).
      rewrite E52, E53. split; nia. }
    replace (Z.max (d + ez - 53) (3 - 1024 - 53)) with (d + ez - 53) by lia.
    rewrite (bra_exact sx mz (d + ez - 53) Hmzb) by lia.
    exists mz, (d + ez - 53). split; [reflexivity |]. split; [exact Hmzb |].
    split; [lia |].
    assert (Hv : Z.pos mz * 2 ^ (d + ez - 53 + 400)
                 = Z.pos pM * 2 ^ (ez + 400)).
    { rewrite Hmz, Hk. rewrite <- Z.mul_assoc, <- pow2_split by lia.
      f_equal. f_equal. lia. }
    assert (0 < 2 ^ (d + ez - 53 + 400)) by (apply Z.pow_pos_nonneg; lia).
    split; [| intros _; exact Hv].
    rewrite Hv. replace (Z.pos pM * 2 ^ (ez + 400) - Z.pos pM * 2 ^ (ez + 400))
      with 0 by ring. simpl. lia.
Qed.

Lemma digits_le (p : positive) (X : Z) :
  Z.pos p < 2 ^ X -> Z.pos (digits2_pos p) <= X.
Proof.
  intros H. pose proof (digits2_bounds p) as [Blo _].
  destruct (Z.le_gt_cases (Z.pos (digits2_pos p)) X) as [Hle | Hgt];
    [exact Hle | exfalso].
  destruct (Z.le_gt_cases 0 X) as [HX | HX].
  - assert (2 ^ X <= 2 ^ (Z.pos (digits2_pos p) - 1))
      by (apply Z.pow_le_mono_r; lia). lia.
  - rewrite (Z.pow_neg_r 2 X) in H by lia. lia.
Qed.

Lemma digits_ge (p : positive) (Y : Z) :
  0 <= Y -> 2 ^ Y <= Z.pos p -> Y + 1 <= Z.pos (digits2_pos p).
Proof.
  intros HY H. pose proof (digits2_bounds p) as [_ Bhi].
  destruct (Z.le_gt_cases (Y + 1) (Z.pos (digits2_pos p))) as [Hle | Hgt];
    [exact Hle | exfalso].
  assert (2 ^ Z.pos (digits2_pos p) <= 2 ^ Y)
    by (apply Z.pow_le_mono_r; lia). lia.
Qed.

(** Halving is exact. *)
Lemma mul_half_exact (m : positive) (e : Z) :
  full m -> -1000 <= e <= 900 ->
  Num.mul (S754_finite false m e) Num.half = S754_finite false m (e - 1).
Proof.
  intros Hm He. unfold full in Hm.
  assert (Hp : Z.pos (m * 4503599627370496) = Z.pos m * 2 ^ 52)
    by (rewrite Pos2Z.inj_mul; reflexivity).
  assert (Hd : Zdigits2 (Z.pos (m * 4503599627370496)) = 105).
  { apply Zdigits2_unique; [lia |]. rewrite Hp.
    change (2 ^ (105 - 1)) with (2 ^ 52 * 2 ^ 52).
    change (2 ^ 105) with (2 ^ 53 * 2 ^ 52). lia. }
  destruct (bra_strong false (Z.pos (m * 4503599627370496)) (e + -53)
              loc_Exact (Z.pos (m * 4503599627370496)) 1)
    as (m' & e' & E & Hm' & He' & Herr); rewrite ?Hd; try lia.
  { apply Inv_exact. lia. }
  rewrite Hd, Hp in *. change (105 - 53) with 52 in *.
  assert (Hres : Num.mul (S754_finite false m e) Num.half
                 = S754_finite false m' e') by exact E.
  rewrite Hres.
  assert (Hcase : e' - (e + -53) = 52 \/ e' - (e + -53) = 53) by lia.
  destruct Hcase as [Hc | Hc]; rewrite Hc in Herr.
  - assert (Z.pos m' = Z.pos m) by lia.
    assert (m' = m) by (apply Pos2Z.inj; assumption). subst m'.
    f_equal. lia.
  - exfalso. change (2 ^ 53) with (2 * 2 ^ 52) in *. lia.
Qed.

(** Multiplying by 100. *)
Lemma mul_hundred_spec (m : positive) (e : Z) :
  full m -> -300 <= e <= 800 ->
  exists m' e',
    Num.mul (S754_finite false m e) Num.hundred = S754_finite false m' e'
    /\ full m' /\ e + 6 <= e' <= e + 8
    /\ 2 * Z.abs (Sc m' e' - 100 * Sc m e) <= 2 ^ (e' + 400).
Proof.
  intros Hm He. unfold full in *.
  destruct (mul_raw m 7036874417766400 e (-46) Hm ltac:(lia) ltac:(lia)
              ltac:(lia)) as (m' & e' & E & Hm' & He' & Herr).
  exists m', e'. split; [exact E |]. split; [exact Hm' |]. split; [lia |].
  unfold Sc.
  assert (E1 : 2 ^ (e' + 400) = 2 ^ (e' - (e + -46)) * 2 ^ (e + 354)).
  { rewrite <- pow2_split by lia. f_equal. lia. }
  assert (E2 : 2 ^ (e + 400) = 2 ^ 46 * 2 ^ (e + 354)).
  { rewrite <- pow2_split by lia. f_equal. lia. }
  assert (HQ : 0 < 2 ^ (e + 354)) by (apply Z.pow_pos_nonneg; lia).
  rewrite E1, E2.
  set (Q := 2 ^ (e + 354)) in *. set (P := 2 ^ (e' - (e + -46))) in *.
  change (Z.pos 7036874417766400) with (100 * 2 ^ 46) in Herr.
  replace (Z.pos m' * (P * Q) - 100 * (Z.pos m * (2 ^ 46 * Q)))
    with ((P * Z.pos m' - Z.pos m * (100 * 2 ^ 46)) * Q) by ring.
  rewrite Z.abs_mul, (Z.abs_eq Q) by lia. nia.
Qed.

(** Dividing by 100. *)
Lemma div_hundred_spec (m : positive) (e : Z) :
  full m -> -300 <= e <= 800 ->
  exists m' e',
    Num.div (S754_finite false m e) Num.hundred = S754_finite false m' e'
    /\ full m' /\ e - 7 <= e' <= e - 5
    /\ 2 * Z.abs (100 * Sc m' e' - Sc m e) <= 100 * 2 ^ (e' + 400).
Proof.
  intros Hm He. unfold full in *.
  destruct (div_raw m 7036874417766400 e (-46) Hm ltac:(lia) ltac:(lia)
              ltac:(lia)) as (m' & e' & E & Hm' & He' & Herr).
  exists m', e'. split; [exact E |]. split; [exact Hm' |]. split; [lia |].
  unfold Sc.
  replace (e - -46 - 53) with (e - 7) in Herr by lia.
  assert (E1 : 2 ^ (e' + 400) = 2 ^ (e' - (e - 7)) * 2 ^ 46 * 2 ^ (e + 347)).
  { rewrite <- !pow2_split by lia. f_equal. lia. }
  assert (E2 : 2 ^ (e + 400) = 2 ^ 53 * 2 ^ (e + 347)).
  { rewrite <- pow2_split by lia. f_equal. lia. }
  assert (HQ : 0 < 2 ^ (e + 347)) by (apply Z.pow_pos_nonneg; lia).
  rewrite E1, E2.
  set (Q := 2 ^ (e + 347)) in *. set (P := 2 ^ (e' - (e - 7))) in *.
  change (Z.pos 7036874417766400) with (100 * 2 ^ 46) in Herr.
  replace (100 * (Z.pos m' * (P * 2 ^ 46 * Q)) - Z.pos m * (2 ^ 53 * Q))
    with ((100 * 2 ^ 46 * (P * Z.pos m') - Z.pos m * 2 ^ 53) * Q) by ring.
  rewrite Z.abs_mul, (Z.abs_eq Q) by lia.
  replace (100 * (P * 2 ^ 46 * Q)) with (100 * 2 ^ 46 * P * Q) by ring.
  nia.
Qed.

Lemma shl_align_fst (m : positive) (e ez : Z) :
  ez <= e -> Z.pos (fst (shl_align m e ez)) = Z.pos m * 2 ^ (e - ez).
Proof.
  intros H. unfold shl_align.
  destruct (ez - e) as [| p | p] eqn:Ed.
  - replace (e - ez) with 0 by lia. simpl fst. change (2 ^ 0) with 1. lia.
  - lia.
  - simpl fst. rewrite pos_iter_xO. f_equal. f_equal. lia.
Qed.

Lemma Sc_aligned (m : positive) (e ez : Z) :
  -400 <= ez <= e ->
  Z.pos m * 2 ^ (e - ez) * 2 ^ (ez + 400) = Sc m e.
Proof.
  intros H. unfold Sc. rewrite <- Z.mul_assoc, <- pow2_split by lia.
  f_equal. f_equal. lia.
Qed.

(** The sum of two positive numbers with full mantissas. *)
Lemma add_spec (m1 m2 : positive) (e1 e2 : Z) :
  full m1 -> full m2 -> -300 <= e1 <= 800 -> -300 <= e2 <= 800 ->
  exists m' e',
    Num.add (S754_finite false m1 e1) (S754_finite false m2 e2)
      = S754_finite false m' e'
    /\ full m' /\ Z.min e1 e2 <= e' <= Z.max e1 e2 + 2
    /\ 2 * Z.abs (Sc m' e' - (Sc m1 e1 + Sc m2 e2)) <= 2 ^ (e' + 400).
Proof.
  intros H1 H2 He1 He2. unfold full in *.
  unfold Num.add, SFadd. cbn [cond_Zopp].
  set (ez := Z.min e1 e2).
  assert (Ha := shl_align_fst m1 e1 ez ltac:(subst ez; lia)).
  assert (Hb := shl_align_fst m2 e2 ez ltac:(subst ez; lia)).
  assert (Hsa := Sc_aligned m1 e1 ez ltac:(subst ez; lia)).
  assert (Hsb := Sc_aligned m2 e2 ez ltac:(subst ez; lia)).
  rewrite <- Ha in Hsa. rewrite <- Hb in Hsb.
  assert (P1 : 1 <= 2 ^ (e1 - ez)) by (apply (Z.pow_le_mono_r 2 0); subst ez; lia).
  assert (P2 : 1 <= 2 ^ (e2 - ez)) by (apply (Z.pow_le_mono_r 2 0); subst ez; lia).
  assert (Q1 : 2 ^ (e1 - ez) <= 2 ^ (Z.max e1 e2 - ez))
    by (apply Z.pow_le_mono_r; subst ez; lia).
  assert (Q2 : 2 ^ (e2 - ez) <= 2 ^ (Z.max e1 e2 - ez))
    by (apply Z.pow_le_mono_r; subst ez; lia).
  set (a := Z.pos (fst (shl_align m1 e1 ez))) in *.
  set (b := Z.pos (fst (shl_align m2 e2 ez))) in *.
  assert (HM : 2 ^ 52 <= a + b < 2 ^ (54 + (Z.max e1 e2 - ez))).
  { rewrite pow2_split by (subst ez; lia). change (2 ^ 54) with (2 * 2 ^ 53).
    split; nia. }
  destruct (a + b) as [| pM | pM] eqn:EM; try lia.
  cbn [binary_normalize].
  assert (D1 := digits_ge pM 52 ltac:(lia) ltac:(lia)).
  assert (D2 := digits_le pM _ (proj2 HM)).
  destruct (binary_round_spec false pM ez)
    as (m' & e' & E & Hm' & He' & Herr & _); try (subst ez; lia).
  exists m', e'. split; [exact E |]. split; [exact Hm' |].
  split; [subst ez; lia |].
  rewrite <- Hsa, <- Hsb. unfold Sc in *.
  replace (a * 2 ^ (ez + 400) + b * 2 ^ (ez + 400))
    with (Z.pos pM * 2 ^ (ez + 400)) by (rewrite <- EM; ring).
  exact Herr.
Qed.

(** A positive difference of two positive numbers with full mantissas. *)
Lemma sub_pos_spec (m1 m2 : positive) (e1 e2 : Z) :
  full m1 -> full m2 -> -300 <= e1 <= 800 -> -300 <= e2 <= 800 ->
  Sc m2 e2 < Sc m1 e1 ->
  exists m' e',
    Num.sub (S754_finite false m1 e1) (S754_finite false m2 e2)
      = S754_finite false m' e'
    /\ full m' /\ Z.min e1 e2 - 52 <= e' <= Z.max e1 e2 + 2
    /\ 2 * Z.abs (Sc m' e' - (Sc m1 e1 - Sc m2 e2)) <= 2 ^ (e' + 400).
Proof.
  intros H1 H2 He1 He2 Hlt. unfold full in *.
  unfold Num.sub, SFsub. cbn [cond_Zopp].
  set (ez := Z.min e1 e2).
  assert (Ha := shl_align_fst m1 e1 ez ltac:(subst ez; lia)).
  assert (Hb := shl_align_fst m2 e2 ez ltac:(subst ez; lia)).
  assert (Hsa := Sc_aligned m1 e1 ez ltac:(subst ez; lia)).
  assert (Hsb := Sc_aligned m2 e2 ez ltac:(subst ez; lia)).
  rewrite <- Ha in Hsa. rewrite <- Hb in Hsb.
  assert (Q1 : 2 ^ (e1 - ez) <= 2 ^ (Z.max e1 e2 - ez))
    by (apply Z.pow_le_mono_r; subst ez; lia).
  assert (HQ : 0 < 2 ^ (ez + 400))
    by (apply Z.pow_pos_nonneg; subst ez; lia).
  set (a := Z.pos (fst (shl_align m1 e1 ez))) in *.
  set (b := Z.pos (fst (shl_align m2 e2 ez))) in *.
  assert (Hb0 : 0 < b) by (subst b; lia).
  assert (HM : 0 < a - b < 2 ^ (54 + (Z.max e1 e2 - ez))).
  { rewrite pow2_split by (subst ez; lia). change (2 ^ 54) with (2 * 2 ^ 53).
    rewrite <- Hsa, <- Hsb in Hlt. split; nia. }
  destruct (a - b) as [| pM | pM] eqn:EM; try lia.
  cbn [binary_normalize].
  assert (D2 := digits_le pM _ (proj2 HM)).
  assert (D1 : 0 < Z.pos (digits2_pos pM)) by lia.
  destruct (binary_round_spec false pM ez)
    as (m' & e' & E & Hm' & He' & Herr & _); try (subst ez; lia).
  exists m', e'. split; [exact E |]. split; [exact Hm' |].
  split; [subst ez; lia |].
  rewrite <- Hsa, <- Hsb. unfold Sc in *.
  replace (a * 2 ^ (ez + 400) - b * 2 ^ (ez + 400))
    with (Z.pos pM * 2 ^ (ez + 400)) by (rewrite <- EM; ring).
  exact Herr.
Qed.

(** A positive integer below 2^53 is a number, exactly. *)
Lemma of_Z_spec (n : Z) :
  0 < n < 2 ^ 53 ->
  exists m e,
    Num.of_Z n = S754_finite false m e
    /\ full m /\ -52 <= e <= 1 /\ Sc m e = n * 2 ^ 400.
Proof.
  intros Hn. destruct n as [| p | p]; try lia.
  unfold Num.of_Z. cbn [binary_normalize].
  assert (D2 := digits_le p 53 (proj2 Hn)).
  assert (D1 : 0 < Z.pos (digits2_pos p)) by lia.
  destruct (binary_round_spec false p 0)
    as (m' & e' & E & Hm' & He' & _ & Hex); try lia.
  exists m', e'. split; [exact E |]. split; [exact Hm' |]. split; [lia |].
  unfold Sc. rewrite (Hex (proj2 Hn)). reflexivity.
Qed.

(** [Math.round] of a positive number below 2^52 or so. *)
Lemma Math_round_spec (m : positive) (e : Z) :
  -400 <= e < 0 ->
  (2 * Num.round_half_up false m e - 1) * 2 ^ 400 <= 2 * Sc m e
  /\ 2 * Sc m e < (2 * Num.round_half_up false m e + 1) * 2 ^ 400.
Proof.
  intros He. unfold Num.round_half_up, Num.signed, Sc.
  replace (0 <=? e) with false by (symmetry; apply Z.leb_gt; lia).
  assert (HD : 0 < 2 ^ (- e)) by (apply Z.pow_pos_nonneg; lia).
  rewrite (Z.pow_add_r 2 (- e) 1) by lia. change (2 ^ 1) with 2.
  assert (HK : 2 ^ 400 = 2 ^ (- e) * 2 ^ (e + 400)).
  { rewrite <- pow2_split by lia. f_equal. lia. }
  assert (HQ : 0 < 2 ^ (e + 400)) by (apply Z.pow_pos_nonneg; lia).
  rewrite HK.
  set (D := 2 ^ (- e)) in *. set (Q := 2 ^ (e + 400)) in *.
  assert (Hdiv := Z.div_mod (2 * Z.pos m + D) (D * 2) ltac:(lia)).
  assert (Hmod := Z.mod_pos_bound (2 * Z.pos m + D) (D * 2) ltac:(lia)).
  set (c := (2 * Z.pos m + D) / (D * 2)) in *.
  split; nia.
Qed.

Lemma Math_round_value (m : positive) (e : Z) :
  Num.round_half_up false m e <> 0 ->
  Num.Math_round (S754_finite false m e)
  = Num.of_Z (Num.round_half_up false m e).
Proof.
  intros H. unfold Num.Math_round.
  destruct (Z.eqb_spec (Num.round_half_up false m e) 0); [contradiction |].
  reflexivity.
Qed.

Lemma Sc_lower (m : positive) (e : Z) :
  full m -> -400 <= e -> 2 ^ 52 * 2 ^ (e + 400) <= Sc m e < 2 ^ 53 * 2 ^ (e + 400).
Proof.
  intros Hm He. unfold Sc, full in *.
  assert (0 < 2 ^ (e + 400)) by (apply Z.pow_pos_nonneg; lia). split; nia.
Qed.

(** Two numbers that differ by at most 1e-9 pass the test of the
    tolerance. *)
Lemma within_tolerance_close (m1 m2 : positive) (e1 e2 : Z) :
  full m1 -> full m2 -> -82 <= e1 <= 800 -> -82 <= e2 <= 800 ->
  Z.abs (Sc m1 e1 - Sc m2 e2) <= 4835703278458517 * 2 ^ 318 ->
  Spec.within_tolerance (S754_finite false m1 e1) (S754_finite false m2 e2)
  = true.
Proof.
  intros H1 H2 He1 He2 Hclose. unfold full in *.
  unfold Spec.within_tolerance, Num.sub, SFsub. cbn [cond_Zopp].
  set (ez := Z.min e1 e2).
  assert (Ha := shl_align_fst m1 e1 ez ltac:(subst ez; lia)).
  assert (Hb := shl_align_fst m2 e2 ez ltac:(subst ez; lia)).
  assert (Hsa := Sc_aligned m1 e1 ez ltac:(subst ez; lia)).
  assert (Hsb := Sc_aligned m2 e2 ez ltac:(subst ez; lia)).
  rewrite <- Ha in Hsa. rewrite <- Hb in Hsb.
  assert (HQ : 0 < 2 ^ (ez + 400))
    by (apply Z.pow_pos_nonneg; subst ez; lia).
  assert (HQ2 : 2 ^ 318 <= 2 ^ (ez + 400))
    by (apply Z.pow_le_mono_r; subst ez; lia).
  set (a := Z.pos (fst (shl_align m1 e1 ez))) in *.
  set (b := Z.pos (fst (shl_align m2 e2 ez))) in *.
  rewrite <- Hsa, <- Hsb in Hclose.
  replace (a * 2 ^ (ez + 400) - b * 2 ^ (ez + 400))
    with ((a - b) * 2 ^ (ez + 400)) in Hclose by ring.
  rewrite Z.abs_mul, (Z.abs_eq (2 ^ (ez + 400))) in Hclose by lia.
  assert (Hsmall : Z.abs (a - b) < 2 ^ 53).
  { change (2 ^ 53) with 9007199254740992. nia. }
  assert (Hfin : forall s pM, Z.pos pM = Z.abs (a - b) ->
    Num.leb (Num.abs (binary_round Num.prec Num.emax s pM ez)) Spec.tolerance
    = true).
  { intros s pM HpM.
    assert (D2 := digits_le pM 53 ltac:(lia)).
    assert (D1 : 0 < Z.pos (digits2_pos pM)) by lia.
    destruct (binary_round_spec s pM ez)
      as (m' & e' & E & Hm' & He' & _ & Hex); try (subst ez; lia).
    change Num.prec with 53. change Num.emax with 1024. rewrite E.
    specialize (Hex ltac:(lia)). rewrite HpM in Hex.
    unfold Num.abs, SFabs, Num.leb, SFleb, Spec.tolerance, SFcompare.
    destruct (Z.compare_spec e' (-82)) as [Heq | Hlt | Hgt].
    - subst e'. change (-82 + 400) with 318 in Hex.
      rewrite Pos.compare_cont_spec. cbn [Pos.switch_Eq].
      destruct (Pos.compare_spec m' 4835703278458517) as [-> | Hl | Hg];
        try reflexivity.
      exfalso. apply Pos2Z.pos_lt_pos in Hg.
      assert (0 < 2 ^ 318) by (apply Z.pow_pos_nonneg; lia). nia.
    - reflexivity.
    - exfalso.
      assert (2 ^ 319 <= 2 ^ (e' + 400)) by (apply Z.pow_le_mono_r; lia).
      change (2 ^ 319) with (2 * 2 ^ 318) in *.
      assert (0 < 2 ^ 318) by (apply Z.pow_pos_nonneg; lia).
      change (2 ^ 52) with 4503599627370496 in *. nia. }
  destruct (a - b) as [| pM | pM] eqn:EM.
  - reflexivity.
  - cbn [binary_normalize]. apply Hfin. reflexivity.
  - cbn [binary_normalize]. apply Hfin. reflexivity.
Qed.

Lemma cents_spec (c : Z) :
  0 < c < 2 ^ 53 ->
  exists m e,
    Spec.cents c = S754_finite false m e
    /\ full m /\ -59 <= e <= -4
    /\ 2 * Z.abs (100 * Sc m e - c * 2 ^ 400) <= 100 * 2 ^ (e + 400).
Proof.
  intros Hc. unfold Spec.cents.
  destruct (of_Z_spec c Hc) as (m0 & e0 & E0 & Hm0 & He0 & Hs0).
  destruct (div_hundred_spec m0 e0 Hm0 ltac:(lia))
    as (m & e & E & Hm & He & Herr).
  exists m, e. rewrite E0, E. split; [reflexivity |]. split; [exact Hm |].
  split; [lia |]. rewrite <- Hs0. exact Herr.
Qed.

(** The unit in the last place of a number below 2^X (scaled). *)
Lemma ulp_bound (m : positive) (e X : Z) :
  full m -> -400 <= e -> Sc m e < 2 ^ X ->
  e <= X - 453 /\ 2 ^ (e + 400) <= 2 ^ (X - 53).
Proof.
  intros Hm He Hlt. destruct (Sc_lower m e Hm He) as [Hlo _].
  rewrite <- pow2_split in Hlo by lia.
  assert (Hp : 2 ^ (52 + (e + 400)) < 2 ^ X) by lia.
  assert (HX : 0 <= X).
  { destruct (Z.le_gt_cases 0 X); [assumption |].
    rewrite (Z.pow_neg_r 2 X) in Hp by lia.
    assert (0 < 2 ^ (52 + (e + 400))) by (apply Z.pow_pos_nonneg; lia). lia. }
  apply Z.pow_lt_mono_r_iff in Hp; [| lia | lia].
  split; [lia |]. apply Z.pow_le_mono_r; lia.
Qed.

(** A number of at least 2^Y (scaled) is a multiple of 2^(Y-52). *)
Lemma grid (m : positive) (e Y : Z) :
  full m -> -400 <= e -> 52 <= Y -> 2 ^ Y <= Sc m e ->
  Y - 452 <= e /\ exists g, Sc m e = g * 2 ^ (Y - 52).
Proof.
  intros Hm He HY Hge. destruct (Sc_lower m e Hm He) as [_ Hhi].
  rewrite <- pow2_split in Hhi by lia.
  assert (Hp : 2 ^ Y < 2 ^ (53 + (e + 400))) by lia.
  apply Z.pow_lt_mono_r_iff in Hp; [| lia | lia].
  split; [lia |].
  exists (Z.pos m * 2 ^ (e + 400 - (Y - 52))). unfold Sc.
  rewrite <- Z.mul_assoc, <- pow2_split by lia. f_equal. f_equal. lia.
Qed.

Lemma Sc_pos (m : positive) (e : Z) : -400 <= e -> 0 < Sc m e.
Proof.
  intros He. unfold Sc.
  assert (0 < 2 ^ (e + 400)) by (apply Z.pow_pos_nonneg; lia). nia.
Qed.

Lemma ulp_rel (m : positive) (e : Z) :
  full m -> -400 <= e -> 2 ^ 52 * 2 ^ (e + 400) <= Sc m e.
Proof. intros Hm He. apply Sc_lower; assumption. Qed.

(** The sum of the amounts of [c1] and [c2] cents against the amount of
    [c1 + c2] cents. *)
Lemma sum_of_cents_close (c1 c2 : Z) :
  8 <= c1 -> 8 <= c2 ->
  c1 + c2 <= 419430399
  \/ (419430401 <= c1 + c2 <= 838860797
      /\ c1 <= 419430399 /\ c2 <= 419430399) ->
  Spec.within_tolerance (Num.add (Spec.cents c1) (Spec.cents c2))
                        (Spec.cents (c1 + c2)) = true.
Proof.
  intros Hc1 Hc2 Hzone.
  assert (B1 : 0 < c1 < 2 ^ 53) by (pow_num 53; lia).
  assert (B2 : 0 < c2 < 2 ^ 53) by (pow_num 53; lia).
  assert (B3 : 0 < c1 + c2 < 2 ^ 53) by (pow_num 53; lia).
  destruct (cents_spec c1 B1) as (ma & ea & Ea & Fa & Xa & Ha).
  destruct (cents_spec c2 B2) as (mr & er & Er & Fr & Xr & Hr).
  destruct (cents_spec (c1 + c2) B3) as (mA & eA & EA & FA & XA & HA).
  rewrite Ea, Er, EA.
  destruct (add_spec ma mr ea er Fa Fr ltac:(lia) ltac:(lia))
    as (mS & eS & ES & FS & XS & HS).
  rewrite ES.
  apply within_tolerance_close; try assumption; try lia.
  assert (Ra := ulp_rel ma ea Fa ltac:(lia)).
  assert (Rr := ulp_rel mr er Fr ltac:(lia)).
  assert (RA := ulp_rel mA eA FA ltac:(lia)).
  assert (RS := ulp_rel mS eS FS ltac:(lia)).
  assert (Pa : 0 < 2 ^ (ea + 400)) by (apply Z.pow_pos_nonneg; lia).
  assert (Pr : 0 < 2 ^ (er + 400)) by (apply Z.pow_pos_nonneg; lia).
  assert (PA : 0 < 2 ^ (eA + 400)) by (apply Z.pow_pos_nonneg; lia).
  assert (PS : 0 < 2 ^ (eS + 400)) by (apply Z.pow_pos_nonneg; lia).
  destruct Hzone as [Hz | (Hz & Hz1 & Hz2)].
  - (* below 2^22 *)
    assert (La : Sc ma ea < 2 ^ 422) by (pow_num 422; pow_num 400; pow_num 52; lia).
    assert (Lr : Sc mr er < 2 ^ 422) by (pow_num 422; pow_num 400; pow_num 52; lia).
    assert (LA : Sc mA eA < 2 ^ 422) by (pow_num 422; pow_num 400; pow_num 52; lia).
    destruct (ulp_bound ma ea 422 Fa ltac:(lia) La) as [_ Ua].
    destruct (ulp_bound mr er 422 Fr ltac:(lia) Lr) as [_ Ur].
    destruct (ulp_bound mA eA 422 FA ltac:(lia) LA) as [_ UA].
    change (422 - 53) with 369 in *.
    assert (LS : Sc mS eS < 2 ^ 422)
      by (pow_num 422; pow_num 400; pow_num 52; pow_num 369; lia).
    destruct (ulp_bound mS eS 422 FS ltac:(lia) LS) as [_ US].
    change (422 - 53) with 369 in *.
    pow_num 400; pow_num 369; pow_num 318. lia.
  - (* between 2^22 and 2^23 *)
    assert (La : Sc ma ea < 2 ^ 422) by (pow_num 422; pow_num 400; pow_num 52; lia).
    assert (Lr : Sc mr er < 2 ^ 422) by (pow_num 422; pow_num 400; pow_num 52; lia).
    assert (LA : Sc mA eA < 2 ^ 423) by (pow_num 423; pow_num 400; pow_num 52; lia).
    destruct (ulp_bound ma ea 422 Fa ltac:(lia) La) as [_ Ua].
    destruct (ulp_bound mr er 422 Fr ltac:(lia) Lr) as [_ Ur].
    destruct (ulp_bound mA eA 423 FA ltac:(lia) LA) as [_ UA].
    change (422 - 53) with 369 in *. change (423 - 53) with 370 in *.
    assert (LS : Sc mS eS < 2 ^ 423)
      by (pow_num 423; pow_num 400; pow_num 52; pow_num 369; lia).
    destruct (ulp_bound mS eS 423 FS ltac:(lia) LS) as [_ US].
    change (423 - 53) with 370 in *.
    assert (GA : 2 ^ 422 <= Sc mA eA)
      by (pow_num 422; pow_num 400; pow_num 370; lia).
    assert (GS : 2 ^ 422 <= Sc mS eS)
      by (pow_num 422; pow_num 400; pow_num 370; pow_num 369; lia).
    destruct (grid mA eA 422 FA ltac:(lia) ltac:(lia) GA) as [_ [gA EgA]].
    destruct (grid mS eS 422 FS ltac:(lia) ltac:(lia) GS) as [_ [gS EgS]].
    change (422 - 52) with 370 in *.
    rewrite EgA, EgS in *.
    pow_num 400; pow_num 370; pow_num 369; pow_num 318. lia.
Qed.

Lemma Sc_half (m : positive) (e : Z) : -399 <= e -> 2 * Sc m (e - 1) = Sc m e.
Proof.
  intros He. unfold Sc. replace (e + 400) with (1 + (e - 1 + 400)) by lia.
  rewrite (pow2_split 1) by lia. change (2 ^ 1) with 2. ring.
Qed.

(** The amounts of a whole number of cents: the advance is the half of it
    rounded to a whole cent, up or down, the remainder is the rest, and the
    amount rounded to two decimals is the amount itself. *)
Lemma cents_amounts (n : Z) :
  16 <= n <= 838860800 ->
  exists c1,
    n - 1 <= 2 * c1 <= n + 1
    /\ App.aici (App.amounts (Spec.cents n)) = Spec.cents c1
    /\ App.reste (App.amounts (Spec.cents n)) = Spec.cents (n - c1)
    /\ Spec.round_2dp_binary64 (Spec.cents n) = Spec.cents n.
Proof.
  intros Hn.
  assert (B : 0 < n < 2 ^ 53) by (pow_num 53; lia).
  destruct (cents_spec n B) as (mA & eA & EA & FA & XA & HA).
  assert (RA := ulp_rel mA eA FA ltac:(lia)).
  assert (PA : 0 < 2 ^ (eA + 400)) by (apply Z.pow_pos_nonneg; lia).
  assert (LA : Sc mA eA < 2 ^ 424)
    by (pow_num 424; pow_num 400; pow_num 52; lia).
  destruct (ulp_bound mA eA 424 FA ltac:(lia) LA) as [_ UA].
  change (424 - 53) with 371 in UA.
  (* the advance *)
  assert (Eh := mul_half_exact mA eA FA ltac:(lia)).
  assert (Sh := Sc_half mA eA ltac:(lia)).
  destruct (mul_hundred_spec mA (eA - 1) FA ltac:(lia))
    as (mt & et & Et & Ft & Xt & Ht).
  assert (Rt := ulp_rel mt et Ft ltac:(lia)).
  assert (Pt : 0 < 2 ^ (et + 400)) by (apply Z.pow_pos_nonneg; lia).
  assert (Lt : Sc mt et < 2 ^ 431)
    by (pow_num 431; pow_num 424; pow_num 52; lia).
  destruct (ulp_bound mt et 431 Ft ltac:(lia) Lt) as [Xt' Ut].
  change (431 - 53) with 378 in Ut.
  destruct (Math_round_spec mt et ltac:(lia)) as [C1lo C1hi].
  set (c1 := Num.round_half_up false mt et) in *.
  assert (Hc1 : n - 1 <= 2 * c1 <= n + 1)
    by (pow_num 400; pow_num 378; pow_num 371; lia).
  assert (Ec1 : Num.Math_round (S754_finite false mt et) = Num.of_Z c1)
    by (apply Math_round_value; fold c1; lia).
  assert (Eaici : App.aici (App.amounts (Spec.cents n)) = Spec.cents c1).
  { unfold App.amounts. cbn [App.aici]. rewrite EA, Eh, Et, Ec1.
    reflexivity. }
  (* the remainder *)
  assert (Bc : 0 < c1 < 2 ^ 53) by (pow_num 53; lia).
  destruct (cents_spec c1 Bc) as (ma & ea & Ea & Fa & Xa & Ha).
  assert (Ra := ulp_rel ma ea Fa ltac:(lia)).
  assert (Pa : 0 < 2 ^ (ea + 400)) by (apply Z.pow_pos_nonneg; lia).
  assert (La : Sc ma ea < 2 ^ 424)
    by (pow_num 424; pow_num 400; pow_num 52; lia).
  destruct (ulp_bound ma ea 424 Fa ltac:(lia) La) as [_ Ua].
  change (424 - 53) with 371 in Ua.
  assert (Hlt : Sc ma ea < Sc mA eA)
    by (pow_num 400; pow_num 371; lia).
  destruct (sub_pos_spec mA ma eA ea FA Fa ltac:(lia) ltac:(lia) Hlt)
    as (md & ed & Ed & Fd & Xd & Hd).
  assert (Rd := ulp_rel md ed Fd ltac:(lia)).
  assert (Pd : 0 < 2 ^ (ed + 400)) by (apply Z.pow_pos_nonneg; lia).
  assert (Ld : Sc md ed < 2 ^ 424)
    by (pow_num 424; pow_num 52; lia).
  destruct (ulp_bound md ed 424 Fd ltac:(lia) Ld) as [_ Ud].
  change (424 - 53) with 371 in Ud.
  destruct (mul_hundred_spec md ed Fd ltac:(lia))
    as (mu & eu & Eu & Fu & Xu & Hu).
  assert (Ru := ulp_rel mu eu Fu ltac:(lia)).
  assert (Pu : 0 < 2 ^ (eu + 400)) by (apply Z.pow_pos_nonneg; lia).
  assert (Lu : Sc mu eu < 2 ^ 431)
    by (pow_num 431; pow_num 424; pow_num 52; lia).
  destruct (ulp_bound mu eu 431 Fu ltac:(lia) Lu) as [Xu' Uu].
  change (431 - 53) with 378 in Uu.
  destruct (Math_round_spec mu eu ltac:(lia)) as [C2lo C2hi].
  set (c2 := Num.round_half_up false mu eu) in *.
  assert (Hc2 : c2 = n - c1)
    by (pow_num 400; pow_num 378; pow_num 371; lia).
  assert (Ec2 : Num.Math_round (S754_finite false mu eu) = Num.of_Z c2)
    by (apply Math_round_value; fold c2; lia).
  assert (Ereste : App.reste (App.amounts (Spec.cents n))
                   = Spec.cents (n - c1)).
  { unfold App.amounts. cbn [App.reste]. rewrite EA, Eh, Et, Ec1.
    change (Num.div (Num.of_Z c1) Num.hundred) with (Spec.cents c1).
    rewrite Ea, Ed, Eu, Ec2, Hc2. reflexivity. }
  (* the amount rounded to two decimals *)
  destruct (mul_hundred_spec mA eA FA ltac:(lia))
    as (mv & ev & Ev & Fv & Xv & Hv).
  assert (Rv := ulp_rel mv ev Fv ltac:(lia)).
  assert (Pv : 0 < 2 ^ (ev + 400)) by (apply Z.pow_pos_nonneg; lia).
  assert (Lv : Sc mv ev < 2 ^ 431)
    by (pow_num 431; pow_num 424; pow_num 52; lia).
  destruct (ulp_bound mv ev 431 Fv ltac:(lia) Lv) as [Xv' Uv].
  change (431 - 53) with 378 in Uv.
  destruct (Math_round_spec mv ev ltac:(lia)) as [C3lo C3hi].
  set (c3 := Num.round_half_up false mv ev) in *.
  assert (Hc3 : c3 = n)
    by (pow_num 400; pow_num 378; pow_num 371; lia).
  assert (Ec3 : Num.Math_round (S754_finite false mv ev) = Num.of_Z c3)
    by (apply Math_round_value; fold c3; lia).
  exists c1. split; [exact Hc1 |]. split; [exact Eaici |].
  split; [exact Ereste |].
  unfold Spec.round_2dp_binary64. rewrite EA, Ev, Ec3, Hc3. exact EA.
Qed.

Lemma cents_amounts_small (n : Z) :
  1 <= n <= 15 ->
  exists c1,
    n - 1 <= 2 * c1 <= n + 1
    /\ App.aici (App.amounts (Spec.cents n)) = Spec.cents c1
    /\ App.reste (App.amounts (Spec.cents n)) = Spec.cents (n - c1)
    /\ Spec.round_2dp_binary64 (Spec.cents n) = Spec.cents n.
Proof.
  intros Hn.
  assert (Hcases : In n [1; 2; 3; 4; 5; 6; 7; 8; 9; 10; 11; 12; 13; 14; 15])
    by (simpl; lia).
  simpl in Hcases.
  repeat (destruct Hcases as [<- | Hcases];
    [first [ exists 0; split; [lia |]; vm_compute; repeat split; fail
           | exists 1; split; [lia |]; vm_compute; repeat split; fail
           | exists 2; split; [lia |]; vm_compute; repeat split; fail
           | exists 3; split; [lia |]; vm_compute; repeat split; fail
           | exists 4; split; [lia |]; vm_compute; repeat split; fail
           | exists 5; split; [lia |]; vm_compute; repeat split; fail
           | exists 6; split; [lia |]; vm_compute; repeat split; fail
           | exists 7; split; [lia |]; vm_compute; repeat split; fail
           | exists 8; split; [lia |]; vm_compute; repeat split; fail ] |]).
  contradiction.
Qed.

Lemma whole_cents_sum (n : Z) :
  1 <= n <= 838860800 ->
  Spec.sum_matches (Spec.cents n) = true.
Proof.
  intros Hn.
  destruct (Z.le_gt_cases n 15) as [Hs | Hb].
  - apply (all_from_sound (fun k => Spec.sum_matches (Spec.cents k))
                          (Z.to_nat 15) 1).
    + vm_cast_no_check (eq_refl true).
    + rewrite Z2Nat.id; lia.
  - destruct (Z.eq_dec n 419430400) as [-> | H1]; [vm_compute; reflexivity |].
    destruct (Z.eq_dec n 838860798) as [-> | H2]; [vm_compute; reflexivity |].
    destruct (Z.eq_dec n 838860799) as [-> | H3]; [vm_compute; reflexivity |].
    destruct (Z.eq_dec n 838860800) as [-> | H4]; [vm_compute; reflexivity |].
    destruct (cents_amounts n ltac:(lia)) as (c1 & Hc1 & Ea & Er & ER).
    unfold Spec.sum_matches. rewrite Ea, Er, ER.
    replace (Spec.cents n) with (Spec.cents (c1 + (n - c1)))
      by (f_equal; lia).
    apply sum_of_cents_close; lia.
Qed.

(** * Amount texts with a numeric prefix *)

Lemma span_digits_nil_iff (s : jsstring) :
  fst (span_digits s) = [] <->
  match s with c :: _ => is_digit c = false | [] => True end.
Proof.
  destruct s as [| c r]; simpl; [tauto |].
  destruct (is_digit c); [| simpl; tauto].
  destruct (span_digits r). simpl. split; [discriminate | discriminate].
Qed.

Lemma span_digits_not_digit (s : jsstring) :
  match s with c :: _ => is_digit c = false | [] => True end ->
  span_digits s = ([], s).
Proof.
  destruct s as [| c r]; simpl; [reflexivity |]. intros ->. reflexivity.
Qed.

Lemma div_not_NaN (s1 s2 : bool) (m1 m2 : positive) (e1 e2 : Z) :
  Num.isNaN (Num.div (S754_finite s1 m1 e1) (S754_finite s2 m2 e2)) = false.
Proof.
  unfold Num.div, SFdiv, SFdiv_core_binary.
  set (a := match _ - _ - _ with Z0 => Z.pos m1 | Z.pos _ => _ | Z.neg _ => 0 end).
  assert (Ha : 0 <= a).
  { subst a. destruct (_ - _ - _) as [| p | p]; try lia.
    apply Z.shiftl_nonneg. lia. }
  assert (Hq : 0 <= fst (Z.div_eucl a (Z.pos m2))).
  { change (fst (Z.div_eucl a (Z.pos m2))) with (a / Z.pos m2).
    apply Z.div_pos; lia. }
  destruct (Z.div_eucl a (Z.pos m2)) as [q r]. simpl in Hq.
  unfold binary_round_aux.
  assert (H1 := shr_fexp_nonneg q (e1 - e2 - (e1 - e2 - 0)) loc_Exact Hq).
  clear H1.
  match goal with |- context [shr_fexp ?p ?em q ?e ?l] =>
    assert (H1 := shr_fexp_nonneg q e l Hq);
    destruct (shr_fexp p em q e l) as [r1 e1'] end.
  simpl in H1.
  match goal with |- context [shr_fexp ?p ?em ?z ?e ?l] =>
    assert (H2 := shr_fexp_nonneg z e l (round_nearest_even_nonneg _ _ H1));
    destruct (shr_fexp p em z e l) as [r2 e2'] end.
  simpl in H2.
  destruct (shr_m r2) as [| p | p]; [reflexivity | | lia].
  destruct (e2' <=? _); reflexivity.
Qed.

Lemma decimal_value_not_NaN (neg : bool) (m e : Z) :
  Num.isNaN (Parse.decimal_value neg m e) = false.
Proof.
  unfold Parse.decimal_value.
  destruct (m * 10 ^ Z.max e 0); try reflexivity. apply div_not_NaN.
Qed.

Lemma exponent_part_zero (rest : jsstring) :
  Spec.starts_exponent rest = false -> Parse.exponent_part rest = 0.
Proof.
  destruct rest as [| c r]; [reflexivity |].
  unfold Spec.starts_exponent, Parse.exponent_part.
  destruct ((c =? 101) || (c =? 69))%N; [| reflexivity].
  cbn [andb]. destruct r as [| d r1]; [reflexivity |].
  intros H. apply orb_false_elim in H. destruct H as [Hd Hs].
  destruct (d =? 45)%N eqn:E45.
  - cbn [orb andb] in Hs. destruct r1 as [| d2 r2]; [reflexivity |].
    simpl. rewrite Hs. reflexivity.
  - destruct (d =? 43)%N eqn:E43.
    + cbn [orb andb] in Hs. destruct r1 as [| d2 r2]; [reflexivity |].
      simpl. rewrite Hs. reflexivity.
    + simpl. rewrite Hd. reflexivity.
Qed.

Lemma unsigned_prefix_iff (neg : bool) (t1 : jsstring) :
  starts_with (js "Infinity") t1
  || match t1 with
     | c :: r =>
         is_digit c
         || ((c =? 46)%N && match r with d :: _ => is_digit d | [] => false end)
     | [] => false
     end = true
  <-> Num.isNaN
        (if starts_with (js "Infinity") t1 then S754_infinity neg
         else
           let '(ip, t2) := span_digits t1 in
           let '(fp, t3) :=
             match t2 with
             | c :: r => if (c =? 46)%N then span_digits r else ([], t2)
             | [] => ([], t2)
             end in
           match ip ++ fp with
           | [] => Num.NaN
           | ds => Parse.decimal_value neg (digits_value ds)
                     (Parse.exponent_part t3 - Z.of_nat (List.length fp))
           end) = false.
Proof.
  destruct (starts_with (js "Infinity") t1).
  - simpl. tauto.
  - cbn [orb]. destruct t1 as [| d r1].
    + simpl. split; discriminate.
    + cbn [span_digits]. destruct (is_digit d) eqn:Ed.
      * destruct (span_digits r1) as [ds t2].
        cbn [orb].
        match goal with |- context [let '(fp, t3) := ?X in _] =>
          destruct X as [fp t3] end.
        cbn [app]. rewrite decimal_value_not_NaN. tauto.
      * cbn [orb]. destruct (d =? 46)%N.
        -- cbn [andb]. destruct r1 as [| d2 r2].
           ++ simpl. split; discriminate.
           ++ cbn [span_digits]. destruct (is_digit d2).
              ** destruct (span_digits r2) as [fs t3]. cbn [app].
                 rewrite decimal_value_not_NaN. tauto.
              ** simpl. split; discriminate.
        -- simpl. split; discriminate.
Qed.

Lemma numeric_prefix_iff (t : jsstring) :
  Spec.has_numeric_prefix t = true <-> Num.isNaN (Parse.parseFloat t) = false.
Proof.
  unfold Spec.has_numeric_prefix, Parse.parseFloat, Spec.after_sign. cbv zeta.
  destruct (trimStart t) as [| c r].
  - simpl. split; discriminate.
  - destruct (c =? 45)%N; [apply unsigned_prefix_iff |].
    destruct (c =? 43)%N; apply unsigned_prefix_iff.
Qed.

Lemma trimStart_skips (ws s : jsstring) :
  forallb is_whitespace ws = true -> trimStart (ws ++ s) = trimStart s.
Proof.
  induction ws as [| c ws IH]; [reflexivity |].
  simpl. intros H. apply andb_prop in H. destruct H as [-> H]. auto.
Qed.

Lemma span_digits_run (ds rest : jsstring) :
  forallb is_digit ds = true ->
  match rest with c :: _ => is_digit c = false | [] => True end ->
  span_digits (ds ++ rest) = (ds, rest).
Proof.
  intros Hds Hrest. apply span_digits_app; [exact Hds |].
  destruct rest as [| c r]; [reflexivity |]. rewrite Hrest. reflexivity.
Qed.

Lemma parseFloat_literal_prefix (ws sg ip fp rest : jsstring)
      (neg dot : bool) :
  forallb is_whitespace ws = true ->
  Spec.sign_of sg = Some neg ->
  forallb is_digit ip = true ->
  forallb is_digit fp = true ->
  ip ++ fp <> [] ->
  (dot = false -> fp = []) ->
  Spec.ends_number dot rest = true ->
  Parse.parseFloat
    (ws ++ sg ++ ip ++ (if dot then 46%N :: fp else []) ++ rest)
  = Parse.decimal_value neg (digits_value (ip ++ fp))
                        (- Z.of_nat (List.length fp)).
Proof.
  intros Hws Hsg Hip Hfp Hne Hdot Hrest.
  set (tail := (if dot then 46%N :: fp else []) ++ rest).
  (* what follows the integer part does not start with a digit *)
  assert (Htail : match tail with c :: _ => is_digit c = false | [] => True end).
  { subst tail. destruct dot; [reflexivity |].
    cbn [app]. destruct rest as [| c r]; [exact I |].
    unfold Spec.ends_number in Hrest. apply andb_prop in Hrest.
    destruct Hrest as [Hrest _]. apply andb_prop in Hrest.
    destruct Hrest as [Hrest _]. apply negb_true_iff in Hrest. exact Hrest. }
  assert (Hrest_d : match rest with c :: _ => is_digit c = false | [] => True end).
  { destruct rest as [| c r]; [exact I |].
    unfold Spec.ends_number in Hrest. apply andb_prop in Hrest.
    destruct Hrest as [Hrest _]. apply andb_prop in Hrest.
    destruct Hrest as [Hrest _]. apply negb_true_iff in Hrest. exact Hrest. }
  assert (Hexp : Parse.exponent_part rest = 0).
  { apply exponent_part_zero. destruct rest as [| c r]; [reflexivity |].
    unfold Spec.ends_number in Hrest. apply andb_prop in Hrest.
    destruct Hrest as [_ Hrest]. apply negb_true_iff in Hrest. exact Hrest. }
  (* the head of the unsigned literal: a digit or the dot *)
  assert (Hhead : exists c r, ip ++ tail = c :: r
                   /\ is_whitespace c = false /\ (c =? 45)%N = false
                   /\ (c =? 43)%N = false /\ (73 =? c)%N = false).
  { destruct ip as [| c ip'].
    - destruct dot.
      + exists 46%N, (fp ++ rest). subst tail. repeat split.
      + rewrite (Hdot eq_refl) in Hne. contradiction.
    - exists c, (ip' ++ tail). split; [reflexivity |].
      simpl in Hip. apply andb_prop in Hip. destruct Hip as [Hc _].
      apply digit_is_plain. exact Hc. }
  destruct Hhead as (c & r & Hcr & Hcw & Hc45 & Hc43 & Hc73).
  (* the body of parseFloat on the unsigned literal *)
  assert (Hbody :
    (if starts_with (js "Infinity") (ip ++ tail) then S754_infinity neg
     else
       let '(ip0, t2) := span_digits (ip ++ tail) in
       let '(fp0, t3) :=
         match t2 with
         | c :: r => if (c =? 46)%N then span_digits r else ([], t2)
         | [] => ([], t2)
         end in
       match ip0 ++ fp0 with
       | [] => Num.NaN
       | ds => Parse.decimal_value neg (digits_value ds)
                 (Parse.exponent_part t3 - Z.of_nat (List.length fp0))
       end)
    = Parse.decimal_value neg (digits_value (ip ++ fp))
                          (- Z.of_nat (List.length fp))).
  { assert (HI : starts_with (js "Infinity") (ip ++ tail) = false).
    { rewrite Hcr.
      change (starts_with (js "Infinity") (c :: r))
        with ((73 =? c)%N && starts_with (js "nfinity") r).
      rewrite Hc73. reflexivity. }
    rewrite HI, (span_digits_run ip tail Hip Htail).
    subst tail. destruct dot.
    - cbn [app]. cbv beta iota. change (46 =? 46)%N with true. cbv iota.
      rewrite (span_digits_run fp rest Hfp Hrest_d), Hexp.
      destruct (ip ++ fp) as [| x xs] eqn:E; [contradiction |]. reflexivity.
    - rewrite (Hdot eq_refl) in *. cbn [app].
      destruct rest as [| c0 r0].
      + rewrite app_nil_r in *.
        destruct ip as [| x xs]; [contradiction |]. reflexivity.
      + unfold Spec.ends_number in Hrest. apply andb_prop in Hrest.
        destruct Hrest as [Hrest _]. apply andb_prop in Hrest.
        destruct Hrest as [_ Hrest]. cbn [orb] in Hrest.
        apply negb_true_iff in Hrest. cbv beta iota. rewrite Hrest, Hexp.
        rewrite app_nil_r in *.
        destruct ip as [| x xs]; [contradiction |]. reflexivity. }
  unfold Parse.parseFloat. cbv zeta.
  rewrite (trimStart_skips ws _ Hws).
  fold tail.
  destruct sg as [| s [| s2 sg']]; try discriminate.
  - injection Hsg as <-. cbn [app]. rewrite Hcr in *.
    cbn [trimStart]. rewrite Hcw, Hc45, Hc43. exact Hbody.
  - unfold Spec.sign_of in Hsg. destruct (s =? 43)%N eqn:E43.
    + injection Hsg as <-. apply N.eqb_eq in E43. subst s.
      cbn [app trimStart]. change (is_whitespace 43) with false.
      cbn [N.eqb Pos.eqb]. exact Hbody.
    + destruct (s =? 45)%N eqn:E45; [| discriminate].
      injection Hsg as <-. apply N.eqb_eq in E45. subst s.
      cbn [app trimStart]. change (is_whitespace 45) with false.
      cbn [N.eqb Pos.eqb]. exact Hbody.
Qed.

Example literal_prefix_samples :
  Parse.parseFloat (js "80EUR") = Num.of_Z 80
  /\ Parse.parseFloat (js "80.5abc") = Parse.parseFloat (js "80.5")
  /\ Parse.parseFloat (js "-3x") = Parse.parseFloat (js "-3").
Proof.
  split; [| split].
  - etransitivity.
    + apply (parseFloat_literal_prefix [] [] (js "80") [] (js "EUR") false false);
        try reflexivity. discriminate.
    + vm_compute. reflexivity.
  - etransitivity.
    + apply (parseFloat_literal_prefix [] [] (js "80") (js "5") (js "abc") false true);
      try reflexivity; discriminate.
    + vm_compute. reflexivity.
  - etransitivity.
    + apply (parseFloat_literal_prefix [] (js "-") (js "3") [] (js "x") true false);
      try reflexivity. discriminate.
    + vm_compute. reflexivity.
Qed.

(** * The markup of the preview and of the rows *)

(** ** Literals *)

Example js_code_units :
  js "<td>" = [60; 116; 100; 62]%N
  /\ js "</td>" = [60; 47; 116; 100; 62]%N
  /\ js "Transmis (d" ++ [233%N] ++ js "mo)"
     = [84; 114; 97; 110; 115; 109; 105; 115; 32; 40; 100; 233; 109; 111; 41]%N.
Proof. repeat split. Qed.

(** ** The cells of a row *)

Lemma plain_char_not_lt (c : N) :
  Spec.plain_char c = true -> (60 =? c)%N = false.
Proof.
  unfold Spec.plain_char. intros H. apply negb_true_iff in H.
  apply orb_false_elim in H. destruct H as [H _].
  apply orb_false_elim in H. destruct H as [H _].
  apply orb_false_elim in H. destruct H as [H _].
  rewrite N.eqb_sym. exact H.
Qed.

Lemma scan_cells_text (t : jsstring) :
  forall acc rest,
    Spec.plain_text t = true ->
    Spec.scan_cells (t ++ js "</td>" ++ rest) 0 (Some acc)
    = option_map (cons (rev acc ++ t)) (Spec.scan_cells rest 0 None).
Proof.
  induction t as [| c t IH]; intros acc rest Ht.
  - rewrite app_nil_r. reflexivity.
  - simpl in Ht. apply andb_prop in Ht. destruct Ht as [Hc Ht].
    change ((c :: t) ++ js "</td>" ++ rest) with (c :: t ++ js "</td>" ++ rest).
    cbn [Spec.scan_cells].
    change (starts_with (js "</td>") (c :: t ++ js "</td>" ++ rest))
      with ((60 =? c)%N && starts_with (js "/td>") (t ++ js "</td>" ++ rest)).
    rewrite (plain_char_not_lt c Hc), Hc. cbn [andb].
    assert (H := IH (c :: acc) rest Ht). cbn [rev] in H.
    rewrite <- app_assoc in H. exact H.
Qed.

Lemma scan_cells_cell (t rest : jsstring) :
  Spec.plain_text t = true ->
  Spec.cells (js "<td>" ++ t ++ js "</td>" ++ rest)
  = option_map (cons t) (Spec.cells rest).
Proof.
  intros Ht. unfold Spec.cells.
  change (Spec.scan_cells (js "<td>" ++ t ++ js "</td>" ++ rest) 0 None)
    with (Spec.scan_cells (t ++ js "</td>" ++ rest) 0 (Some [])).
  apply (scan_cells_text t [] rest Ht).
Qed.

(** Six cells of plain text are read back as they were written. *)
Lemma cells_of_row (a b c d e f : jsstring) :
  Spec.plain_text a = true -> Spec.plain_text b = true ->
  Spec.plain_text c = true -> Spec.plain_text d = true ->
  Spec.plain_text e = true -> Spec.plain_text f = true ->
  Spec.cells (js "<td>" ++ a ++ js "</td><td>" ++ b ++ js "</td><td>" ++ c
               ++ js "</td><td>" ++ d ++ js "</td><td>" ++ e
               ++ js "</td><td>" ++ f ++ js "</td>")
  = Some [a; b; c; d; e; f].
Proof.
  intros Ha Hb Hc Hd He Hf.
  change (js "<td>" ++ a ++ js "</td><td>" ++ b ++ js "</td><td>" ++ c
               ++ js "</td><td>" ++ d ++ js "</td><td>" ++ e
               ++ js "</td><td>" ++ f ++ js "</td>")
    with (js "<td>" ++ a ++ js "</td>" ++ js "<td>" ++ b ++ js "</td>"
          ++ js "<td>" ++ c ++ js "</td>" ++ js "<td>" ++ d ++ js "</td>"
          ++ js "<td>" ++ e ++ js "</td>" ++ js "<td>" ++ f ++ js "</td>" ++ []).
  rewrite (scan_cells_cell a _ Ha), (scan_cells_cell b _ Hb),
    (scan_cells_cell c _ Hc), (scan_cells_cell d _ Hd),
    (scan_cells_cell e _ He), (scan_cells_cell f _ Hf).
  reflexivity.
Qed.

(** ** The markup the script writes *)

Section Markup.

Variable EURO_format : Num.number -> jsstring.

Lemma format_nonneg (x : Num.number) :
  Spec.nonneg x = true -> App.format EURO_format x = EURO_format x.
Proof.
  unfold App.format.
  destruct x as [[] | [] | | [] m e]; try discriminate; reflexivity.
Qed.

Lemma format_positive (x : Num.number) :
  Num.ltb Num.zero x = true -> App.format EURO_format x = EURO_format x.
Proof. intros H. apply format_nonneg, positive_nonneg, H. Qed.

Lemma format_advance (A : Num.number) :
  Num.ltb Num.zero A = true ->
  App.format EURO_format (App.aici (App.amounts A))
  = EURO_format (App.aici (App.amounts A)).
Proof.
  intros HA. apply format_nonneg.
  unfold App.amounts, App.aici, Num.half, Num.hundred.
  apply div_nonneg, Math_round_nonneg, mul_nonneg, mul_nonneg.
  apply positive_nonneg. exact HA.
Qed.

(** The row of a submission, tag by tag. *)
Lemma row_markup (a b c d e f : jsstring) :
  App.td a ++ App.td b ++ App.td c ++ App.td d ++ App.td e ++ App.td f
  = js "<td>" ++ a ++ js "</td><td>" ++ b ++ js "</td><td>" ++ c
    ++ js "</td><td>" ++ d ++ js "</td><td>" ++ e
    ++ js "</td><td>" ++ f ++ js "</td>".
Proof. unfold App.td. rewrite <- !app_assoc. reflexivity. Qed.

(** What [compute] returns and writes for a positive amount, code unit by
    code unit. *)
Lemma preview_written (pg : App.Page) :
  Num.ltb Num.zero (Parse.parseFloat (App.montant pg)) = true ->
  let A := Parse.parseFloat (App.montant pg) in
  let advance :=
    Num.div (Num.Math_round (Num.mul (Num.mul A Num.half) Num.hundred))
            Num.hundred in
  let remainder :=
    Num.div (Num.Math_round (Num.mul (Num.sub A advance) Num.hundred))
            Num.hundred in
  App.compute EURO_format pg =
    (Some (App.mkCalc A advance remainder),
     App.mkPage (App.client pg) (App.prestation pg) (App.datePrest pg)
       (App.montant pg) false
       ([10; 32; 32; 32; 32; 32; 32]%N
        ++ js "<div><strong>Total TTC :</strong> " ++ EURO_format A
        ++ js "</div>"
        ++ [10; 32; 32; 32; 32; 32; 32]%N
        ++ js "<div><strong>Avance imm" ++ [233%N]
        ++ js "diate (50%) :</strong> "
        ++ EURO_format (if Num.truthy advance then advance else Num.zero)
        ++ js "</div>"
        ++ [10; 32; 32; 32; 32; 32; 32]%N
        ++ js "<div><strong>Reste " ++ [224%N]
        ++ js " charge client :</strong> "
        ++ EURO_format (if Num.truthy remainder then remainder else Num.zero)
        ++ js "</div>"
        ++ [10; 32; 32; 32; 32; 32; 32]%N
        ++ js "<small>Note : calcul d" ++ [233%N] ++ js "mo simplifi"
        ++ [233%N] ++ js ", sans plafonds ni cas particuliers.</small>"
        ++ [10; 32; 32; 32; 32]%N)
       (App.tbody pg) (App.alerts pg) (App.prints pg)).
Proof.
  intros H A advance remainder.
  rewrite (compute_shown EURO_format pg H).
  unfold App.calcZone_markup, App.amounts.
  cbn [App.calc_montant App.aici App.reste].
  rewrite (format_positive _ H). reflexivity.
Qed.

(** What an accepted submission leaves in the table and among the
    notifications, code unit by code unit. *)
Lemma row_written (now : Z) (pg : App.Page) :
  Spec.filled (App.client pg) = true ->
  Spec.filled (App.prestation pg) = true ->
  Num.ltb Num.zero (Parse.parseFloat (App.montant pg)) = true ->
  let A := Parse.parseFloat (App.montant pg) in
  let advance :=
    Num.div (Num.Math_round (Num.mul (Num.mul A Num.half) Num.hundred))
            Num.hundred in
  let d := if truthy (App.datePrest pg) then App.datePrest pg
           else slice0 10 (Clock.toISOString now) in
  let pg' := App.page_of (App.on_submit EURO_format now pg) in
  App.completion_of (App.on_submit EURO_format now pg) = App.Returned
  /\ App.tbody pg'
     = (js "<td>" ++ d ++ js "</td><td>" ++ trim (App.client pg)
        ++ js "</td><td>" ++ trim (App.prestation pg)
        ++ js "</td><td>" ++ EURO_format A
        ++ js "</td><td>" ++ EURO_format advance
        ++ js "</td><td>" ++ (js "Transmis (d" ++ [233%N] ++ js "mo)")
        ++ js "</td>") :: App.tbody pg
  /\ (App.client pg', App.prestation pg', App.datePrest pg', App.montant pg')
     = ([], [], [], [])
  /\ App.calcZone_hidden pg' = true
  /\ App.alerts pg'
     = (js "Dossier transmis (d" ++ [233%N] ++ js "mo). Aucun envoi r"
        ++ [233%N] ++ js "el " ++ [224%N] ++ js " l" ++ [8217%N]
        ++ js "URSSAF n" ++ [8217%N] ++ js "est effectu" ++ [233%N] ++ js ".")
       :: App.alerts pg.
Proof.
  intros Hc Hp Hm A advance d pg'. subst pg'.
  rewrite (submit_accepted EURO_format now pg Hc Hp Hm).
  cbn [App.completion_of App.page_of App.tbody App.client App.prestation
       App.datePrest App.montant App.calcZone_hidden App.alerts].
  split; [reflexivity |]. split; [| repeat split].
  rewrite (format_positive _ Hm), (format_advance _ Hm), row_markup.
  reflexivity.
Qed.

End Markup.

(** ** The preview *)

Lemma Math_round_rounds_half_up (x : Num.number) :
  Spec.rounds_half_up x (Num.Math_round x).
Proof.
  destruct x as [s | s | | s m e]; try reflexivity.
  unfold Spec.rounds_half_up.
  destruct (round_half_up_bounds s m e) as (q & Hq & Hlo & Hhi).
  exists (Num.round_half_up s m e), q. repeat split; assumption.
Qed.

(** The twelve amounts from 8388608.01 to 8388608.12. *)
Lemma cents_amounts_top (n : Z) :
  838860801 <= n <= 838860812 ->
  exists c1,
    n - 1 <= 2 * c1 <= n + 1
    /\ App.aici (App.amounts (Spec.cents n)) = Spec.cents c1
    /\ App.reste (App.amounts (Spec.cents n)) = Spec.cents (n - c1)
    /\ Spec.round_2dp_binary64 (Spec.cents n) = Spec.cents n.
Proof.
  intros Hn.
  destruct (Z.eq_dec n 838860801) as [-> | ?]; [try_half 838860801 |].
  destruct (Z.eq_dec n 838860802) as [-> | ?]; [try_half 838860802 |].
  destruct (Z.eq_dec n 838860803) as [-> | ?]; [try_half 838860803 |].
  destruct (Z.eq_dec n 838860804) as [-> | ?]; [try_half 838860804 |].
  destruct (Z.eq_dec n 838860805) as [-> | ?]; [try_half 838860805 |].
  destruct (Z.eq_dec n 838860806) as [-> | ?]; [try_half 838860806 |].
  destruct (Z.eq_dec n 838860807) as [-> | ?]; [try_half 838860807 |].
  destruct (Z.eq_dec n 838860808) as [-> | ?]; [try_half 838860808 |].
  destruct (Z.eq_dec n 838860809) as [-> | ?]; [try_half 838860809 |].
  destruct (Z.eq_dec n 838860810) as [-> | ?]; [try_half 838860810 |].
  destruct (Z.eq_dec n 838860811) as [-> | ?]; [try_half 838860811 |].
  destruct (Z.eq_dec n 838860812) as [-> | ?]; [try_half 838860812 |].
  lia.
Qed.

(** The advance and the remainder of a whole number of cents, and the
    amount rounded as the script rounds. *)
Lemma whole_cents_amounts (n : Z) :
  1 <= n <= 838860812 ->
  exists c, n - 1 <= 2 * c <= n + 1
    /\ App.aici (App.amounts (Spec.cents n)) = Spec.cents c
    /\ App.reste (App.amounts (Spec.cents n)) = Spec.cents (n - c)
    /\ Spec.round_2dp_binary64 (Spec.cents n) = Spec.cents n.
Proof.
  intros Hn. destruct (Z_lt_le_dec n 16) as [Hs | Hb].
  - apply cents_amounts_small. lia.
  - destruct (Z_lt_le_dec 838860800 n) as [Ht | Hm].
    + apply cents_amounts_top. lia.
    + apply cents_amounts. lia.
Qed.

Lemma whole_cents_sum_matches (n : Z) :
  1 <= n <= 838860812 -> Spec.sum_matches (Spec.cents n) = true.
Proof.
  intros Hn. destruct (Z_lt_le_dec 838860800 n) as [Ht | Hm].
  - apply (all_from_sound (fun k => Spec.sum_matches (Spec.cents k))
                          (Z.to_nat 12) 838860801).
    + vm_cast_no_check (eq_refl true).
    + rewrite Z2Nat.id; lia.
  - apply whole_cents_sum. lia.
Qed.

Section PreviewMarkup.

Variable EURO_format : Num.number -> jsstring.

(** C3, as the script has it: for every amount text that parses to a value
    above 0, [compute] returns the triple (total, advance, remainder) with
    advance = Math.round(total x 0.5 x 100) / 100 and remainder =
    Math.round((total - advance) x 100) / 100, every operation rounded to
    binary64 and [Math.round] taking the scaled, already rounded product to
    the nearest integer, half up; it writes the block with the three
    formatted values into the preview area and shows it.  For a total of n
    cents, n up to 838860812, the advance is c cents with 2c within 1 of n
    and the remainder is n - c cents. *)
Theorem compute_positive_amount (pg : App.Page) :
  Num.ltb Num.zero (Parse.parseFloat (App.montant pg)) = true ->
  let A := Parse.parseFloat (App.montant pg) in
  let scaled_half := Num.mul (Num.mul A Num.half) Num.hundred in
  let advance := Num.div (Num.Math_round scaled_half) Num.hundred in
  let scaled_rest := Num.mul (Num.sub A advance) Num.hundred in
  let remainder := Num.div (Num.Math_round scaled_rest) Num.hundred in
  App.compute EURO_format pg =
    (Some (App.mkCalc A advance remainder),
     App.mkPage (App.client pg) (App.prestation pg) (App.datePrest pg)
       (App.montant pg) false
       ([10; 32; 32; 32; 32; 32; 32]%N
        ++ js "<div><strong>Total TTC :</strong> " ++ EURO_format A
        ++ js "</div>"
        ++ [10; 32; 32; 32; 32; 32; 32]%N
        ++ js "<div><strong>Avance imm" ++ [233%N]
        ++ js "diate (50%) :</strong> "
        ++ EURO_format (if Num.truthy advance then advance else Num.zero)
        ++ js "</div>"
        ++ [10; 32; 32; 32; 32; 32; 32]%N
        ++ js "<div><strong>Reste " ++ [224%N]
        ++ js " charge client :</strong> "
        ++ EURO_format (if Num.truthy remainder then remainder else Num.zero)
        ++ js "</div>"
        ++ [10; 32; 32; 32; 32; 32; 32]%N
        ++ js "<small>Note : calcul d" ++ [233%N] ++ js "mo simplifi"
        ++ [233%N] ++ js ", sans plafonds ni cas particuliers.</small>"
        ++ [10; 32; 32; 32; 32]%N)
       (App.tbody pg) (App.alerts pg) (App.prints pg))
  /\ Spec.rounds_half_up scaled_half (Num.Math_round scaled_half)
  /\ Spec.rounds_half_up scaled_rest (Num.Math_round scaled_rest)
  /\ (forall n, 1 <= n <= 838860812 -> A = Spec.cents n ->
        exists c, n - 1 <= 2 * c <= n + 1
          /\ advance = Spec.cents c /\ remainder = Spec.cents (n - c)).
Proof.
  intros H A scaled_half advance scaled_rest remainder.
  split; [| split; [| split]].
  - apply (preview_written EURO_format pg H).
  - apply Math_round_rounds_half_up.
  - apply Math_round_rounds_half_up.
  - intros n Hn HA.
    destruct (whole_cents_amounts n Hn) as (c & Hc & Ha & Hr & _).
    exists c. split; [exact Hc |].
    rewrite <- HA in Ha, Hr. split; [exact Ha | exact Hr].
Qed.

End PreviewMarkup.

Lemma compute_positive_amount_witness :
  Num.ltb Num.zero
    (Parse.parseFloat
       (App.montant (Spec.filled_form (js "Mme Dupont") (js "Jardinage")
                                      (js "2025-10-12") (js "99.99"))))
    = true
  /\ App.compute Spec.french_format
       (Spec.filled_form (js "Mme Dupont") (js "Jardinage")
                         (js "2025-10-12") (js "99.99"))
     = (Some (App.mkCalc (Spec.cents 9999) (Spec.cents 5000) (Spec.cents 4999)),
        App.mkPage (js "Mme Dupont") (js "Jardinage") (js "2025-10-12")
          (js "99.99") false
          ([10; 32; 32; 32; 32; 32; 32]%N
           ++ js "<div><strong>Total TTC :</strong> 99,99" ++ [160; 8364]%N
           ++ js "</div>"
           ++ [10; 32; 32; 32; 32; 32; 32]%N
           ++ js "<div><strong>Avance imm" ++ [233%N]
           ++ js "diate (50%) :</strong> 50,00" ++ [160; 8364]%N
           ++ js "</div>"
           ++ [10; 32; 32; 32; 32; 32; 32]%N
           ++ js "<div><strong>Reste " ++ [224%N]
           ++ js " charge client :</strong> 49,99" ++ [160; 8364]%N
           ++ js "</div>"
           ++ [10; 32; 32; 32; 32; 32; 32]%N
           ++ js "<small>Note : calcul d" ++ [233%N] ++ js "mo simplifi"
           ++ [233%N] ++ js ", sans plafonds ni cas particuliers.</small>"
           ++ [10; 32; 32; 32; 32]%N)
          [] [] 0%nat).
Proof.
  assert (Hpos : Num.ltb Num.zero
    (Parse.parseFloat
       (App.montant (Spec.filled_form (js "Mme Dupont") (js "Jardinage")
                                      (js "2025-10-12") (js "99.99"))))
    = true) by (vm_compute; reflexivity).
  split; [exact Hpos |].
  destruct (compute_positive_amount Spec.french_format _ Hpos) as [E _].
  rewrite E. vm_compute. reflexivity.
Defined.

(** C3 fails as a statement about rounding half up at two decimals.  With
    "0.03" the amount is the double next below 0.03, its half lies below
    0.015 and rounds half up to 0.01, and the advance is 0.02.  With "0.29"
    the half of the amount typed, 0.145, rounds half up to 0.15, and the
    advance is 0.14. *)
Lemma advance_not_half_up_at_two_decimals :
  Num.ltb Num.zero (Parse.parseFloat (js "0.03")) = true
  /\ App.aici (App.amounts (Parse.parseFloat (js "0.03"))) = Spec.cents 2
  /\ Spec.round_half_up_2dp (Num.mul (Parse.parseFloat (js "0.03")) Num.half)
     = Some (Spec.cents 1)
  /\ Spec.cents 1 <> Spec.cents 2
  /\ Num.ltb Num.zero (Parse.parseFloat (js "0.29")) = true
  /\ App.aici (App.amounts (Parse.parseFloat (js "0.29"))) = Spec.cents 14
  /\ Spec.half_up_cents ((29 # 100) * (1 # 2)) = 15
  /\ ~ (forall A, Num.ltb Num.zero A = true ->
          Some (App.aici (App.amounts A))
          = Spec.round_half_up_2dp (Num.mul A Num.half)).
Proof.
  assert (Hpos : Num.ltb Num.zero (Parse.parseFloat (js "0.03")) = true)
    by (vm_compute; reflexivity).
  assert (Ha : App.aici (App.amounts (Parse.parseFloat (js "0.03")))
               = Spec.cents 2) by (vm_compute; reflexivity).
  assert (Hr : Spec.round_half_up_2dp
                 (Num.mul (Parse.parseFloat (js "0.03")) Num.half)
               = Some (Spec.cents 1)) by (vm_compute; reflexivity).
  assert (Hne : Spec.cents 1 <> Spec.cents 2) by (vm_compute; discriminate).
  split; [exact Hpos |]. split; [exact Ha |]. split; [exact Hr |].
  split; [exact Hne |]. split; [vm_compute; reflexivity |].
  split; [vm_compute; reflexivity |]. split; [vm_compute; reflexivity |].
  intros H. specialize (H _ Hpos). rewrite Ha, Hr in H.
  apply Hne. congruence.
Qed.

(** ** The row of a submission *)

Section RowMarkup.

Variable EURO_format : Num.number -> jsstring.

(** C8, as the script has it: a submission with a client and a service
    filled in and an amount that parses to a positive number writes the
    markup of six cells, with the date, the trimmed client and service and
    the formatted amount and advance put between the tags as they are, and
    the French label "Transmis (demo)", its e acute; the row is put
    first in the history, the four controls are emptied, the preview is
    hidden and the confirmation is shown.  When the five texts hold no
    markup, the cells of the row are [date, client, service, amount, advance,
    label]. *)
Theorem submit_valid_entry (now : Z) (pg : App.Page) :
  Spec.filled (App.client pg) = true ->
  Spec.filled (App.prestation pg) = true ->
  Num.ltb Num.zero (Parse.parseFloat (App.montant pg)) = true ->
  let A := Parse.parseFloat (App.montant pg) in
  let advance :=
    Num.div (Num.Math_round (Num.mul (Num.mul A Num.half) Num.hundred))
            Num.hundred in
  let d := if truthy (App.datePrest pg) then App.datePrest pg
           else slice0 10 (Clock.toISOString now) in
  let c := trim (App.client pg) in
  let p := trim (App.prestation pg) in
  let label := js "Transmis (d" ++ [233%N] ++ js "mo)" in
  let row := js "<td>" ++ d ++ js "</td><td>" ++ c ++ js "</td><td>" ++ p
             ++ js "</td><td>" ++ EURO_format A
             ++ js "</td><td>" ++ EURO_format advance
             ++ js "</td><td>" ++ label ++ js "</td>" in
  let pg' := App.page_of (App.on_submit EURO_format now pg) in
  App.completion_of (App.on_submit EURO_format now pg) = App.Returned
  /\ App.tbody pg' = row :: App.tbody pg
  /\ (Spec.plain_text d = true -> Spec.plain_text c = true ->
      Spec.plain_text p = true ->
      Spec.plain_text (EURO_format A) = true ->
      Spec.plain_text (EURO_format advance) = true ->
      Spec.cells row
      = Some [d; c; p; EURO_format A; EURO_format advance; label])
  /\ (App.client pg', App.prestation pg', App.datePrest pg', App.montant pg')
     = ([], [], [], [])
  /\ App.calcZone_hidden pg' = true
  /\ App.alerts pg'
     = (js "Dossier transmis (d" ++ [233%N] ++ js "mo). Aucun envoi r"
        ++ [233%N] ++ js "el " ++ [224%N] ++ js " l" ++ [8217%N]
        ++ js "URSSAF n" ++ [8217%N] ++ js "est effectu" ++ [233%N] ++ js ".")
       :: App.alerts pg.
Proof.
  intros Hc Hp Hm A advance d c p label row pg'.
  destruct (row_written EURO_format now pg Hc Hp Hm)
    as (Hret & Hrow & Hform & Hhid & Hal).
  split; [exact Hret |]. split; [exact Hrow |].
  split; [| split; [exact Hform | split; [exact Hhid | exact Hal]]].
  intros Hd Hc' Hp' HA Hadv. apply cells_of_row; try assumption.
  reflexivity.
Qed.

End RowMarkup.

Lemma submit_valid_entry_witness :
  App.tbody
    (App.page_of
       (App.on_submit Spec.french_format 1760308200000
          (Spec.filled_form (js "Mme Dupont") (js "Jardinage")
                            (js "2025-10-12") (js "80"))))
  = [ js "<td>2025-10-12</td><td>Mme Dupont</td><td>Jardinage</td><td>80,00"
      ++ [160; 8364]%N ++ js "</td><td>40,00" ++ [160; 8364]%N
      ++ js "</td><td>Transmis (d" ++ [233%N] ++ js "mo)</td>" ]
  /\ Spec.cells
       (js "<td>2025-10-12</td><td>Mme Dupont</td><td>Jardinage</td><td>80,00"
        ++ [160; 8364]%N ++ js "</td><td>40,00" ++ [160; 8364]%N
        ++ js "</td><td>Transmis (d" ++ [233%N] ++ js "mo)</td>")
     = Some [ js "2025-10-12"; js "Mme Dupont"; js "Jardinage";
              js "80,00" ++ [160; 8364]%N; js "40,00" ++ [160; 8364]%N;
              js "Transmis (d" ++ [233%N] ++ js "mo)" ].
Proof.
  destruct (submit_valid_entry Spec.french_format 1760308200000
              (Spec.filled_form (js "Mme Dupont") (js "Jardinage")
                                (js "2025-10-12") (js "80"))
              ltac:(vm_compute; reflexivity) ltac:(vm_compute; reflexivity)
              ltac:(vm_compute; reflexivity))
    as (_ & E & C & _).
  split.
  - rewrite E. vm_compute. reflexivity.
  - specialize (C ltac:(vm_compute; reflexivity) ltac:(vm_compute; reflexivity)
                  ltac:(vm_compute; reflexivity) ltac:(vm_compute; reflexivity)
                  ltac:(vm_compute; reflexivity)).
    vm_compute in C. vm_compute. exact C.
Defined.

(** C8 fails in two ways.  The label of the new row is the French
    "Transmis (demo)", not "Submitted (demo)".  And the texts are not
    escaped: with the client name [</td><td>x] the row has seven cells, the
    second one empty and the third one [x], and the service is in the
    fourth. *)
Lemma submit_row_not_six_columns :
  Spec.filled (js "</td><td>x") = true
  /\ Spec.filled (js "Jardinage") = true
  /\ Num.ltb Num.zero (Parse.parseFloat (js "80")) = true
  /\ option_map
       Spec.cells
       (hd_error
          (App.tbody
             (App.page_of
                (App.on_submit Spec.french_format 1760308200000
                   (Spec.filled_form (js "</td><td>x") (js "Jardinage")
                                     (js "2025-10-12") (js "80"))))))
     = Some (Some [ js "2025-10-12"; []; js "x"; js "Jardinage";
                    js "80,00" ++ [160; 8364]%N; js "40,00" ++ [160; 8364]%N;
                    js "Transmis (d" ++ [233%N] ++ js "mo)" ])
  /\ ~ (forall fmt now pg,
          Spec.filled (App.client pg) = true ->
          Spec.filled (App.prestation pg) = true ->
          Num.ltb Num.zero (Parse.parseFloat (App.montant pg)) = true ->
          exists d a b l,
            option_map Spec.cells
              (hd_error (App.tbody (App.page_of (App.on_submit fmt now pg))))
            = Some (Some [ d; trim (App.client pg); trim (App.prestation pg);
                           a; b; l ]))
  /\ option_map
       Spec.status
       (hd_error
          (App.tbody
             (App.page_of
                (App.on_submit Spec.french_format 1760308200000
                   (Spec.filled_form (js "Mme Dupont") (js "Jardinage")
                                     (js "2025-10-12") (js "80"))))))
     = Some (Some (js "Transmis (d" ++ [233%N] ++ js "mo)"))
  /\ js "Transmis (d" ++ [233%N] ++ js "mo)" <> js "Submitted (demo)"
  /\ ~ (forall fmt now pg,
          Spec.filled (App.client pg) = true ->
          Spec.filled (App.prestation pg) = true ->
          Num.ltb Num.zero (Parse.parseFloat (App.montant pg)) = true ->
          option_map Spec.status
            (hd_error (App.tbody (App.page_of (App.on_submit fmt now pg))))
          = Some (Some (js "Submitted (demo)"))).
Proof.
  split; [reflexivity |]. split; [reflexivity |].
  split; [vm_compute; reflexivity |]. split; [vm_compute; reflexivity |].
  split.
  { intros H.
    destruct (H Spec.french_format 1760308200000
                (Spec.filled_form (js "</td><td>x") (js "Jardinage")
                                  (js "2025-10-12") (js "80"))
                ltac:(vm_compute; reflexivity) ltac:(vm_compute; reflexivity)
                ltac:(vm_compute; reflexivity)) as (d & a & b & l & E).
    vm_compute in E. discriminate E. }
  split; [vm_compute; reflexivity |]. split; [vm_compute; discriminate |].
  intros H.
  assert (E := H Spec.french_format 1760308200000
              (Spec.filled_form (js "Mme Dupont") (js "Jardinage")
                                (js "2025-10-12") (js "80"))
              ltac:(vm_compute; reflexivity) ltac:(vm_compute; reflexivity)
              ltac:(vm_compute; reflexivity)).
  vm_compute in E. discriminate E.
Qed.

(** ** The demonstration rows *)

Section SeedMarkup.

Variable EURO_format : Num.number -> jsstring.

(** C9, as the script has it: loading the script appends, after the rows
    already in the table, exactly two rows, for the amounts 80 and 120, with
    the advances 80 x 0.5 = 40 and 120 x 0.5 = 60 and the French label
    "Regle (demo)", its three e's acute.  The advance of a demonstration row
    is the product of its amount and 0.5 as it is, which is not in general
    the advance of the preview.  Whatever happens afterwards, the two rows
    stay the last two, below the rows submitted since. *)
Theorem load_appends_seed_rows (pg : App.Page) :
  let label := js "R" ++ [233%N] ++ js "gl" ++ [233%N] ++ js " (d"
               ++ [233%N] ++ js "mo)" in
  let row80 :=
    js "<td>2025-10-12</td><td>Mme Dupont</td><td>Entretien jardin</td><td>"
    ++ EURO_format (Num.of_Z 80) ++ js "</td><td>"
    ++ EURO_format (Num.of_Z 40) ++ js "</td><td>" ++ label ++ js "</td>" in
  let row120 :=
    js "<td>2025-10-05</td><td>M. Martin</td><td>Bricolage l" ++ [233%N]
    ++ js "ger</td><td>"
    ++ EURO_format (Num.of_Z 120) ++ js "</td><td>"
    ++ EURO_format (Num.of_Z 60) ++ js "</td><td>" ++ label ++ js "</td>" in
  App.tbody (App.load EURO_format pg) = App.tbody pg ++ [row80; row120]
  /\ Num.mul (Num.of_Z 80) Num.half = Num.of_Z 40
  /\ Num.mul (Num.of_Z 120) Num.half = Num.of_Z 60
  /\ (forall x : App.SeedRow,
        let product := Num.mul (App.seed_m x) Num.half in
        App.seed_row EURO_format x
        = js "<td>" ++ App.seed_d x ++ js "</td><td>" ++ App.seed_c x
          ++ js "</td><td>" ++ App.seed_p x ++ js "</td><td>"
          ++ EURO_format (if Num.truthy (App.seed_m x) then App.seed_m x
                          else Num.zero)
          ++ js "</td><td>"
          ++ EURO_format (if Num.truthy product then product else Num.zero)
          ++ js "</td><td>" ++ label ++ js "</td>")
  /\ Num.mul (Parse.parseFloat (js "0.29")) Num.half
     <> App.aici (App.amounts (Parse.parseFloat (js "0.29")))
  /\ (Spec.plain_text (EURO_format (Num.of_Z 80)) = true ->
      Spec.plain_text (EURO_format (Num.of_Z 40)) = true ->
      Spec.plain_text (EURO_format (Num.of_Z 120)) = true ->
      Spec.plain_text (EURO_format (Num.of_Z 60)) = true ->
      Spec.cells row80
      = Some [ js "2025-10-12"; js "Mme Dupont"; js "Entretien jardin";
               EURO_format (Num.of_Z 80); EURO_format (Num.of_Z 40); label ]
      /\ Spec.cells row120
         = Some [ js "2025-10-05"; js "M. Martin";
                  js "Bricolage l" ++ [233%N] ++ js "ger";
                  EURO_format (Num.of_Z 120); EURO_format (Num.of_Z 60);
                  label ])
  /\ forall acts, exists newer,
       App.tbody (App.run EURO_format acts (App.load EURO_format pg))
         = newer ++ App.tbody pg ++ [row80; row120].
Proof.
  intros label row80 row120.
  assert (E : App.tbody (App.load EURO_format pg)
              = App.tbody pg ++ [row80; row120]).
  { unfold App.load. cbn [fold_left App.seed App.tbody App.tbody_appendChild].
    rewrite <- app_assoc. unfold App.seed_row.
    cbn [App.seed_d App.seed_c App.seed_p App.seed_m].
    rewrite !row_markup. reflexivity. }
  split; [exact E |]. split; [reflexivity |]. split; [reflexivity |].
  split; [intros x product; unfold App.seed_row; rewrite row_markup;
          reflexivity |].
  split; [vm_compute; discriminate |].
  split.
  - intros H80 H40 H120 H60. split.
    + apply (cells_of_row (js "2025-10-12") (js "Mme Dupont")
               (js "Entretien jardin")); try assumption; reflexivity.
    + apply (cells_of_row (js "2025-10-05") (js "M. Martin")
               (js "Bricolage l" ++ [233%N] ++ js "ger"));
        try assumption; reflexivity.
  - intros acts.
    destruct (run_grows_tbody EURO_format acts (App.load EURO_format pg))
      as [n H].
    exists n. rewrite H, E. reflexivity.
Qed.

End SeedMarkup.

Lemma load_appends_seed_rows_witness :
  map Spec.cells
      (App.tbody (App.load Spec.french_format (Spec.filled_form [] [] [] [])))
  = [ Some [ js "2025-10-12"; js "Mme Dupont"; js "Entretien jardin";
             js "80,00" ++ [160; 8364]%N; js "40,00" ++ [160; 8364]%N;
             js "R" ++ [233%N] ++ js "gl" ++ [233%N] ++ js " (d" ++ [233%N]
             ++ js "mo)" ];
      Some [ js "2025-10-05"; js "M. Martin";
             js "Bricolage l" ++ [233%N] ++ js "ger";
             js "120,00" ++ [160; 8364]%N; js "60,00" ++ [160; 8364]%N;
             js "R" ++ [233%N] ++ js "gl" ++ [233%N] ++ js " (d" ++ [233%N]
             ++ js "mo)" ] ].
Proof.
  destruct (load_appends_seed_rows Spec.french_format
              (Spec.filled_form [] [] [] []))
    as (E & _ & _ & _ & _ & C & _).
  destruct (C ltac:(vm_compute; reflexivity) ltac:(vm_compute; reflexivity)
              ltac:(vm_compute; reflexivity) ltac:(vm_compute; reflexivity))
    as [C80 C120].
  rewrite E.
  refine (eq_trans (f_equal2 (fun a b => [a; b]) C80 C120) _).
  vm_compute. reflexivity.
Defined.

(** C9 fails for the label: the two rows end in the French
    "Regle (demo)", not in "Settled (demo)". *)
Lemma seed_rows_not_labelled_settled :
  map Spec.status
      (App.tbody (App.load Spec.french_format (Spec.filled_form [] [] [] [])))
  = [ Some (js "R" ++ [233%N] ++ js "gl" ++ [233%N] ++ js " (d" ++ [233%N]
            ++ js "mo)");
      Some (js "R" ++ [233%N] ++ js "gl" ++ [233%N] ++ js " (d" ++ [233%N]
            ++ js "mo)") ]
  /\ js "R" ++ [233%N] ++ js "gl" ++ [233%N] ++ js " (d" ++ [233%N] ++ js "mo)"
     <> js "Settled (demo)"
  /\ ~ (forall fmt pg,
          map Spec.status (App.tbody (App.load fmt pg))
          = map Spec.status (App.tbody pg)
            ++ [Some (js "Settled (demo)"); Some (js "Settled (demo)")]).
Proof.
  split; [vm_compute; reflexivity |]. split; [vm_compute; discriminate |].
  intros H.
  assert (E := H Spec.french_format (Spec.filled_form [] [] [] [])).
  vm_compute in E. discriminate E.
Qed.

(** ** Amounts with a numeric prefix *)

Section PrefixAccepted.

Variable EURO_format : Num.number -> jsstring.

(** C10: an amount text with a leading numeric prefix is never a parse
    failure, and the texts that are not parse failures are those with such a
    prefix.  When the value read is above 0 the preview is shown, with the
    amount, the advance and the remainder computed from that value, and a
    submission with a client and a service filled in is accepted and
    recorded.  The value read is that of the literal in front: white space,
    an optional sign, digits with an optional fraction, whatever follows
    that does not continue the number.  So "80abc" is read as 80, with the
    advance 40. *)
Theorem amount_numeric_prefix_accepted (now : Z) (pg : App.Page) :
  Spec.has_numeric_prefix (App.montant pg) = true ->
  let A := Parse.parseFloat (App.montant pg) in
  let advance :=
    Num.div (Num.Math_round (Num.mul (Num.mul A Num.half) Num.hundred))
            Num.hundred in
  let remainder :=
    Num.div (Num.Math_round (Num.mul (Num.sub A advance) Num.hundred))
            Num.hundred in
  let d := if truthy (App.datePrest pg) then App.datePrest pg
           else slice0 10 (Clock.toISOString now) in
  Num.isNaN A = false
  /\ (Num.ltb Num.zero A = true ->
      App.compute EURO_format pg =
        (Some (App.mkCalc A advance remainder),
         App.mkPage (App.client pg) (App.prestation pg) (App.datePrest pg)
           (App.montant pg) false
           ([10; 32; 32; 32; 32; 32; 32]%N
            ++ js "<div><strong>Total TTC :</strong> " ++ EURO_format A
            ++ js "</div>"
            ++ [10; 32; 32; 32; 32; 32; 32]%N
            ++ js "<div><strong>Avance imm" ++ [233%N]
            ++ js "diate (50%) :</strong> "
            ++ EURO_format (if Num.truthy advance then advance else Num.zero)
            ++ js "</div>"
            ++ [10; 32; 32; 32; 32; 32; 32]%N
            ++ js "<div><strong>Reste " ++ [224%N]
            ++ js " charge client :</strong> "
            ++ EURO_format (if Num.truthy remainder then remainder
                            else Num.zero)
            ++ js "</div>"
            ++ [10; 32; 32; 32; 32; 32; 32]%N
            ++ js "<small>Note : calcul d" ++ [233%N] ++ js "mo simplifi"
            ++ [233%N] ++ js ", sans plafonds ni cas particuliers.</small>"
            ++ [10; 32; 32; 32; 32]%N)
           (App.tbody pg) (App.alerts pg) (App.prints pg)))
  /\ (Num.ltb Num.zero A = true ->
      Spec.filled (App.client pg) = true ->
      Spec.filled (App.prestation pg) = true ->
      App.completion_of (App.on_submit EURO_format now pg) = App.Returned
      /\ App.tbody (App.page_of (App.on_submit EURO_format now pg))
         = (js "<td>" ++ d ++ js "</td><td>" ++ trim (App.client pg)
            ++ js "</td><td>" ++ trim (App.prestation pg)
            ++ js "</td><td>" ++ EURO_format A
            ++ js "</td><td>" ++ EURO_format advance
            ++ js "</td><td>" ++ (js "Transmis (d" ++ [233%N] ++ js "mo)")
            ++ js "</td>") :: App.tbody pg
      /\ App.alerts (App.page_of (App.on_submit EURO_format now pg))
         = (js "Dossier transmis (d" ++ [233%N] ++ js "mo). Aucun envoi r"
            ++ [233%N] ++ js "el " ++ [224%N] ++ js " l" ++ [8217%N]
            ++ js "URSSAF n" ++ [8217%N] ++ js "est effectu" ++ [233%N]
            ++ js ".")
           :: App.alerts pg)
  /\ (forall t, Spec.has_numeric_prefix t = true
                <-> Num.isNaN (Parse.parseFloat t) = false)
  /\ (forall (ws sg ip fp rest : jsstring) (neg dot : bool),
        forallb is_whitespace ws = true ->
        Spec.sign_of sg = Some neg ->
        forallb is_digit ip = true ->
        forallb is_digit fp = true ->
        ip ++ fp <> [] ->
        (dot = false -> fp = []) ->
        Spec.ends_number dot rest = true ->
        Parse.parseFloat
          (ws ++ sg ++ ip ++ (if dot then 46%N :: fp else []) ++ rest)
        = Parse.decimal_value neg (digits_value (ip ++ fp))
                              (- Z.of_nat (List.length fp)))
  /\ Spec.has_numeric_prefix (js "80abc") = true
  /\ Parse.parseFloat (js "80abc") = Num.of_Z 80
  /\ App.amounts (Num.of_Z 80)
     = App.mkCalc (Num.of_Z 80) (Num.of_Z 40) (Num.of_Z 40).
Proof.
  intros Hpre A advance remainder d.
  split; [apply numeric_prefix_iff; exact Hpre |].
  split.
  { intros Hpos. apply (preview_written EURO_format pg Hpos). }
  split.
  { intros Hpos Hc Hp.
    destruct (row_written EURO_format now pg Hc Hp Hpos)
      as (Hret & Hrow & _ & _ & Hal).
    split; [exact Hret |]. split; [exact Hrow | exact Hal]. }
  split; [exact numeric_prefix_iff |].
  split; [exact parseFloat_literal_prefix |].
  split; [reflexivity |].
  split; vm_compute; reflexivity.
Qed.

End PrefixAccepted.

Lemma amount_numeric_prefix_accepted_witness :
  App.compute Spec.french_format
    (Spec.filled_form (js "Mme Dupont") (js "Jardinage")
                      (js "2025-10-12") (js "80abc"))
  = (Some (App.mkCalc (Num.of_Z 80) (Num.of_Z 40) (Num.of_Z 40)),
     App.mkPage (js "Mme Dupont") (js "Jardinage") (js "2025-10-12")
       (js "80abc") false
       ([10; 32; 32; 32; 32; 32; 32]%N
        ++ js "<div><strong>Total TTC :</strong> 80,00" ++ [160; 8364]%N
        ++ js "</div>"
        ++ [10; 32; 32; 32; 32; 32; 32]%N
        ++ js "<div><strong>Avance imm" ++ [233%N]
        ++ js "diate (50%) :</strong> 40,00" ++ [160; 8364]%N
        ++ js "</div>"
        ++ [10; 32; 32; 32; 32; 32; 32]%N
        ++ js "<div><strong>Reste " ++ [224%N]
        ++ js " charge client :</strong> 40,00" ++ [160; 8364]%N
        ++ js "</div>"
        ++ [10; 32; 32; 32; 32; 32; 32]%N
        ++ js "<small>Note : calcul d" ++ [233%N] ++ js "mo simplifi"
        ++ [233%N] ++ js ", sans plafonds ni cas particuliers.</small>"
        ++ [10; 32; 32; 32; 32]%N)
       [] [] 0%nat)
  /\ App.completion_of
       (App.on_submit Spec.french_format 1760308200000
          (Spec.filled_form (js "Mme Dupont") (js "Jardinage")
                            (js "2025-10-12") (js "80abc")))
     = App.Returned
  /\ App.tbody
       (App.page_of
          (App.on_submit Spec.french_format 1760308200000
             (Spec.filled_form (js "Mme Dupont") (js "Jardinage")
                               (js "2025-10-12") (js "80abc"))))
     = [ js "<td>2025-10-12</td><td>Mme Dupont</td><td>Jardinage</td><td>80,00"
         ++ [160; 8364]%N ++ js "</td><td>40,00" ++ [160; 8364]%N
         ++ js "</td><td>Transmis (d" ++ [233%N] ++ js "mo)</td>" ].
Proof.
  destruct (amount_numeric_prefix_accepted Spec.french_format 1760308200000
              (Spec.filled_form (js "Mme Dupont") (js "Jardinage")
                                (js "2025-10-12") (js "80abc"))
              ltac:(reflexivity))
    as (_ & Hprev & Hsub & _).
  assert (Hpos : Num.ltb Num.zero
            (Parse.parseFloat
               (App.montant
                  (Spec.filled_form (js "Mme Dupont") (js "Jardinage")
                                    (js "2025-10-12") (js "80abc")))) = true)
    by (vm_compute; reflexivity).
  destruct (Hsub Hpos ltac:(vm_compute; reflexivity)
                 ltac:(vm_compute; reflexivity)) as (Hret & Hrow & _).
  split; [| split; [exact Hret |]].
  - rewrite (Hprev Hpos). vm_compute. reflexivity.
  - rewrite Hrow. vm_compute. reflexivity.
Defined.

(** ** Whole numbers of cents *)

(** The Number of [n] cents rounds half up, at two decimals, to itself. *)
Lemma cents_half_up (n : Z) :
  1 <= n <= 838860812 ->
  Spec.round_half_up_2dp (Spec.cents n) = Some (Spec.cents n).
Proof.
  intros Hn.
  assert (B : 0 < n < 2 ^ 53) by (pow_num 53; lia).
  destruct (cents_spec n B) as (m & e & E & Fm & He & Hb).
  assert (Hlt : Sc m e < 2 ^ 424).
  { assert (P396 : 0 < 2 ^ 396) by (apply Z.pow_pos_nonneg; lia).
    assert (Hp : 2 ^ (e + 400) <= 2 ^ 396)
      by (apply Z.pow_le_mono_r; lia).
    assert (E400 : 2 ^ 400 = 16 * 2 ^ 396)
      by (change 400 with (4 + 396); rewrite Z.pow_add_r by lia; reflexivity).
    assert (E424 : 2 ^ 424 = 268435456 * 2 ^ 396)
      by (change 424 with (28 + 396); rewrite Z.pow_add_r by lia; reflexivity).
    rewrite E400 in Hb. rewrite E424.
    set (Q := 2 ^ 396) in *. set (S := Sc m e) in *.
    set (P := 2 ^ (e + 400)) in *. lia. }
  destruct (ulp_bound m e 424 Fm ltac:(lia) Hlt) as [He' _].
  set (D := 2 ^ (- e)).
  assert (Hq : Num.to_Q (Spec.cents n)
               = Some (Qmake (Z.pos m) (Z.to_pos D))).
  { rewrite E. unfold Num.to_Q, Num.signed.
    destruct (Z.leb_spec 0 e) as [Hge | _]; [lia | reflexivity]. }
  unfold Spec.round_half_up_2dp. rewrite Hq. f_equal. f_equal.
  assert (HD : 536870912 <= D).
  { subst D. change 536870912 with (2 ^ 29). apply Z.pow_le_mono_r; lia. }
  assert (HP : 0 < 2 ^ (e + 400)) by (apply Z.pow_pos_nonneg; lia).
  assert (HPD : 2 ^ 400 = 2 ^ (e + 400) * D).
  { subst D. rewrite <- Z.pow_add_r by lia. f_equal. lia. }
  unfold Sc in Hb. rewrite HPD in Hb.
  set (P := 2 ^ (e + 400)) in *.
  assert (Hclose : 2 * Z.abs (100 * Z.pos m - n * D) <= 100).
  { assert (Hf : 100 * (Z.pos m * P) - n * (P * D)
                 = (100 * Z.pos m - n * D) * P) by ring.
    rewrite Hf, Z.abs_mul, (Z.abs_eq P) in Hb by lia.
    set (X := Z.abs (100 * Z.pos m - n * D)) in *.
    apply Z.mul_le_mono_pos_r with (p := P); [lia |].
    replace (2 * X * P) with (2 * (X * P)) by ring. exact Hb. }
  unfold Spec.half_up_cents, Qfloor, Qplus, Qmult.
  cbn [Qnum Qden].
  rewrite !Pos2Z.inj_mul, Z2Pos.id by lia.
  change (Z.pos 1) with 1. change (Z.pos 100) with 100.
  change (Z.pos 2) with 2.
  symmetry. apply (Z.div_unique _ _ n (200 * Z.pos m + D - 2 * D * n)).
  - left. lia.
  - ring.
Qed.

(** C1, as far as it holds: for every positive amount that is a whole
    number of cents, up to 8388608.12 (838860812 cents), the advance plus
    the remainder is within 1e-9 of the amount rounded to two decimals; the
    rounded amount is the amount itself, whether the rounding is the
    script's Math.round(x * 100) / 100 or the half-up rounding of the exact
    value, and the advance and the remainder are whole numbers of cents that
    add up to the amount. *)
Theorem advance_plus_remainder_whole_cents (n : Z) :
  1 <= n <= 838860812 ->
  Spec.sum_matches (Spec.cents n) = true
  /\ Spec.round_2dp_binary64 (Spec.cents n) = Spec.cents n
  /\ Spec.round_half_up_2dp (Spec.cents n) = Some (Spec.cents n)
  /\ Spec.within_tolerance
       (Num.add (App.aici (App.amounts (Spec.cents n)))
                (App.reste (App.amounts (Spec.cents n))))
       (Spec.cents n) = true
  /\ exists c, n - 1 <= 2 * c <= n + 1
       /\ App.aici (App.amounts (Spec.cents n)) = Spec.cents c
       /\ App.reste (App.amounts (Spec.cents n)) = Spec.cents (n - c).
Proof.
  intros Hn.
  assert (Hs := whole_cents_sum_matches n Hn).
  destruct (whole_cents_amounts n Hn) as (c & Hc & Ha & Hr & Hround).
  split; [exact Hs |]. split; [exact Hround |].
  split; [apply cents_half_up; exact Hn |].
  split; [unfold Spec.sum_matches in Hs; rewrite Hround in Hs; exact Hs |].
  exists c. split; [exact Hc |]. split; [exact Ha | exact Hr].
Qed.

Lemma advance_plus_remainder_whole_cents_witness :
  Spec.sum_matches (Parse.parseFloat (js "80")) = true
  /\ Spec.sum_matches (Parse.parseFloat (js "120")) = true
  /\ Spec.sum_matches (Parse.parseFloat (js "0.01")) = true
  /\ Spec.sum_matches (Parse.parseFloat (js "99.99")) = true
  /\ Spec.sum_matches (Parse.parseFloat (js "1000000")) = true
  /\ Spec.sum_matches (Parse.parseFloat (js "10.01")) = true
  /\ Spec.sum_matches (Parse.parseFloat (js "8388608.12")) = true.
Proof.
  destruct listed_amounts_in_cents as (-> & -> & -> & -> & ->).
  replace (Parse.parseFloat (js "10.01")) with (Spec.cents 1001)
    by (vm_compute; reflexivity).
  replace (Parse.parseFloat (js "8388608.12")) with (Spec.cents 838860812)
    by (vm_compute; reflexivity).
  split; [apply (advance_plus_remainder_whole_cents 8000); lia |].
  split; [apply (advance_plus_remainder_whole_cents 12000); lia |].
  split; [apply (advance_plus_remainder_whole_cents 1); lia |].
  split; [apply (advance_plus_remainder_whole_cents 9999); lia |].
  split; [apply (advance_plus_remainder_whole_cents 100000000); lia |].
  split; [apply (advance_plus_remainder_whole_cents 1001); lia |].
  apply (advance_plus_remainder_whole_cents 838860812). lia.
Defined.

(** Two more amounts at which the sum is not the rounded amount.  For 0.045
    the advance is 0.02 and the remainder 0.03, and the amount, just below
    0.045, rounds half up to 0.04.  For 8388608.13, the first whole number of
    cents that fails, the advance is 4194304.07 and the remainder 4194304.06,
    and their sum as Numbers is more than 1e-9 away from the amount. *)
Lemma advance_plus_remainder_more_failures :
  Num.ltb Num.zero (Parse.parseFloat (js "0.045")) = true
  /\ App.aici (App.amounts (Parse.parseFloat (js "0.045"))) = Spec.cents 2
  /\ App.reste (App.amounts (Parse.parseFloat (js "0.045"))) = Spec.cents 3
  /\ Spec.round_half_up_2dp (Parse.parseFloat (js "0.045"))
     = Some (Spec.cents 4)
  /\ Spec.within_tolerance
       (Num.add (App.aici (App.amounts (Parse.parseFloat (js "0.045"))))
                (App.reste (App.amounts (Parse.parseFloat (js "0.045")))))
       (Spec.cents 4) = false
  /\ Parse.parseFloat (js "8388608.13") = Spec.cents 838860813
  /\ App.aici (App.amounts (Spec.cents 838860813)) = Spec.cents 419430407
  /\ App.reste (App.amounts (Spec.cents 838860813)) = Spec.cents 419430406
  /\ Spec.round_2dp_binary64 (Spec.cents 838860813) = Spec.cents 838860813
  /\ Spec.sum_matches (Spec.cents 838860813) = false.
Proof.
  split; [vm_compute; reflexivity |]. split; [vm_compute; reflexivity |].
  split; [vm_compute; reflexivity |]. split; [vm_compute; reflexivity |].
  split; [vm_compute; reflexivity |]. split; [vm_compute; reflexivity |].
  split; [vm_compute; reflexivity |]. split; [vm_compute; reflexivity |].
  split; vm_compute; reflexivity.
Qed.

